(** * The interactive box experience: state engine and adaptive rendering

    A shallow embedding of the JavaScript sources

    - [BoxExperience]        (the class of that name: flags, the two cameras,
                              [boxAnimations], the click and keydown handlers),
    - [ResponsiveHandler]    (js/ResponsiveHandler.js: [handleTap] and
                              [adjustQualityBasedOnPerformance]),
    - [PerformanceOptimizer] (the class of that name: [autoOptimize] and the
                              culling pass [updateCulling]),

    followed by what surrounds them: the inputs that reach the experience
    ([Inputs]), the quality ladder over many windows ([Ladder]), the
    monitoring loop, [simplifyGeometry], the particle count and the object
    pools of [PerformanceOptimizer] ([Monitoring], [Simplify], [Particles],
    [Pools]), device detection, touch gestures and look controls
    ([Device], [Touch], [Look]), the entry point ([Loading]) and what a
    quality level configures ([RenderSettings]).

    JavaScript numbers that are only compared against constants (tween
    progress, frames per second, camera distance) are rationals: every finite
    double is one, and the comparisons are the only operations used on them.
    Where the code computes with them, the four operations are those of a
    [Float64], about which nothing is assumed but what a statement says.
    A call that can throw returns an outcome, and what follows it is
    skipped when it does.
    Third-party code (gsap timelines, the three.js ray caster and frustum) is
    not part of the repository; what the embedding assumes about it is said
    where it is used. *)

From Stdlib Require Import Bool List String QArith Lia Arith.
From Stdlib Require Import Qround Qabs Ascii.
Import ListNotations.

(** ** Comparisons on JavaScript numbers *)

(** [a > b] *)
Definition Qgtb (a b : Q) : bool := negb (Qle_bool a b).
(** [a < b] *)
Definition Qltb (a b : Q) : bool := negb (Qle_bool b a).
(** [a >= b] *)
Definition Qgeb (a b : Q) : bool := Qle_bool b a.

Arguments Qgtb : simpl never.
Arguments Qltb : simpl never.
Arguments Qgeb : simpl never.

(** The quality names used by both controllers
    (['low', 'medium', 'high', 'ultra', 'auto']). *)
Inductive Level : Type := low | medium | high | ultra | auto.

Definition Level_eqb (a b : Level) : bool :=
  match a, b with
  | low, low | medium, medium | high, high | ultra, ultra | auto, auto => true
  | _, _ => false
  end.


Definition specUpgrade (l : Level) : Level :=
  match l with
  | low => medium
  | medium => high
  | high => ultra
  | ultra => ultra
  | auto => auto
  end.

(** ** BoxExperience *)

Module BoxExperience.

(** [this.activeCamera] is a reference to one of the two cameras built by
    [initThree]. *)
Inductive Camera : Type := externalCamera | internalCamera.

Definition Camera_eqb (a b : Camera) : bool :=
  match a, b with
  | externalCamera, externalCamera | internalCamera, internalCamera => true
  | _, _ => false
  end.

(** The three entries of [this.boxAnimations]. *)
Inductive Animation : Type := openAnim | enterBoxAnim | exitBoxAnim.

(** A gsap timeline created by one of the three entries and still in
    flight; [started] says whether its [onStart] has already run. *)
Record Timeline : Type := mkTimeline { anim : Animation; started : bool }.

Record t : Type := mk {
  isBoxOpen : bool;
  isInsideBox : bool;
  interactionEnabled : bool;
  controls_enabled : bool;          (* this.controls.enabled *)
  activeCamera : Camera;
  interiorLight_visible : bool;
  boxModel : bool;                  (* this.boxModel is bound *)
  boxAnimations : bool;             (* this.boxAnimations is bound *)
  openingParticles : nat;           (* calls of createOpeningParticles *)
  timelines : list Timeline;        (* gsap timelines in flight, oldest first *)
  dispatched : list string          (* CustomEvents dispatched on document *)
}.

Definition set_isBoxOpen (v : bool) (e : t) : t :=
  mk v (isInsideBox e) (interactionEnabled e) (controls_enabled e)
     (activeCamera e) (interiorLight_visible e) (boxModel e) (boxAnimations e)
     (openingParticles e) (timelines e) (dispatched e).

Definition set_isInsideBox (v : bool) (e : t) : t :=
  mk (isBoxOpen e) v (interactionEnabled e) (controls_enabled e)
     (activeCamera e) (interiorLight_visible e) (boxModel e) (boxAnimations e)
     (openingParticles e) (timelines e) (dispatched e).

Definition set_interactionEnabled (v : bool) (e : t) : t :=
  mk (isBoxOpen e) (isInsideBox e) v (controls_enabled e)
     (activeCamera e) (interiorLight_visible e) (boxModel e) (boxAnimations e)
     (openingParticles e) (timelines e) (dispatched e).

Definition set_controls_enabled (v : bool) (e : t) : t :=
  mk (isBoxOpen e) (isInsideBox e) (interactionEnabled e) v
     (activeCamera e) (interiorLight_visible e) (boxModel e) (boxAnimations e)
     (openingParticles e) (timelines e) (dispatched e).

Definition set_activeCamera (v : Camera) (e : t) : t :=
  mk (isBoxOpen e) (isInsideBox e) (interactionEnabled e) (controls_enabled e)
     v (interiorLight_visible e) (boxModel e) (boxAnimations e)
     (openingParticles e) (timelines e) (dispatched e).

Definition set_interiorLight_visible (v : bool) (e : t) : t :=
  mk (isBoxOpen e) (isInsideBox e) (interactionEnabled e) (controls_enabled e)
     (activeCamera e) v (boxModel e) (boxAnimations e)
     (openingParticles e) (timelines e) (dispatched e).

Definition set_model (v : bool) (e : t) : t :=
  mk (isBoxOpen e) (isInsideBox e) (interactionEnabled e) (controls_enabled e)
     (activeCamera e) (interiorLight_visible e) v v
     (openingParticles e) (timelines e) (dispatched e).

Definition set_openingParticles (v : nat) (e : t) : t :=
  mk (isBoxOpen e) (isInsideBox e) (interactionEnabled e) (controls_enabled e)
     (activeCamera e) (interiorLight_visible e) (boxModel e) (boxAnimations e)
     v (timelines e) (dispatched e).

Definition set_timelines (v : list Timeline) (e : t) : t :=
  mk (isBoxOpen e) (isInsideBox e) (interactionEnabled e) (controls_enabled e)
     (activeCamera e) (interiorLight_visible e) (boxModel e) (boxAnimations e)
     (openingParticles e) v (dispatched e).

Definition set_dispatched (v : list string) (e : t) : t :=
  mk (isBoxOpen e) (isInsideBox e) (interactionEnabled e) (controls_enabled e)
     (activeCamera e) (interiorLight_visible e) (boxModel e) (boxAnimations e)
     (openingParticles e) (timelines e) v.

(** The constructor: flags as initialised, [activeCamera = externalCamera],
    orbit controls enabled, interior light hidden, model not loaded yet. *)
Definition constructed : t :=
  mk false false true true externalCamera false false false 0 [] [].

(** The success callback of [gltfLoader.load]: binds [boxModel] and runs
    [setupBoxAnimations], which binds [boxAnimations]. *)
Definition modelLoaded (e : t) : t := set_model true e.

(** [document.dispatchEvent(new CustomEvent(name))] *)
Definition dispatchEvent (name : string) (e : t) : t :=
  set_dispatched (dispatched e ++ [name]) e.

(** *** The callbacks handed to gsap *)

(** [setupInsideBoxControls] *)
Definition setupInsideBoxControls (e : t) : t := set_controls_enabled false e.

(** [createOpeningParticles] *)
Definition createOpeningParticles (e : t) : t :=
  set_openingParticles (S (openingParticles e)) e.

Definition onStart (a : Animation) (e : t) : t :=
  match a with
  | openAnim => set_controls_enabled false (set_interactionEnabled false e)
  | enterBoxAnim => set_controls_enabled false (set_interactionEnabled false e)
  | exitBoxAnim => set_interactionEnabled false e
  end.

(** [progress] is the value of [timeline.progress()] at this update. *)
Definition onUpdate (a : Animation) (progress : Q) (e : t) : t :=
  match a with
  | openAnim => e
  | enterBoxAnim =>
      if Qgtb progress (1#2) && negb (Camera_eqb (activeCamera e) internalCamera)
      then set_activeCamera internalCamera e
      else e
  | exitBoxAnim =>
      if Qgtb progress (1#2) && negb (Camera_eqb (activeCamera e) externalCamera)
      then set_controls_enabled true (set_activeCamera externalCamera e)
      else e
  end.

Definition onComplete (a : Animation) (e : t) : t :=
  match a with
  | openAnim =>
      createOpeningParticles
        (set_interactionEnabled true
           (set_interiorLight_visible true (set_isBoxOpen true e)))
  | enterBoxAnim =>
      setupInsideBoxControls
        (set_interactionEnabled true (set_isInsideBox true e))
  | exitBoxAnim =>
      set_interactionEnabled true (set_isInsideBox false e)
  end.

(** *** gsap, as far as the callbacks can observe it

    A timeline does nothing when it is created.  On each later tick of the
    gsap ticker it is rendered at a progress value: [onStart] runs on its
    first render, [onUpdate] on every render, and [onComplete] after the
    update of the render that reaches progress 1, which also retires the
    timeline. *)
Definition render (tl : Timeline) (progress : Q) (e : t) : t * option Timeline :=
  let e1 := if started tl then e else onStart (anim tl) e in
  let e2 := onUpdate (anim tl) progress e1 in
  if Qgeb progress 1
  then (onComplete (anim tl) e2, None)
  else (e2, Some (mkTimeline (anim tl) true)).

(** One tick renders the timelines in flight, oldest first, the i-th at the
    i-th progress sample. *)
Fixpoint renderAll (tls : list Timeline) (samples : list Q) (e : t)
  : t * list Timeline :=
  match tls, samples with
  | tl :: tls', p :: samples' =>
      let (e1, r) := render tl p e in
      let (e2, rest) := renderAll tls' samples' e1 in
      (e2, match r with Some tl' => tl' :: rest | None => rest end)
  | _, _ => (e, tls)
  end.

Definition tick (samples : list Q) (e : t) : t :=
  let (e', tls) := renderAll (timelines e) samples e in
  set_timelines tls e'.

(** A sequence of ticks while a single timeline is in flight. *)
Definition play (samples : list Q) (e : t) : t :=
  fold_left (fun e p => tick [p] e) samples e.

Definition newTimeline (a : Animation) (e : t) : t :=
  set_timelines (timelines e ++ [mkTimeline a false]) e.

(** *** boxAnimations *)

Definition open (e : t) : t :=
  if isBoxOpen e then e else newTimeline openAnim e.

Definition enterBox (e : t) : t :=
  if isInsideBox e then e else newTimeline enterBoxAnim e.

Definition exitBox (e : t) : t :=
  if negb (isInsideBox e) then e else newTimeline exitBoxAnim e.

Definition run (a : Animation) : t -> t :=
  match a with
  | openAnim => open
  | enterBoxAnim => enterBox
  | exitBoxAnim => exitBox
  end.

(** *** Event handlers

    A handler either returns or throws: reading a property of [undefined]
    is a TypeError. *)
Inductive outcome : Type :=
| Returned (e : t)
| TypeError.

(** [this.boxAnimations.<a>()] *)
Definition call (a : Animation) (e : t) : outcome :=
  if boxAnimations e then Returned (run a e) else TypeError.

(** The window keydown listener of [setupEventListeners]. *)
Definition keydown (code : string) (e : t) : outcome :=
  if String.eqb code "Space"%string then
    if negb (isBoxOpen e) then call openAnim e
    else if negb (isInsideBox e) then call enterBoxAnim e
    else call exitBoxAnim e
  else Returned e.

(** The canvas click listener of [setupEventListeners].  [hit] is whether
    the ray cast against [boxModel] returns an intersection; the three.js
    ray caster dereferences the object it is given, so casting against an
    unbound [boxModel] throws. *)
Definition click (hit : bool) (e : t) : outcome :=
  if negb (interactionEnabled e) then Returned e
  else if negb (boxModel e) then TypeError
  else if hit then
    if negb (isBoxOpen e) then call openAnim e
    else if negb (isInsideBox e) then call enterBoxAnim e
    else Returned e
  else if isInsideBox e then call exitBoxAnim e
  else Returned e.

(** *** The states of the specification *)

Inductive ExperienceState : Type := Closed | Open | Inside.

Definition stateOf (e : t) : option ExperienceState :=
  match isBoxOpen e, isInsideBox e with
  | false, false => Some Closed
  | true, false => Some Open
  | true, true => Some Inside
  | false, true => None
  end.

(** The source state each operation is valid from. *)
Definition validFrom (a : Animation) : ExperienceState :=
  match a with
  | openAnim => Closed
  | enterBoxAnim => Open
  | exitBoxAnim => Inside
  end.

(** The operation that leaves each state. *)
Definition transitionFrom (s : ExperienceState) : Animation :=
  match s with
  | Closed => openAnim
  | Open => enterBoxAnim
  | Inside => exitBoxAnim
  end.

Definition ExperienceState_eqb (a b : ExperienceState) : bool :=
  match a, b with
  | Closed, Closed | Open, Open | Inside, Inside => true
  | _, _ => false
  end.

(** The camera an animation hands over to at its midpoint. *)
Definition handover (a : Animation) : option Camera :=
  match a with
  | openAnim => None
  | enterBoxAnim => Some internalCamera
  | exitBoxAnim => Some externalCamera
  end.

(** A state reached by loading the model, opening the box and entering it. *)
Definition loaded : t := modelLoaded constructed.
Definition opened : t := play [1%Q] (open loaded).
Definition inside : t := play [1%Q] (enterBox opened).

(** An [exitBox] timeline is in flight on an open box with the viewer
    inside, and orbit controls are on if the camera was already handed
    back. *)
Definition exiting (e : t) : Prop :=
  (exists st, timelines e = [mkTimeline exitBoxAnim st]) /\
  isBoxOpen e = true /\
  isInsideBox e = true /\
  (activeCamera e = externalCamera -> controls_enabled e = true).

(** The sequence of active cameras seen after each tick of a transition. *)
Fixpoint cameraTrace (samples : list Q) (e : t) : list Camera :=
  match samples with
  | [] => []
  | p :: ps => let e' := tick [p] e in activeCamera e' :: cameraTrace ps e'
  end.

(** The sequence of [controls.enabled] seen after each tick. *)
Fixpoint controlsTrace (samples : list Q) (e : t) : list bool :=
  match samples with
  | [] => []
  | p :: ps => let e' := tick [p] e in controls_enabled e' :: controlsTrace ps e'
  end.

End BoxExperience.

(** ** Arithmetic on doubles

    Where the code adds, subtracts, multiplies or divides, the result is a
    rounded double.  The embedding takes the four operations as a
    parameter and assumes nothing about them except what a theorem states;
    [exact] is the instance without rounding. *)

Record Float64 : Type := mkFloat64 {
  fadd : Q -> Q -> Q;
  fsub : Q -> Q -> Q;
  fmul : Q -> Q -> Q;
  fdiv : Q -> Q -> Q
}.

Definition exact : Float64 := mkFloat64 Qplus Qminus Qmult Qdiv.

(** [Math.max] and [Math.min] *)
Definition Math_max (a b : Q) : Q := if Qle_bool a b then b else a.
Definition Math_min (a b : Q) : Q := if Qle_bool a b then a else b.

(** ** ResponsiveHandler *)

Module ResponsiveHandler.

Record FpsMonitor : Type := mkFpsMonitor {
  frames : nat;
  lastTime : Q;
  avgFps : Q;
  lowFpsCount : nat;
  checkInterval : Q
}.

(** [boxExperience.particles] as [applyQualitySettings] reads it: null, or
    a [THREE.Points] whose geometry has or lacks the attributes [position]
    and [size]. *)
Inductive Particles : Type :=
| NoParticles
| Points (position size : bool).

Record t : Type := mk {
  isMobile : bool;
  isTablet : bool;
  qualityLevel : Level;
  fpsMonitor : FpsMonitor;
  qualityLog : list Level;    (* one entry per "Quality set to: ..." line *)
  particles : Particles       (* boxExperience.particles *)
}.

Definition set_qualityLevel (v : Level) (h : t) : t :=
  mk (isMobile h) (isTablet h) v (fpsMonitor h) (qualityLog h) (particles h).

Definition set_fpsMonitor (v : FpsMonitor) (h : t) : t :=
  mk (isMobile h) (isTablet h) (qualityLevel h) v (qualityLog h) (particles h).

Definition set_particles (v : Particles) (h : t) : t :=
  mk (isMobile h) (isTablet h) (qualityLevel h) (fpsMonitor h) (qualityLog h) v.

Definition set_lowFpsCount (v : nat) (h : t) : t :=
  let m := fpsMonitor h in
  set_fpsMonitor
    (mkFpsMonitor (frames m) (lastTime m) (avgFps m) v (checkInterval m)) h.

Definition set_avgFps (v : Q) (h : t) : t :=
  let m := fpsMonitor h in
  set_fpsMonitor
    (mkFpsMonitor (frames m) (lastTime m) v (lowFpsCount m) (checkInterval m)) h.

(** A call returns, or throws a [TypeError] that nothing in the handler
    catches; either way it leaves the handler in some state. *)
Inductive outcome : Type :=
| Normal (h : t)
| Thrown (h : t).

Definition state (o : outcome) : t :=
  match o with
  | Normal h => h
  | Thrown h => h
  end.

Definition returned (o : outcome) : bool :=
  match o with
  | Normal _ => true
  | Thrown _ => false
  end.

(** The statements after a call: skipped when the call throws. *)
Definition andThen (o : outcome) (k : t -> outcome) : outcome :=
  match o with
  | Normal h => k h
  | Thrown h => Thrown h
  end.

(** [applyQualitySettings], with the composer and the renderer present
    (the constructor of [BoxExperience] creates both).  The renderer and
    the passes are configured from [qualityLevel]; module [RenderSettings]
    has that part.  At ['medium'], particles with a [position] attribute
    get every second entry of [attributes.size.array] zeroed and
    [attributes.size.needsUpdate] set, which throws when there is no
    [size] attribute.  The level is logged last. *)
Definition applyQualitySettings (h : t) : outcome :=
  match qualityLevel h, particles h with
  | medium, Points true false => Thrown h
  | _, _ =>
      Normal (mk (isMobile h) (isTablet h) (qualityLevel h) (fpsMonitor h)
                 (qualityLog h ++ [qualityLevel h]) (particles h))
  end.

Definition adjustQualityBasedOnPerformance (h : t) : outcome :=
  let fps := avgFps (fpsMonitor h) in
  if Qltb fps 30 then
    let h1 := set_lowFpsCount (S (lowFpsCount (fpsMonitor h))) h in
    if Nat.leb 3 (lowFpsCount (fpsMonitor h1)) then
      andThen
        (if Level_eqb (qualityLevel h1) high
         then applyQualitySettings (set_qualityLevel medium h1)
         else if Level_eqb (qualityLevel h1) medium
         then applyQualitySettings (set_qualityLevel low h1)
         else Normal h1)
        (fun h2 => Normal (set_lowFpsCount 0 h2))
    else Normal h1
  else if Qgtb fps 55 && negb (Level_eqb (qualityLevel h) high) then
    let h1 := set_lowFpsCount 0 h in
    if Level_eqb (qualityLevel h1) low && negb (isMobile h1)
    then applyQualitySettings (set_qualityLevel medium h1)
    else if Level_eqb (qualityLevel h1) medium
            && negb (isMobile h1) && negb (isTablet h1)
    then applyQualitySettings (set_qualityLevel high h1)
    else Normal h1
  else Normal (set_lowFpsCount 0 h).

(** One frame of [monitorPerformance]; [now] is what [performance.now()]
    returns.  The arithmetic is that of doubles, [F].  When the call
    returns it has asked for the next frame; when it throws it has not,
    and no further frame follows. *)
Definition monitorPerformance (F : Float64) (now : Q) (h : t) : outcome :=
  let m := fpsMonitor h in
  let frames' := S (frames m) in
  let elapsed := fsub F now (lastTime m) in
  if Qgeb elapsed (checkInterval m) then
    let currentFps :=
      fdiv F (fmul F (inject_Z (Z.of_nat frames')) 1000) elapsed in
    let avg := fadd F (fmul F (7#10) (avgFps m)) (fmul F (3#10) currentFps) in
    adjustQualityBasedOnPerformance
      (set_fpsMonitor
         (mkFpsMonitor 0 now avg (lowFpsCount m) (checkInterval m)) h)
  else
    Normal
      (set_fpsMonitor
         (mkFpsMonitor frames' (lastTime m) (avgFps m) (lowFpsCount m)
                       (checkInterval m)) h).

(** [setupAdaptiveQuality]; [now] and [now'] are the two readings of
    [performance.now()], the one stored in [lastTime] and the one of the
    first call of [monitorPerformance]. *)
Definition setupAdaptiveQuality (F : Float64) (mobile tablet : bool)
           (p : Particles) (now now' : Q) : outcome :=
  andThen
    (applyQualitySettings
       (mk mobile tablet
           (if mobile then low else if tablet then medium else high)
           (mkFpsMonitor 0 now 60 0 2000) [] p))
    (monitorPerformance F now').

(** One evaluation of the controller at a given smoothed frame rate. *)
Definition evaluate (h : t) (fps : Q) : outcome :=
  adjustQualityBasedOnPerformance (set_avgFps fps h).

(** One window of a sequence: what [boxExperience.particles] is when the
    evaluation runs, and the smoothed frame rate. *)
Definition window (h : t) (w : Particles * Q) : outcome :=
  evaluate (set_particles (fst w) h) (snd w).

(** The handler after a sequence of windows.  An evaluation that throws is
    the last one: [monitorPerformance] has not asked for another frame. *)
Fixpoint evaluations (ws : list (Particles * Q)) (h : t) : outcome :=
  match ws with
  | [] => Normal h
  | w :: rest => andThen (window h w) (evaluations rest)
  end.


(** A handler at a given level, with a fresh monitor, an empty log and no
    particles. *)
Definition atLevel (mobile tablet : bool) (l : Level) : t :=
  mk mobile tablet l (mkFpsMonitor 0 0 60 0 2000) [] NoParticles.

(** [handleTap], the touch counterpart of the click listener; [hit] is the
    result of the ray cast against [boxModel]. *)
Definition handleTap (hit : bool) (e : BoxExperience.t) : BoxExperience.outcome :=
  let r :=
    if BoxExperience.boxModel e then
      if hit then
        if negb (BoxExperience.isBoxOpen e)
        then BoxExperience.call BoxExperience.openAnim e
        else if negb (BoxExperience.isInsideBox e)
        then BoxExperience.call BoxExperience.enterBoxAnim e
        else BoxExperience.Returned e
      else if BoxExperience.isInsideBox e
      then BoxExperience.call BoxExperience.exitBoxAnim e
      else BoxExperience.Returned e
    else BoxExperience.Returned e in
  match r with
  | BoxExperience.Returned e' =>
      BoxExperience.Returned (BoxExperience.dispatchEvent "experienceTap"%string e')
  | BoxExperience.TypeError => BoxExperience.TypeError
  end.

End ResponsiveHandler.

(** ** PerformanceOptimizer *)

Module PerformanceOptimizer.

Record t : Type := mk {
  currentOptimizationLevel : Level;
  autoOptimizationEnabled : bool;
  fpsHistory : list Q;
  renderQuality : option Level;      (* last argument of setRenderQuality;
                                        setMipmapQuality is called with it *)
  isMobile : bool;
  hardwareConcurrency : option nat   (* navigator.hardwareConcurrency *)
}.

Definition set_currentOptimizationLevel (v : Level) (p : t) : t :=
  mk v (autoOptimizationEnabled p) (fpsHistory p) (renderQuality p)
     (isMobile p) (hardwareConcurrency p).

Definition setRenderQuality (v : Level) (p : t) : t :=
  mk (currentOptimizationLevel p) (autoOptimizationEnabled p) (fpsHistory p)
     (Some v) (isMobile p) (hardwareConcurrency p).

(** [hc && hc <= n] and [hc && hc >= n] for a possibly undefined number. *)
Definition atMost (hc : option nat) (n : nat) : bool :=
  match hc with Some (S k) => Nat.leb (S k) n | _ => false end.
Definition atLeast (hc : option nat) (n : nat) : bool :=
  match hc with Some (S k) => Nat.leb n (S k) | _ => false end.

Definition applyOptimizationLevel (level : Level) (p : t) : t :=
  let p1 := set_currentOptimizationLevel level p in
  let level' :=
    if Level_eqb level auto then
      let isLowEnd := isMobile p1 || atMost (hardwareConcurrency p1) 4 in
      let isHighEnd := negb (isMobile p1) && atLeast (hardwareConcurrency p1) 8 in
      if isLowEnd then low else if isHighEnd then high else medium
    else level in
  match level' with
  | auto => p1
  | l => setRenderQuality l p1
  end.

Definition average (history : list Q) : Q :=
  (fold_left Qplus history 0 / inject_Z (Z.of_nat (Nat.max 1 (List.length history))))%Q.

Definition autoOptimize (p : t) : t :=
  if negb (Level_eqb (currentOptimizationLevel p) auto) then p
  else
    let avgFps := average (fpsHistory p) in
    let cur := currentOptimizationLevel p in
    let newLevel :=
      if Qltb avgFps 30 then
        if Level_eqb cur ultra then Some high
        else if Level_eqb cur high then Some medium
        else if Level_eqb cur medium then Some low
        else None
      else if Qgtb avgFps 55 then
        if Level_eqb cur low then Some medium
        else if Level_eqb cur medium then Some high
        else if Level_eqb cur high then Some ultra
        else None
      else None in
    match newLevel with
    | Some l => if negb (Level_eqb l cur) then applyOptimizationLevel l p else p
    | None => p
    end.

(** *** Culling *)

(** A [BufferGeometry], by identity. *)
Definition Geometry : Type := nat.

Record Object3D : Type := mkObject3D {
  isMesh : bool;
  noCulling : bool;                     (* userData.noCulling *)
  parent : bool;                        (* object.parent is not null *)
  visible : bool;
  originalVisible : bool;               (* userData.originalVisible *)
  geometry : Geometry;
  originalGeometry : option Geometry;   (* userData.originalGeometry *)
  mediumGeometry : option Geometry;     (* userData.mediumGeometry *)
  lowGeometry : option Geometry         (* userData.lowGeometry *)
}.

Definition set_visible (v : bool) (o : Object3D) : Object3D :=
  mkObject3D (isMesh o) (noCulling o) (parent o) v (originalVisible o)
             (geometry o) (originalGeometry o) (mediumGeometry o) (lowGeometry o).

Definition set_originalVisible (v : bool) (o : Object3D) : Object3D :=
  mkObject3D (isMesh o) (noCulling o) (parent o) (visible o) v
             (geometry o) (originalGeometry o) (mediumGeometry o) (lowGeometry o).

Definition set_geometry (g : Geometry) (o : Object3D) : Object3D :=
  mkObject3D (isMesh o) (noCulling o) (parent o) (visible o) (originalVisible o)
             g (originalGeometry o) (mediumGeometry o) (lowGeometry o).

(** [setupCulling]: the tracked objects of the scene, each with its
    visibility at that moment stored in [userData.originalVisible]. *)
Definition setupCulling (scene : list Object3D) : list Object3D :=
  map (fun o => set_originalVisible (visible o) o)
      (filter (fun o => isMesh o && negb (noCulling o)) scene).

Definition isSome {A : Type} (x : option A) : bool :=
  match x with Some _ => true | None => false end.

(** [object.geometry = object.userData.<variant>], under a test that the
    variant is present. *)
Definition assign (g : option Geometry) (o : Object3D) : Object3D :=
  match g with Some g' => set_geometry g' o | None => o end.

(** The fraction handed to [setParticleCount] at a camera distance. *)
Definition particleFraction (distance : Q) : Q :=
  if Qgtb distance 10 then 1#4 else if Qgtb distance 5 then 1#2 else 1.

(** Two sample meshes: one hidden when [setupCulling] runs, one visible
    with its three variants (original 0, medium 1, low 2). *)
Definition hiddenMesh : Object3D :=
  mkObject3D true false true false false 0%nat (Some 0%nat) None None.
Definition lodMesh : Object3D :=
  mkObject3D true false true true true 0%nat (Some 0%nat) (Some 1%nat) (Some 2%nat).

Section Culling.

(** What one frame takes from three.js: [View] is the active camera as
    it stands on the frame, [intersectsSphere v o] the frustum test of the
    world-space bounding sphere of [o], [distanceTo v o] the distance from
    the camera position to [o.position]. *)
Variable View : Type.
Variable intersectsSphere : View -> Object3D -> bool.
Variable distanceTo : View -> Object3D -> Q.

(** The body of the [forEach] of [updateCulling]. *)
Definition cull (v : View) (o : Object3D) : Object3D :=
  if negb (parent o) then o
  else
    let inFrustum := intersectsSphere v o in
    let distance := distanceTo v o in
    let o1 := set_visible (inFrustum && originalVisible o) o in
    if visible o1 && isSome (originalGeometry o1) then
      if Qgtb distance 10 && isSome (lowGeometry o1)
      then assign (lowGeometry o1) o1
      else if Qgtb distance 5 && isSome (mediumGeometry o1)
      then assign (mediumGeometry o1) o1
      else assign (originalGeometry o1) o1
    else o1.

Definition updateCulling (v : View) (objects : list Object3D) : list Object3D :=
  map (cull v) objects.

(** Successive frames, one view per frame. *)
Definition frames (views : list View) (objects : list Object3D) : list Object3D :=
  fold_left (fun objs v => updateCulling v objs) views objects.

Definition cullFrames (views : list View) (o : Object3D) : Object3D :=
  fold_left (fun o v => cull v o) views o.

End Culling.

End PerformanceOptimizer.

(** ** The experience under its inputs

    Everything that reaches the state of [BoxExperience]: the load callback,
    the gsap ticker, the listeners of [BoxExperience] itself, [handleTap],
    the Home buttons and the Escape key of [ResponsiveHandler], and the
    action button and the test panel of [CrossBrowserTester]. *)

Module Inputs.
Import BoxExperience.

Inductive Input : Type :=
| ModelLoaded                   (* success callback of gltfLoader.load *)
| Ticker (samples : list Q)     (* one tick of the gsap ticker *)
| Keydown (code : string)
| Click (hit : bool)
| Tap (hit : bool)              (* handleTap *)
| LeaveButton                   (* Home button, Escape key *)
| ActionButton                  (* touch fallback of CrossBrowserTester *)
| TestButton (a : Animation).   (* test panel of CrossBrowserTester *)

(** [if (isInsideBox) boxAnimations.exitBox()] *)
Definition exitIfInside (e : t) : outcome :=
  if isInsideBox e then call exitBoxAnim e else Returned e.

(** The touchstart listener of the action button. *)
Definition actionButton (e : t) : outcome :=
  if negb (isBoxOpen e) then call openAnim e
  else if negb (isInsideBox e) then call enterBoxAnim e
  else call exitBoxAnim e.

(** [if (boxAnimations && boxAnimations.<a>) boxAnimations.<a>()] *)
Definition testButton (a : Animation) (e : t) : outcome :=
  if boxAnimations e then call a e else Returned e.

Definition deliver (i : Input) (e : t) : outcome :=
  match i with
  | ModelLoaded => Returned (modelLoaded e)
  | Ticker samples => Returned (tick samples e)
  | Keydown code => keydown code e
  | Click hit => click hit e
  | Tap hit => ResponsiveHandler.handleTap hit e
  | LeaveButton => exitIfInside e
  | ActionButton => actionButton e
  | TestButton a => testButton a e
  end.

(** A listener that throws has changed nothing before it throws. *)
Definition after (i : Input) (e : t) : t :=
  match deliver i e with
  | Returned e' => e'
  | TypeError => e
  end.

Definition run (inputs : list Input) (e : t) : t :=
  fold_left (fun e i => after i e) inputs e.

Definition isTap (i : Input) : bool :=
  match i with Tap _ => true | _ => false end.

Definition isModelLoaded (i : Input) : bool :=
  match i with ModelLoaded => true | _ => false end.

(** A timeline of animation [a] is the only one in flight, and nothing
    but the fields its start and update callbacks write has moved away
    from [e0]. *)
Definition inflight (a : Animation) (e0 e : t) : Prop :=
  (exists st, timelines e = [mkTimeline a st] /\
              (st = true -> a = openAnim -> controls_enabled e = false)) /\
  isBoxOpen e = isBoxOpen e0 /\
  isInsideBox e = isInsideBox e0 /\
  interiorLight_visible e = interiorLight_visible e0 /\
  boxModel e = boxModel e0 /\
  boxAnimations e = boxAnimations e0 /\
  openingParticles e = openingParticles e0 /\
  dispatched e = dispatched e0 /\
  (handover a = None -> activeCamera e = activeCamera e0).

(** No timeline of the list has started. *)
Definition unstarted (tls : list Timeline) : Prop :=
  Forall (fun tl => started tl = false) tls.

(** A run of progress samples that ends with the sample completing the
    timeline. *)
Definition completes (samples : list Q) : Prop :=
  exists running c,
    samples = running ++ [c] /\
    Forall (fun q => (q < 1)%Q) running /\ (1 <= c)%Q.

End Inputs.

(** ** The quality ladder *)

Module Ladder.

(** Position of a level on the ladder of [ResponsiveHandler]; the two
    names it does not use come after. *)
Definition rank (l : Level) : nat :=
  match l with
  | low => 0
  | medium => 1
  | high => 2
  | ultra => 3
  | auto => 4
  end.

Definition onLadder (l : Level) : bool :=
  match l with
  | low | medium | high => true
  | _ => false
  end.

(** The first [n] windows exist and are all below 30 FPS. *)
Fixpoint lowPrefix (n : nat) (fpss : list Q) : bool :=
  match n with
  | O => true
  | S n' =>
      match fpss with
      | [] => false
      | fps :: rest => Qltb fps 30 && lowPrefix n' rest
      end
  end.

(** Some three consecutive windows are all below 30 FPS. *)
Fixpoint threeLows (fpss : list Q) : bool :=
  match fpss with
  | [] => false
  | _ :: rest => lowPrefix 3 fpss || threeLows rest
  end.

(** Starting with [c] low windows counted, the count reaches 3 somewhere
    along the windows. *)
Fixpoint reaches (c : nat) (fpss : list Q) : bool :=
  match fpss with
  | [] => false
  | fps :: rest =>
      if Qltb fps 30 then Nat.leb 3 (S c) || reaches (S c) rest
      else reaches 0 rest
  end.

(** Frames of [monitorPerformance]: what [boxExperience.particles] is at
    each frame and what [performance.now()] returns.  A frame that throws
    is the last one. *)
Fixpoint monitorFrames (F : Float64) (fs : list (ResponsiveHandler.Particles * Q))
         (h : ResponsiveHandler.t) : ResponsiveHandler.outcome :=
  match fs with
  | [] => ResponsiveHandler.Normal h
  | f :: rest =>
      ResponsiveHandler.andThen
        (ResponsiveHandler.monitorPerformance F (snd f)
           (ResponsiveHandler.set_particles (fst f) h))
        (monitorFrames F rest)
  end.

End Ladder.

(** ** PerformanceOptimizer.monitorPerformance *)

Module Monitoring.

Record t : Type := mk {
  optimizer : PerformanceOptimizer.t;
  fps : Q;                          (* performanceMonitor.fps *)
  frameTime : Q;                    (* performanceMonitor.frameTime *)
  memory : Q;                       (* performanceMonitor.memory *)
  memoryHistory : list Q;
  lastFrameTime : option Q;         (* this._lastFrameTime *)
  lastOptimizationTime : Q;
  optimizationInterval : Q
}.

(** [history.push(x); if (history.length > 60) history.shift()] *)
Definition record (x : Q) (history : list Q) : list Q :=
  let pushed := history ++ [x] in
  if Nat.ltb 60 (List.length pushed) then tl pushed else pushed.

Definition recordAll (xs : list Q) (history : list Q) : list Q :=
  fold_left (fun h x => record x h) xs history.

(** The last [n] elements of a list. *)
Definition lastn {A : Type} (n : nat) (l : list A) : list A :=
  skipn (List.length l - n) l.

Definition set_fpsHistory (v : list Q) (p : PerformanceOptimizer.t)
  : PerformanceOptimizer.t :=
  PerformanceOptimizer.mk
    (PerformanceOptimizer.currentOptimizationLevel p)
    (PerformanceOptimizer.autoOptimizationEnabled p) v
    (PerformanceOptimizer.renderQuality p)
    (PerformanceOptimizer.isMobile p)
    (PerformanceOptimizer.hardwareConcurrency p).

(** The state the constructor leaves: smoothed rate 60, frame time 16.67,
    empty histories, a check every 5 seconds. *)
Definition constructed (p : PerformanceOptimizer.t) : t :=
  mk (set_fpsHistory [] p) 60 (1667#100) 0 [] None 0 5000.

(** [x || now] for a number that may be undefined. *)
Definition orElse (x : option Q) (now : Q) : Q :=
  match x with
  | Some v => if Qeq_bool v 0 then now else v
  | None => now
  end.

(** One call of [monitorPerformance] at time [now]; [heap] is
    [performance.memory.usedJSHeapSize] where the browser has it. *)
Definition monitorPerformance (F : Float64) (now : Q) (heap : option Q) (m : t) : t :=
  let (mem, memHist) :=
    match heap with
    | Some used =>
        let mb := fdiv F used 1048576 in (mb, record mb (memoryHistory m))
    | None => (memory m, memoryHistory m)
    end in
  let elapsed := fsub F now (orElse (lastFrameTime m) now) in
  let '(fps', frameTime', opt) :=
    if Qgtb elapsed 0 then
      let currentFps := fdiv F 1000 elapsed in
      let smoothed := fadd F (fmul F (fps m) (9#10)) (fmul F currentFps (1#10)) in
      (smoothed, elapsed,
       set_fpsHistory
         (record smoothed (PerformanceOptimizer.fpsHistory (optimizer m)))
         (optimizer m))
    else (fps m, frameTime m, optimizer m) in
  if PerformanceOptimizer.autoOptimizationEnabled opt
     && Qgtb (fsub F now (lastOptimizationTime m)) (optimizationInterval m)
  then mk (PerformanceOptimizer.autoOptimize opt) fps' frameTime' mem memHist
          (Some now) now (optimizationInterval m)
  else mk opt fps' frameTime' mem memHist
          (Some now) (lastOptimizationTime m) (optimizationInterval m).

(** Successive calls, each with its time and heap reading. *)
Definition monitorAll (F : Float64) (calls : list (Q * option Q)) (m : t) : t :=
  fold_left (fun m c => monitorPerformance F (fst c) (snd c) m) calls m.

End Monitoring.

(** ** PerformanceOptimizer.simplifyGeometry *)

Module Simplify.

(** A [Float32Array]; [None] is NaN.  Reading past the end gives
    [undefined], which a [Float32Array] stores as NaN; writing past the end
    does nothing. *)
Definition Float32Array : Type := list (option Q).

Definition read (a : Float32Array) (i : nat) : option Q := nth i a None.

Fixpoint write (a : Float32Array) (i : nat) (v : option Q) : Float32Array :=
  match a, i with
  | [], _ => []
  | _ :: rest, O => v :: rest
  | x :: rest, S i' => x :: write rest i' v
  end.

(** [new Float32Array(n)] *)
Definition zeros (n : nat) : Float32Array := repeat (Some 0%Q) n.

Record BufferGeometry : Type := mkBufferGeometry {
  position : Float32Array;           (* item size 3 *)
  normal : option Float32Array;      (* item size 3 *)
  uv : option Float32Array           (* item size 2 *)
}.

(** [geometry.attributes.position.count] *)
Definition count (g : BufferGeometry) : nat := List.length (position g) / 3.

Definition orEmpty (a : option Float32Array) : Float32Array :=
  match a with Some x => x | None => [] end.

(** The body of the loop up to [newIndex++]. *)
Definition copyVertex (g : BufferGeometry) (i newIndex : nat)
           (d : BufferGeometry) : BufferGeometry :=
  let originalPositions := position g in
  let originalNormals := orEmpty (normal g) in
  let originalUvs := orEmpty (uv g) in
  mkBufferGeometry
    (write
       (write
          (write (position d) (newIndex * 3) (read originalPositions (i * 3)))
          (newIndex * 3 + 1) (read originalPositions (i * 3 + 1)))
       (newIndex * 3 + 2) (read originalPositions (i * 3 + 2)))
    (match normal d with
     | Some newNormals =>
         Some (write
                 (write
                    (write newNormals (newIndex * 3) (read originalNormals (i * 3)))
                    (newIndex * 3 + 1) (read originalNormals (i * 3 + 1)))
                 (newIndex * 3 + 2) (read originalNormals (i * 3 + 2)))
     | None => None
     end)
    (match uv d with
     | Some newUvs =>
         Some (write
                 (write newUvs (newIndex * 2) (read originalUvs (i * 2)))
                 (newIndex * 2 + 1) (read originalUvs (i * 2 + 1)))
     | None => None
     end).

(** [for (let i = 0; i < originalCount; i += skipFactor) { ...; newIndex++;
    if (newIndex >= targetCount) break; }], entered at [i] and [newIndex].
    Every turn increments [newIndex], so [targetCount - newIndex] turns are
    all the loop can take. *)
Fixpoint sample (g : BufferGeometry) (originalCount targetCount skipFactor : nat)
         (fuel i newIndex : nat) (d : BufferGeometry) : BufferGeometry :=
  match fuel with
  | O => d
  | S fuel' =>
      if Nat.ltb i originalCount then
        let d' := copyVertex g i newIndex d in
        if Nat.leb targetCount (S newIndex) then d'
        else sample g originalCount targetCount skipFactor
                    fuel' (i + skipFactor) (S newIndex) d'
      else d
  end.

(** [Math.floor] into the naturals a count can be. *)
Definition floor (x : Q) : nat := Z.to_nat (Qfloor x).

Definition ofNat (n : nat) : Q := inject_Z (Z.of_nat n).

(** [Math.max(24, Math.floor(originalCount * factor))] *)
Definition targetCountOf (F : Float64) (originalCount : nat) (factor : Q) : nat :=
  Nat.max 24 (floor (fmul F (ofNat originalCount) factor)).

(** [Math.floor(originalCount / targetCount)] *)
Definition skipFactorOf (F : Float64) (originalCount targetCount : nat) : nat :=
  floor (fdiv F (ofNat originalCount) (ofNat targetCount)).

Definition simplifyGeometry (F : Float64) (g : BufferGeometry) (factor : Q)
  : BufferGeometry :=
  let originalCount := count g in
  let targetCount := targetCountOf F originalCount factor in
  let skipFactor := skipFactorOf F originalCount targetCount in
  let fresh :=
    mkBufferGeometry
      (zeros (targetCount * 3))
      (match normal g with Some _ => Some (zeros (targetCount * 3)) | None => None end)
      (match uv g with Some _ => Some (zeros (targetCount * 2)) | None => None end) in
  sample g originalCount targetCount skipFactor targetCount 0 0 fresh.

End Simplify.

(** ** PerformanceOptimizer: particle count and object pools *)

Module Particles.
Import Simplify.

Record t : Type := mk {
  positionCount : nat;                   (* attributes.position.count *)
  size : option Float32Array;            (* attributes.size.array *)
  originalSizes : option Float32Array    (* userData.originalSizes *)
}.

(** [setupEnvironmentLOD] stores a copy of the sizes when the attribute
    exists. *)
Definition storeOriginalSizes (p : t) : t :=
  mk (positionCount p) (size p)
     (match size p with Some s => Some s | None => originalSizes p end).

(** The size the loop gives particle [i]. *)
Definition sizeAt (F : Float64) (percentage : Q) (p : t) (i : nat) : option Q :=
  if Qltb (ofNat i) (fmul F (ofNat (positionCount p)) percentage)
  then match originalSizes p with
       | Some o => read o i
       | None => Some (1#100)
       end
  else Some 0.

(** [userData.setParticleCount(percentage)]; without a size attribute the
    function throws, which is [None] here. *)
Definition setParticleCount (F : Float64) (percentage : Q) (p : t) : option t :=
  match size p with
  | None => None
  | Some sizes =>
      Some (mk (positionCount p)
               (Some (fold_left (fun s i => write s i (sizeAt F percentage p i))
                                (seq 0 (positionCount p)) sizes))
               (originalSizes p))
  end.

End Particles.

Module Pools.

(** What a plain object inherits from [Object.prototype]: functions,
    each with its [length], and under [__proto__] the prototype object
    itself, which has no [length]. *)
Inductive Member : Type :=
| Method (arity : nat)
| PrototypeObject.

(** A call returns a value or throws. *)
Inductive outcome (R : Type) : Type :=
| Returned (r : R)
| TypeError.

Arguments Returned {R} r.
Arguments TypeError {R}.

Definition prototype (type : string) : option Member :=
  if String.eqb type "constructor" then Some (Method 1)
  else if String.eqb type "__defineGetter__" then Some (Method 2)
  else if String.eqb type "__defineSetter__" then Some (Method 2)
  else if String.eqb type "hasOwnProperty" then Some (Method 1)
  else if String.eqb type "__lookupGetter__" then Some (Method 1)
  else if String.eqb type "__lookupSetter__" then Some (Method 1)
  else if String.eqb type "isPrototypeOf" then Some (Method 1)
  else if String.eqb type "propertyIsEnumerable" then Some (Method 1)
  else if String.eqb type "toString" then Some (Method 0)
  else if String.eqb type "valueOf" then Some (Method 0)
  else if String.eqb type "toLocaleString" then Some (Method 0)
  else if String.eqb type "__proto__" then Some PrototypeObject
  else None.

Section Pools.

(** The pooled objects; [reset] is what [object.reset()] does to an object
    that has the method, and the identity on one that has not. *)
Variable A : Type.
Variable reset : A -> A.

(** The own properties of [this.objectPools = {}]: a pool per type name,
    absent until first used. *)
Definition Pools : Type := string -> option (list A).

(** [this.objectPools[type]]: the own property, else the inherited
    member, else undefined. *)
Inductive Value : Type :=
| Array (pool : list A)
| Inherited (m : Member)
| Undefined.

Definition get (pools : Pools) (type : string) : Value :=
  match pools type with
  | Some pool => Array pool
  | None =>
      match prototype type with
      | Some m => Inherited m
      | None => Undefined
      end
  end.

Definition setPool (pools : Pools) (type : string) (pool : list A) : Pools :=
  fun type' => if String.eqb type' type then Some pool else pools type'.

(** [if (!this.objectPools[type]) this.objectPools[type] = []]: arrays,
    functions and objects are all truthy. *)
Definition ensure (pools : Pools) (type : string) : Pools :=
  match get pools type with
  | Undefined => setPool pools type []
  | _ => pools
  end.

Definition contents (pools : Pools) (type : string) : list A :=
  match pools type with Some pool => pool | None => [] end.

(** [getFromPool(type, createFunc)]; [created] is what [createFunc()]
    returns.  [Array.pop] takes the last element; an inherited function
    has a [length] but no [pop]. *)
Definition getFromPool (type : string) (created : A) (pools : Pools)
  : outcome (A * Pools) :=
  let pools1 := ensure pools type in
  match get pools1 type with
  | Array [] => Returned (created, pools1)
  | Array (x :: rest) =>
      Returned (last (x :: rest) x, setPool pools1 type (removelast (x :: rest)))
  | Inherited (Method arity) =>
      if Nat.ltb 0 arity then TypeError else Returned (created, pools1)
  | Inherited PrototypeObject => Returned (created, pools1)
  | Undefined => TypeError
  end.

(** [returnToPool(type, object)]; the object is reset before the push, so
    also when the push throws: an inherited member has no [push]. *)
Definition returnToPool (type : string) (object : A) (pools : Pools)
  : outcome Pools :=
  let pools1 := ensure pools type in
  match get pools1 type with
  | Array pool => Returned (setPool pools1 type (pool ++ [reset object]))
  | _ => TypeError
  end.

End Pools.

End Pools.

(** ** ResponsiveHandler: device detection

    The user agent is a string of one-byte characters; the two regular
    expressions are case-insensitive searches. *)

Module Device.

(** A character with an upper-case letter folded to lower case. *)
Definition lower (c : ascii) : ascii :=
  let n := nat_of_ascii c in
  if Nat.leb 65 n && Nat.leb n 90 then ascii_of_nat (n + 32) else c.

Fixpoint lowercase (s : string) : string :=
  match s with
  | EmptyString => EmptyString
  | String c rest => String (lower c) (lowercase rest)
  end.

(** [p] occurs somewhere in [s]. *)
Fixpoint contains (p s : string) : bool :=
  String.prefix p s ||
  match s with
  | EmptyString => false
  | String _ rest => contains p rest
  end.

Fixpoint drop (n : nat) (s : string) : string :=
  match n, s with
  | O, _ => s
  | S n', String _ rest => drop n' rest
  | S _, EmptyString => EmptyString
  end.

(** What [.*] can run over: the characters before the first line
    terminator. *)
Fixpoint line (s : string) : string :=
  match s with
  | EmptyString => EmptyString
  | String c rest =>
      if Nat.eqb (nat_of_ascii c) 10 || Nat.eqb (nat_of_ascii c) 13
      then EmptyString
      else String c (line rest)
  end.

(** [/Android|webOS|iPhone|iPad|iPod|BlackBerry|IEMobile|Opera Mini/i.test(ua)] *)
Definition mobileUA (ua : string) : bool :=
  existsb (fun p => contains p (lowercase ua))
          ["android"; "webos"; "iphone"; "ipad"; "ipod"; "blackberry";
           "iemobile"; "opera mini"]%string.

(** [Android(?!.*Mobile)] matches at some position, on a lower-cased
    string. *)
Fixpoint androidNotMobile (s : string) : bool :=
  (String.prefix "android" s && negb (contains "mobile" (line (drop 7 s)))) ||
  match s with
  | EmptyString => false
  | String _ rest => androidNotMobile rest
  end.

(** [/iPad|Android(?!.*Mobile)/i.test(ua)] *)
Definition tabletUA (ua : string) : bool :=
  contains "ipad" (lowercase ua) || androidNotMobile (lowercase ua).

Definition detectMobileDevice (ua : string) (innerWidth : nat) : bool :=
  mobileUA ua && Nat.ltb innerWidth 768.

Definition detectTabletDevice (ua : string) (innerWidth : nat) : bool :=
  tabletUA ua || (Nat.leb 768 innerWidth && Nat.ltb innerWidth 1024).

Inductive DeviceType : Type := mobile | tablet | desktop.

Definition getDeviceType (ua : string) (innerWidth : nat) : DeviceType :=
  if detectMobileDevice ua innerWidth then mobile
  else if detectTabletDevice ua innerWidth then tablet
  else desktop.

End Device.

(** ** ResponsiveHandler: touch handling *)

Module Touch.

Record t : Type := mk {
  touchStartX : Q;
  touchStartY : Q;
  touchMoveX : Q;
  touchMoveY : Q;
  isTouching : bool
}.

(** [setupTouchControls] *)
Definition initial : t := mk 0 0 0 0 false.

(** What a listener does besides updating the fields. *)
Inductive Effect : Type :=
| HandleTap (x y : Q)
| HandleInsideBoxTouchMove (deltaX deltaY : Q)
| HandleExternalTouchMove (deltaX deltaY : Q)
| Dispatch (name : string).

(** [event.touches] is the list of the client coordinates of the touches. *)
Definition onTouchStart (touches : list (Q * Q)) (s : t) : t * list Effect :=
  match touches with
  | [(clientX, clientY)] =>
      (mk clientX clientY clientX clientY true,
       [Dispatch "experienceTouchStart"%string])
  | _ => (s, [])
  end.

(** [inside] is [boxExperience.isInsideBox], [orbit] whether
    [boxExperience.controls] exists and is enabled. *)
Definition onTouchMove (F : Float64) (inside orbit : bool)
           (touches : list (Q * Q)) (s : t) : t * list Effect :=
  match touches with
  | [(clientX, clientY)] =>
      if isTouching s then
        let deltaX := fsub F clientX (touchMoveX s) in
        let deltaY := fsub F clientY (touchMoveY s) in
        (mk (touchStartX s) (touchStartY s) clientX clientY (isTouching s),
         (if inside then [HandleInsideBoxTouchMove deltaX deltaY]
          else if orbit then [HandleExternalTouchMove deltaX deltaY]
          else [])
         ++ [Dispatch "experienceTouchMove"%string])
      else (s, [])
  | _ => (s, [])
  end.

Definition onTouchEnd (F : Float64) (s : t) : t * list Effect :=
  let totalMoveX := Qabs (fsub F (touchMoveX s) (touchStartX s)) in
  let totalMoveY := Qabs (fsub F (touchMoveY s) (touchStartY s)) in
  (mk (touchStartX s) (touchStartY s) (touchMoveX s) (touchMoveY s) false,
   (if Qltb totalMoveX 10 && Qltb totalMoveY 10
    then [HandleTap (touchMoveX s) (touchMoveY s)]
    else [])
   ++ [Dispatch "experienceTouchEnd"%string]).

(** A one-finger gesture: down at [p], through the points [moves], up. *)
Definition moved (F : Float64) (inside orbit : bool) (moves : list (Q * Q)) (s : t) : t :=
  fold_left (fun s q => fst (onTouchMove F inside orbit [q] s)) moves s.

Definition gesture (F : Float64) (inside orbit : bool)
           (p : Q * Q) (moves : list (Q * Q)) (s : t) : t * list Effect :=
  onTouchEnd F (moved F inside orbit moves (fst (onTouchStart [p] s))).

Definition isHandleTap (e : Effect) : bool :=
  match e with HandleTap _ _ => true | _ => false end.

End Touch.

(** ** Look controls inside the box *)

Module Look.

(** [lookEuler]: [x] is the pitch, [y] the yaw. *)
Record Euler : Type := mkEuler { x : Q; y : Q }.

Inductive Input : Type :=
| MouseMove (readBack : Euler) (lookVectorX lookVectorY : Q)
| TouchMove (deltaX deltaY : Q)
| KeyUp            (* KeyW, ArrowUp *)
| KeyDown          (* KeyS, ArrowDown *)
| KeyLeft          (* KeyA, ArrowLeft *)
| KeyRight.        (* KeyD, ArrowRight *)

Section Look.

Variable F : Float64.
(** [Math.PI / 3] *)
Variable maxVerticalAngle : Q.

(** [Math.max(-max, Math.min(max, v))] *)
Definition clamp (v : Q) : Q :=
  Math_max (- maxVerticalAngle) (Math_min maxVerticalAngle v).

(** One look input while inside the box.  For a mouse move, [readBack] is
    what [lookEuler.setFromQuaternion(internalCamera.quaternion)] leaves in
    [lookEuler]; [lookSpeed] is 0.002. *)
Definition look (i : Input) (e : Euler) : Euler :=
  match i with
  | MouseMove readBack lookVectorX lookVectorY =>
      mkEuler
        (clamp (fsub F (x readBack)
                     (fmul F (fmul F lookVectorY (2#1000)) 10)))
        (fsub F (y readBack) (fmul F (fmul F lookVectorX (2#1000)) 10))
  | TouchMove deltaX deltaY =>
      mkEuler (clamp (fsub F (x e) (fmul F deltaY (2#1000))))
              (fsub F (y e) (fmul F deltaX (2#1000)))
  | KeyUp => mkEuler (Math_max (- maxVerticalAngle) (fsub F (x e) (5#100))) (y e)
  | KeyDown => mkEuler (Math_min maxVerticalAngle (fadd F (x e) (5#100))) (y e)
  | KeyLeft => mkEuler (x e) (fadd F (y e) (5#100))
  | KeyRight => mkEuler (x e) (fsub F (y e) (5#100))
  end.

(** The listeners return at once unless [isInsideBox]. *)
Definition handle (isInsideBox : bool) (i : Input) (e : Euler) : Euler :=
  if isInsideBox then look i e else e.

Definition looks (inputs : list Input) (e : Euler) : Euler :=
  fold_left (fun e i => look i e) inputs e.

End Look.

(** [setupInsideBoxControls]: [new THREE.Euler(0, 0, 0, 'YXZ')] *)
Definition initial : Euler := mkEuler 0 0.

End Look.

(** ** The entry point: loading and initialisation *)

Module Loading.

Record t : Type := mk {
  assetsLoaded : nat;
  initialised : nat     (* calls of initializeExperience *)
}.

Definition assetsToLoad : nat := 10.

Definition start : t := mk 0 0.

Inductive Event : Type :=
| AssetLoaded     (* a load callback of preloadAssets, or fonts ready *)
| Timeout.        (* the 10 second fallback *)

Definition initializeExperience (s : t) : t :=
  mk (assetsLoaded s) (S (initialised s)).

Definition onAssetLoaded (s : t) : t :=
  let s1 := mk (S (assetsLoaded s)) (initialised s) in
  if Nat.leb assetsToLoad (assetsLoaded s1) then initializeExperience s1 else s1.

Definition onTimeout (s : t) : t :=
  if Nat.ltb (assetsLoaded s) assetsToLoad then initializeExperience s else s.

Definition step (s : t) (e : Event) : t :=
  match e with
  | AssetLoaded => onAssetLoaded s
  | Timeout => onTimeout s
  end.

Definition run (events : list Event) (s : t) : t := fold_left step events s.

(** [n] load callbacks in a row. *)
Definition loads (n : nat) : list Event := repeat AssetLoaded n.

End Loading.

(** ** What a quality level configures

    [PerformanceOptimizer.setRenderQuality] and
    [ResponsiveHandler.applyQualitySettings] in detail: pixel ratio, shadow
    map type, the passes of the composer, and the particles. *)

Module RenderSettings.

Inductive ShadowMap : Type := BasicShadowMap | PCFShadowMap | PCFSoftShadowMap.

Record Pass : Type := mkPass {
  name : string;
  enabled : bool;
  strength : Q
}.

Record Renderer : Type := mkRenderer {
  pixelRatio : Q;
  shadowMapType : ShadowMap;
  passes : list Pass            (* composer.passes *)
}.

Definition isBloom (p : Pass) : bool := String.eqb (name p) "UnrealBloomPass".
Definition isSSAO (p : Pass) : bool := String.eqb (name p) "SSAOPass".
Definition isBokeh (p : Pass) : bool := String.eqb (name p) "BokehPass".

(** The pixel ratio [setRenderQuality] sets; [original] is
    [rendererSettings.pixelRatio]. *)
Definition pixelRatioFor (quality : Level) (devicePixelRatio original : Q) : Q :=
  match quality with
  | ultra => Math_min devicePixelRatio (5#2)
  | high => Math_min devicePixelRatio 2
  | medium => Math_min devicePixelRatio (3#2)
  | low => 1
  | auto => original
  end.

Definition shadowMapFor (quality : Level) : ShadowMap :=
  match quality with
  | low => BasicShadowMap
  | medium => PCFShadowMap
  | _ => PCFSoftShadowMap
  end.

(** The body of the [forEach] over the passes in [setRenderQuality]. *)
Definition adjustPass (quality : Level) (p : Pass) : Pass :=
  if isBloom p then
    let on := negb (Level_eqb quality low) in
    mkPass (name p) on
           (if on then
              if Level_eqb quality ultra then 5#10
              else if Level_eqb quality high then 4#10 else 3#10
            else strength p)
  else if isSSAO p then
    mkPass (name p) (Level_eqb quality ultra || Level_eqb quality high)
           (strength p)
  else if isBokeh p then
    mkPass (name p) (Level_eqb quality ultra) (strength p)
  else p.

(** [PerformanceOptimizer.setRenderQuality(quality)] *)
Definition setRenderQuality (quality : Level) (devicePixelRatio original : Q)
           (r : Renderer) : Renderer :=
  mkRenderer (pixelRatioFor quality devicePixelRatio original)
             (shadowMapFor quality)
             (map (adjustPass quality) (passes r)).

(** [boxExperience.particles]: a [Points] object. *)
Record Points : Type := mkPoints {
  visible : bool;
  geometry : Particles.t
}.

(** What [applyQualitySettings] leaves behind, and whether it threw on the
    way. *)
Record Applied : Type := mkApplied {
  renderer : Renderer;
  particles : option Points;
  threw : bool
}.

Definition setVisible (v : bool) (particles : option Points) : option Points :=
  match particles with
  | Some p => Some (mkPoints v (geometry p))
  | None => None
  end.

(** [if (i % 2 === 0) size.array[i] = 0] for every [i] below [count]. *)
Definition zeroEven (count : nat) (sizes : Simplify.Float32Array)
  : Simplify.Float32Array :=
  fold_left (fun s i => if Nat.even i then Simplify.write s i (Some 0%Q) else s)
            (seq 0 count) sizes.

(** [ResponsiveHandler.applyQualitySettings()] at [qualityLevel], with the
    composer and the renderer present and the particles, if any, having a
    position attribute. *)
Definition applyQualitySettings (qualityLevel : Level) (devicePixelRatio : Q)
           (r : Renderer) (particles : option Points) : Applied :=
  match qualityLevel with
  | low =>
      mkApplied
        (mkRenderer 1 BasicShadowMap
           (map (fun p => if isBloom p || isSSAO p || isBokeh p
                          then mkPass (name p) false (strength p) else p)
                (passes r)))
        (setVisible false particles) false
  | medium =>
      let r' :=
        mkRenderer (Math_min devicePixelRatio (3#2)) PCFShadowMap
          (map (fun p => if isBloom p then mkPass (name p) true (3#10)
                         else if isSSAO p || isBokeh p
                         then mkPass (name p) false (strength p) else p)
               (passes r)) in
      match particles with
      | None => mkApplied r' None false
      | Some pts =>
          match Particles.size (geometry pts) with
          | None => mkApplied r' particles true
          | Some sizes =>
              mkApplied r'
                (Some (mkPoints true
                   (Particles.mk
                      (Particles.positionCount (geometry pts))
                      (Some (zeroEven (Particles.positionCount (geometry pts)) sizes))
                      (Particles.originalSizes (geometry pts)))))
                false
          end
      end
  | _ =>
      mkApplied
        (mkRenderer (Math_min devicePixelRatio 2) PCFSoftShadowMap
           (map (fun p => mkPass (name p) true (strength p)) (passes r)))
        (setVisible true particles) false
  end.

(** The particles [createOpeningParticles] makes: one hundred, with a
    position attribute only. *)
Definition openingParticles : Points :=
  mkPoints true (Particles.mk 100 None None).

(** What [ResponsiveHandler.applyQualitySettings] reads of such particles:
    they have a position attribute, and a size attribute or none. *)
Definition seen (particles : option Points) : ResponsiveHandler.Particles :=
  match particles with
  | None => ResponsiveHandler.NoParticles
  | Some pts =>
      ResponsiveHandler.Points true
        (match Particles.size (geometry pts) with
         | Some _ => true
         | None => false
         end)
  end.

End RenderSettings.

(** * Properties *)

(** ** Comparisons *)

Lemma Qgtb_true (a b : Q) : (b < a)%Q -> Qgtb a b = true.
Proof.
  intros H. unfold Qgtb. destruct (Qle_bool a b) eqn:E; [|reflexivity].
  apply Qle_bool_iff in E. exfalso. exact (Qlt_not_le _ _ H E).
Qed.

Lemma Qgtb_false (a b : Q) : (a <= b)%Q -> Qgtb a b = false.
Proof.
  intros H. unfold Qgtb. apply Qle_bool_iff in H. now rewrite H.
Qed.

Lemma Qltb_true (a b : Q) : (a < b)%Q -> Qltb a b = true.
Proof. intros H. unfold Qltb. apply (Qgtb_true b a H). Qed.

Lemma Qltb_false (a b : Q) : (b <= a)%Q -> Qltb a b = false.
Proof. intros H. unfold Qltb. apply (Qgtb_false b a H). Qed.

Lemma Qgeb_true (a b : Q) : (b <= a)%Q -> Qgeb a b = true.
Proof. intros H. unfold Qgeb. now apply Qle_bool_iff. Qed.

Lemma Qgeb_false (a b : Q) : (a < b)%Q -> Qgeb a b = false.
Proof.
  intros H. unfold Qgeb. destruct (Qle_bool b a) eqn:E; [|reflexivity].
  apply Qle_bool_iff in E. exfalso. exact (Qlt_not_le _ _ H E).
Qed.

Lemma Level_eqb_eq (a b : Level) : Level_eqb a b = true <-> a = b.
Proof. destruct a, b; simpl; split; intro H; congruence. Qed.


(** ** BoxExperience: guards of the three operations *)

Section BoxExperienceGuards.
Import BoxExperience.

Lemma tick_idle (samples : list Q) (e : t) :
  timelines e = [] -> tick samples e = e.
Proof.
  destruct e; simpl; intros ->. reflexivity.
Qed.

Lemma render_done (tl : Timeline) (p : Q) (e : t) :
  (1 <= p)%Q ->
  render tl p e =
    (onComplete (anim tl)
       (onUpdate (anim tl) p (if started tl then e else onStart (anim tl) e)),
     None).
Proof. intros H. unfold render. now rewrite (Qgeb_true _ _ H). Qed.

Lemma render_running (tl : Timeline) (p : Q) (e : t) :
  (p < 1)%Q ->
  render tl p e =
    (onUpdate (anim tl) p (if started tl then e else onStart (anim tl) e),
     Some (mkTimeline (anim tl) true)).
Proof. intros H. unfold render. now rewrite (Qgeb_false _ _ H). Qed.

Lemma tick_single (tl : Timeline) (p : Q) (e : t) :
  timelines e = [tl] ->
  tick [p] e =
    set_timelines (match snd (render tl p e) with
                   | Some tl' => [tl']
                   | None => []
                   end) (fst (render tl p e)).
Proof.
  intros H. unfold tick. rewrite H. simpl.
  destruct (render tl p e) as [e1 r]. reflexivity.
Qed.

(** Every mismatched pair of operation and state except [enterBox] on
    [Closed] returns at the guard. *)
Lemma guard_returns (a : Animation) (s : ExperienceState) (e : t) :
  stateOf e = Some s ->
  ExperienceState_eqb s (validFrom a) = false ->
  (a, s) <> (enterBoxAnim, Closed) ->
  run a e = e.
Proof.
  unfold stateOf. intros Hs Hne Hpair.
  destruct a, s; simpl in Hne; try discriminate;
    try (exfalso; apply Hpair; reflexivity);
    destruct (isBoxOpen e) eqn:Ho, (isInsideBox e) eqn:Hi;
    try discriminate; simpl; unfold open, enterBox, exitBox;
    rewrite ?Ho, ?Hi; reflexivity.
Qed.

End BoxExperienceGuards.

Section BoxExperienceOperations.
Import BoxExperience.

(** C1 (the code departs from the claim): [enterBox()] called in the
    Closed state does not return at its guard, which tests [isInsideBox]
    only.  From the freshly loaded experience it puts a timeline in
    flight; the first render of that timeline clears
    [interactionEnabled], and its completion sets [isInsideBox] while
    [isBoxOpen] is still false, a combination that is none of Closed,
    Open and Inside. *)
Theorem enterBox_from_Closed_runs :
  stateOf loaded = Some Closed /\
  enterBox loaded <> loaded /\
  timelines (enterBox loaded) = [mkTimeline enterBoxAnim false] /\
  interactionEnabled loaded = true /\
  interactionEnabled (play [1#4] (enterBox loaded)) = false /\
  isInsideBox (play [1#4; 1] (enterBox loaded)) = true /\
  isBoxOpen (play [1#4; 1] (enterBox loaded)) = false /\
  stateOf (play [1#4; 1] (enterBox loaded)) = None.
Proof.
  repeat split; try reflexivity.
  intros H. apply (f_equal timelines) in H. discriminate H.
Qed.

(** C2 (as stated, refuted): two synchronous calls of [open()] on the
    loaded, closed experience leave two timelines in flight, not one, and
    both run to completion: [createOpeningParticles] is called twice. *)
Lemma double_open_two_transitions :
  stateOf loaded = Some Closed /\
  open (open loaded) <> open loaded /\
  List.length (timelines (open loaded)) = 1%nat /\
  List.length (timelines (open (open loaded))) = 2%nat /\
  openingParticles (tick [1; 1] (open (open loaded))) = 2%nat.
Proof.
  repeat split; try reflexivity.
  intros H. apply (f_equal timelines) in H. discriminate H.
Qed.

(** C2 (amended): from a state whose [isBoxOpen] is false, two synchronous
    calls of [open()] put two open timelines in flight and change nothing
    else, so every flag is as after the first call alone; [open()] is a
    no-op exactly when [isBoxOpen] is set, which the completion of an open
    timeline does. *)
Theorem open_twice (e : t) :
  isBoxOpen e = false ->
  timelines (open e) = timelines e ++ [mkTimeline openAnim false] /\
  timelines (open (open e)) =
    timelines e ++ [mkTimeline openAnim false; mkTimeline openAnim false] /\
  set_timelines (timelines e) (open (open e)) = e /\
  isBoxOpen (open (open e)) = isBoxOpen (open e) /\
  isInsideBox (open (open e)) = isInsideBox (open e) /\
  interactionEnabled (open (open e)) = interactionEnabled (open e) /\
  (forall e', isBoxOpen e' = true -> open e' = e') /\
  (forall p, (1 <= p)%Q -> timelines e = [] ->
     isBoxOpen (tick [p] (open e)) = true /\
     open (tick [p] (open e)) = tick [p] (open e)).
Proof.
  intros Ho. destruct e as [o i ie ce cam il bm ba n tls d].
  simpl in Ho. subst o. unfold open. simpl.
  assert (Hdone : forall p, (1 <= p)%Q ->
            isBoxOpen (tick [p] (newTimeline openAnim
              (mk false i ie ce cam il bm ba n [] d))) = true).
  { intros p Hp. rewrite (tick_single (mkTimeline openAnim false)) by reflexivity.
    rewrite (render_done _ _ _ Hp). reflexivity. }
  repeat split; try reflexivity.
  - now rewrite <- app_assoc.
  - intros e' He'. now rewrite He'.
  - subst tls. now apply Hdone.
  - subst tls. now rewrite Hdone.
Qed.

(** [open_twice] on the freshly loaded experience. *)
Lemma open_twice_witness :
  isBoxOpen loaded = false /\
  timelines (open (open loaded)) =
    [mkTimeline openAnim false; mkTimeline openAnim false].
Proof.
  split; [reflexivity|].
  exact (proj1 (proj2 (open_twice loaded eq_refl))).
Defined.

(** C4 (the code departs from the claim): before the model is loaded
    [boxAnimations] is unbound, and the Space key still evaluates
    [this.boxAnimations.open()], which throws; the click listener throws
    as well.  Only [handleTap] tests [boxModel] first and returns. *)
Theorem activate_before_model_throws :
  boxModel constructed = false /\
  boxAnimations constructed = false /\
  keydown "Space"%string constructed = TypeError /\
  click true constructed = TypeError /\
  click false constructed = TypeError /\
  ResponsiveHandler.handleTap true constructed =
    Returned (dispatchEvent "experienceTap"%string constructed).
Proof. repeat split. Qed.

(** C10: the Space key calls the [boxAnimations] entry chosen from the two
    flags alone: [open] when [isBoxOpen] is false, [enterBox] when the box
    is open and [isInsideBox] is false, [exitBox] otherwise; neither a ray
    cast nor [interactionEnabled] is consulted.  A click or a tap reaches
    the same entry only on a hit (for [exitBox], only on a miss), and does
    nothing to the state machine otherwise. *)
Theorem keydown_Space_no_hit_test (e : t) :
  (isBoxOpen e = false -> keydown "Space"%string e = call openAnim e) /\
  (isBoxOpen e = true -> isInsideBox e = false ->
     keydown "Space"%string e = call enterBoxAnim e) /\
  (isBoxOpen e = true -> isInsideBox e = true ->
     keydown "Space"%string e = call exitBoxAnim e) /\
  (forall s, stateOf e = Some s -> keydown "Space"%string e = call (transitionFrom s) e) /\
  (boxModel e = true -> interactionEnabled e = true ->
     (isInsideBox e = false -> click true e = keydown "Space"%string e) /\
     (isInsideBox e = false -> click false e = Returned e) /\
     (isBoxOpen e = true -> isInsideBox e = true ->
        click false e = keydown "Space"%string e /\ click true e = Returned e)) /\
  (boxModel e = true -> boxAnimations e = true ->
     (isInsideBox e = false ->
        forall e', keydown "Space"%string e = Returned e' ->
          ResponsiveHandler.handleTap true e =
            Returned (dispatchEvent "experienceTap"%string e') /\
          ResponsiveHandler.handleTap false e =
            Returned (dispatchEvent "experienceTap"%string e)) /\
     (isBoxOpen e = true -> isInsideBox e = true ->
        forall e', keydown "Space"%string e = Returned e' ->
          ResponsiveHandler.handleTap false e =
            Returned (dispatchEvent "experienceTap"%string e') /\
          ResponsiveHandler.handleTap true e =
            Returned (dispatchEvent "experienceTap"%string e))).
Proof.
  unfold keydown, click, ResponsiveHandler.handleTap, stateOf, call.
  destruct e as [[] [] [] ce cam il [] [] n tls d]; simpl;
    repeat split; intros; try discriminate; try reflexivity;
    repeat match goal with
           | H : Some _ = Some _ |- _ => inversion H; subst; clear H
           | H : Returned _ = Returned _ |- _ => inversion H; subst; clear H
           end;
    try reflexivity.
Qed.

(** [keydown_Space_no_hit_test] on the opened box. *)
Lemma keydown_Space_no_hit_test_witness :
  isBoxOpen opened = true /\ isInsideBox opened = false /\
  keydown "Space"%string opened = call enterBoxAnim opened /\
  click false opened = Returned opened.
Proof.
  pose proof (keydown_Space_no_hit_test opened) as H.
  split; [reflexivity|]. split; [reflexivity|]. split.
  - exact (proj1 (proj2 H) eq_refl eq_refl).
  - exact (proj1 (proj2 (proj1 (proj2 (proj2 (proj2 (proj2 H))))
                               eq_refl eq_refl)) eq_refl).
Defined.

End BoxExperienceOperations.

(** ** BoxExperience: a transition under the gsap ticker *)

Section BoxExperienceTransitions.
Import BoxExperience.

Lemma onUpdate_early (a : Animation) (q : Q) (e : t) :
  (q <= 1#2)%Q -> onUpdate a q e = e.
Proof.
  intros H. destruct a; simpl; trivial; now rewrite (Qgtb_false _ _ H).
Qed.

Lemma early_running (q : Q) : (q <= 1#2)%Q -> (q < 1)%Q.
Proof. intros H. apply Qle_lt_trans with (1#2)%Q; [exact H|reflexivity]. Qed.

Lemma late_of_done (q : Q) : (1 <= q)%Q -> (1#2 < q)%Q.
Proof. intros H. apply Qlt_le_trans with 1%Q; [reflexivity|exact H]. Qed.

Lemma tick_early (a : Animation) (st : bool) (q : Q) (e : t) :
  timelines e = [mkTimeline a st] ->
  (q <= 1#2)%Q ->
  tick [q] e =
    set_timelines [mkTimeline a true] (if st then e else onStart a e).
Proof.
  intros Ht Hq. rewrite (tick_single _ _ _ Ht).
  rewrite (render_running _ _ _ (early_running _ Hq)). simpl.
  now rewrite (onUpdate_early _ _ _ Hq).
Qed.

Lemma onStart_activeCamera (a : Animation) (e : t) :
  activeCamera (onStart a e) = activeCamera e.
Proof. destruct a; reflexivity. Qed.

(** Before the midpoint nothing moves the camera. *)
Lemma cameraTrace_early (a : Animation) (pre : list Q) :
  forall (st : bool) (e : t),
    timelines e = [mkTimeline a st] ->
    Forall (fun q => (q <= 1#2)%Q) pre ->
    cameraTrace pre e = repeat (activeCamera e) (List.length pre) /\
    activeCamera (play pre e) = activeCamera e /\
    exists st', timelines (play pre e) = [mkTimeline a st'].
Proof.
  induction pre as [|q pre IH]; intros st e Ht Hpre.
  - simpl. repeat split. now exists st.
  - inversion Hpre as [|? ? Hq Hrest]; subst.
    pose proof (tick_early a st q e Ht Hq) as Hq1.
    assert (Hcam : activeCamera (tick [q] e) = activeCamera e).
    { rewrite Hq1. destruct st; simpl; trivial. apply onStart_activeCamera. }
    assert (Ht1 : timelines (tick [q] e) = [mkTimeline a true]).
    { now rewrite Hq1. }
    destruct (IH true (tick [q] e) Ht1 Hrest) as (Htr & Hc & Hst).
    unfold play in *. simpl. rewrite Htr, Hc, Hcam. repeat split. exact Hst.
Qed.

(** The first update past the midpoint hands the camera over. *)
Lemma tick_handover (a : Animation) (cam : Camera) (st : bool) (p : Q) (e : t) :
  handover a = Some cam ->
  timelines e = [mkTimeline a st] ->
  (1#2 < p)%Q ->
  activeCamera (tick [p] e) = cam /\
  (timelines (tick [p] e) = [] \/
   exists st', timelines (tick [p] e) = [mkTimeline a st']).
Proof.
  intros Ha Ht Hp. rewrite (tick_single _ _ _ Ht). unfold render.
  destruct e as [o i ie ce c il bm ba n tls d].
  destruct a; simpl in Ha; try discriminate; inversion Ha; subst cam;
    simpl; rewrite (Qgtb_true _ _ Hp);
    destruct (Qgeb p 1), st, c; simpl; split; eauto.
Qed.

(** Once handed over, the camera stays. *)
Lemma cameraTrace_settled (a : Animation) (cam : Camera) (post : list Q) :
  handover a = Some cam ->
  forall e : t,
    activeCamera e = cam ->
    (timelines e = [] \/ exists st, timelines e = [mkTimeline a st]) ->
    cameraTrace post e = repeat cam (List.length post).
Proof.
  intros Ha. induction post as [|q post IH]; intros e Hc Ht; [reflexivity|].
  simpl. assert (H : activeCamera (tick [q] e) = cam /\
                     (timelines (tick [q] e) = [] \/
                      exists st, timelines (tick [q] e) = [mkTimeline a st])).
  { destruct Ht as [Ht|[st Ht]].
    - rewrite (tick_idle _ _ Ht). auto.
    - rewrite (tick_single _ _ _ Ht). unfold render.
      destruct e as [o i ie ce c il bm ba n tls d]. simpl in Hc. subst c.
      destruct a; simpl in Ha; try discriminate; inversion Ha; subst cam;
        simpl; destruct (Qgeb q 1), st, (Qgtb q (1#2)); simpl; split; eauto. }
  destruct H as [Hc' Ht']. rewrite Hc'. f_equal. now apply IH.
Qed.

Lemma cameraTrace_app (xs ys : list Q) :
  forall e : t,
    cameraTrace (xs ++ ys) e = cameraTrace xs e ++ cameraTrace ys (play xs e).
Proof.
  induction xs as [|x xs IH]; intros e; [reflexivity|].
  simpl. now rewrite IH.
Qed.

Lemma controlsTrace_app (xs ys : list Q) :
  forall e : t,
    controlsTrace (xs ++ ys) e =
      controlsTrace xs e ++ controlsTrace ys (play xs e).
Proof.
  induction xs as [|x xs IH]; intros e; [reflexivity|].
  simpl. now rewrite IH.
Qed.

(** The camera trace of a transition that starts from the other camera. *)
Lemma cameraTrace_transition (a : Animation) (cam : Camera)
      (pre post : list Q) (p : Q) (e : t) :
  handover a = Some cam ->
  timelines e = [mkTimeline a false] ->
  Forall (fun q => (q <= 1#2)%Q) pre ->
  (1#2 < p)%Q ->
  cameraTrace (pre ++ p :: post) e =
    repeat (activeCamera e) (List.length pre) ++ repeat cam (S (List.length post)).
Proof.
  intros Ha Ht Hpre Hp. rewrite cameraTrace_app.
  destruct (cameraTrace_early a pre false e Ht Hpre) as (Htr & Hc & st' & Hst).
  rewrite Htr. f_equal. simpl.
  destruct (tick_handover a cam st' p (play pre e) Ha Hst Hp) as [Hc' Ht'].
  rewrite Hc'. f_equal. now apply (cameraTrace_settled a).
Qed.

(** C3 (as stated, refuted): a progress sample of exactly 0.5 is a sample
    with progress >= 0.5, and the camera is still the external one after
    it; the handover happens one sample later. *)
Lemma camera_kept_at_half :
  (1#2 <= 1#2)%Q /\
  activeCamera opened = externalCamera /\
  cameraTrace [1#2; 1] (enterBox opened) = [externalCamera; internalCamera] /\
  activeCamera inside = internalCamera /\
  cameraTrace [1#2; 1] (exitBox inside) = [internalCamera; externalCamera].
Proof.
  split; [apply Qle_refl|]. repeat split.
Qed.

(** C3 (amended): the active camera is always the external or the
    internal one.  During an [enterBox] transition started, with nothing
    else in flight, on the external camera (an [exitBox] transition on the
    internal one), it changes exactly once: it is unchanged after every
    sample up to the first one with progress strictly above 0.5, and is
    the other camera after that sample and after every later one. *)
Theorem activeCamera_handover (e : t) (pre post : list Q) (p : Q) :
  timelines e = [] ->
  Forall (fun q => (q <= 1#2)%Q) pre ->
  (1#2 < p)%Q ->
  (activeCamera e = externalCamera \/ activeCamera e = internalCamera) /\
  (isInsideBox e = false -> activeCamera e = externalCamera ->
     cameraTrace (pre ++ p :: post) (enterBox e) =
       repeat externalCamera (List.length pre)
       ++ repeat internalCamera (S (List.length post))) /\
  (isInsideBox e = true -> activeCamera e = internalCamera ->
     cameraTrace (pre ++ p :: post) (exitBox e) =
       repeat internalCamera (List.length pre)
       ++ repeat externalCamera (S (List.length post))).
Proof.
  intros Ht Hpre Hp. split; [destruct (activeCamera e); auto|].
  split; intros Hi Hc.
  - assert (Hs : timelines (enterBox e) = [mkTimeline enterBoxAnim false]).
    { unfold enterBox. rewrite Hi. simpl. now rewrite Ht. }
    rewrite (cameraTrace_transition enterBoxAnim internalCamera
               pre post p (enterBox e) eq_refl Hs Hpre Hp).
    unfold enterBox. rewrite Hi. simpl. now rewrite Hc.
  - assert (Hs : timelines (exitBox e) = [mkTimeline exitBoxAnim false]).
    { unfold exitBox. rewrite Hi. simpl. now rewrite Ht. }
    rewrite (cameraTrace_transition exitBoxAnim externalCamera
               pre post p (exitBox e) eq_refl Hs Hpre Hp).
    unfold exitBox. rewrite Hi. simpl. now rewrite Hc.
Qed.

(** [activeCamera_handover] on the run 0.25, 0.5, 0.75, 1 of [enterBox]. *)
Lemma activeCamera_handover_witness :
  timelines opened = [] /\
  Forall (fun q => (q <= 1#2)%Q) [1#4; 1#2] /\
  (1#2 < 3#4)%Q /\
  cameraTrace ([1#4; 1#2] ++ (3#4) :: [1]) (enterBox opened) =
    [externalCamera; externalCamera; internalCamera; internalCamera].
Proof.
  assert (Hpre : Forall (fun q => (q <= 1#2)%Q) [1#4; 1#2]).
  { repeat constructor; apply Qle_bool_iff; reflexivity. }
  split; [reflexivity|]. split; [exact Hpre|]. split; [reflexivity|].
  exact (proj1 (proj2 (activeCamera_handover opened [1#4; 1#2] [1] (3#4)
                         eq_refl Hpre eq_refl)) eq_refl eq_refl).
Defined.

(** *** exitBox *)

Lemma controlsTrace_exit_early (pre : list Q) :
  forall (st : bool) (e : t),
    timelines e = [mkTimeline exitBoxAnim st] ->
    Forall (fun q => (q <= 1#2)%Q) pre ->
    controlsTrace pre e = repeat (controls_enabled e) (List.length pre) /\
    controls_enabled (play pre e) = controls_enabled e.
Proof.
  induction pre as [|q pre IH]; intros st e Ht Hpre; [now split|].
  inversion Hpre as [|? ? Hq Hrest]; subst.
  pose proof (tick_early exitBoxAnim st q e Ht Hq) as Hq1.
  assert (Hce : controls_enabled (tick [q] e) = controls_enabled e).
  { rewrite Hq1. now destruct st. }
  assert (Ht1 : timelines (tick [q] e) = [mkTimeline exitBoxAnim true]).
  { now rewrite Hq1. }
  destruct (IH true (tick [q] e) Ht1 Hrest) as (Htr & Hc).
  unfold play in *. simpl. rewrite Htr, Hc, Hce. now split.
Qed.

Lemma exitBox_exiting (e : t) :
  timelines e = [] -> isBoxOpen e = true -> isInsideBox e = true ->
  activeCamera e = internalCamera ->
  exiting (exitBox e).
Proof.
  intros Ht Ho Hi Hc. unfold exiting, exitBox. rewrite Hi. simpl.
  rewrite Ht, Hc. repeat split; auto; [now exists false | discriminate].
Qed.

Lemma exiting_tick (q : Q) (e : t) :
  (q < 1)%Q -> exiting e -> exiting (tick [q] e).
Proof.
  intros Hq ((st & Ht) & Ho & Hi & Hce).
  rewrite (tick_single _ _ _ Ht), (render_running _ _ _ Hq).
  destruct e as [o i ie ce c il bm ba n tls d]. simpl in *. subst o i.
  unfold exiting.
  destruct st, (Qgtb q (1#2)), c; simpl in *; repeat split; eauto;
    try discriminate.
Qed.

Lemma exiting_play (samples : list Q) :
  forall e : t,
    Forall (fun q => (q < 1)%Q) samples -> exiting e -> exiting (play samples e).
Proof.
  induction samples as [|q samples IH]; intros e Hs He; [exact He|].
  inversion Hs; subst. unfold play in *. simpl.
  apply IH; [assumption|]. now apply exiting_tick.
Qed.

Lemma exiting_complete (c : Q) (e : t) :
  (1 <= c)%Q -> exiting e ->
  stateOf (tick [c] e) = Some Open /\
  interactionEnabled (tick [c] e) = true /\
  controls_enabled (tick [c] e) = true /\
  activeCamera (tick [c] e) = externalCamera /\
  timelines (tick [c] e) = [].
Proof.
  intros Hc ((st & Ht) & Ho & Hi & Hce).
  rewrite (tick_single _ _ _ Ht), (render_done _ _ _ Hc).
  destruct e as [o i ie ce cam il bm ba n tls d]. simpl in *. subst o i.
  rewrite (Qgtb_true _ _ (late_of_done _ Hc)).
  unfold stateOf.
  destruct st, cam; simpl in *; repeat split; auto.
Qed.

Lemma play_snoc (samples : list Q) (c : Q) (e : t) :
  play (samples ++ [c]) e = tick [c] (play samples e).
Proof. unfold play. now rewrite fold_left_app. Qed.

(** C7 (as stated, refuted): with samples 0.6 and 1, orbit controls are
    enabled after the first sample, when the timeline is still in flight
    and [isInsideBox] still set; and no [exitBox] event has been
    dispatched when the transition is over. *)
Lemma exitBox_orbit_before_completion :
  stateOf inside = Some Inside /\
  controls_enabled inside = false /\
  controls_enabled (play [3#5] (exitBox inside)) = true /\
  timelines (play [3#5] (exitBox inside)) = [mkTimeline exitBoxAnim true] /\
  isInsideBox (play [3#5] (exitBox inside)) = true /\
  timelines (play [3#5; 1] (exitBox inside)) = [] /\
  count_occ string_dec (dispatched (play [3#5; 1] (exitBox inside)))
            "exitBox"%string = 0%nat.
Proof. repeat split. Qed.

(** C7 (amended): when [exitBox()] runs from the Inside state with
    nothing else in flight, the internal camera active and orbit controls
    off, the controls stay off up to the first sample with progress
    strictly above 0.5 and are enabled by that sample, at the camera
    handover, which may come before completion; at completion the state
    is Open with interaction enabled, orbit controls enabled and the
    external camera active. *)
Theorem exitBox_orbit_at_handover
        (e : t) (pre samples : list Q) (p c : Q) :
  timelines e = [] ->
  isBoxOpen e = true -> isInsideBox e = true ->
  activeCamera e = internalCamera ->
  controls_enabled e = false ->
  Forall (fun q => (q <= 1#2)%Q) pre -> (1#2 < p)%Q ->
  Forall (fun q => (q < 1)%Q) samples -> (1 <= c)%Q ->
  controlsTrace (pre ++ [p]) (exitBox e) =
    repeat false (List.length pre) ++ [true] /\
  stateOf (play (samples ++ [c]) (exitBox e)) = Some Open /\
  interactionEnabled (play (samples ++ [c]) (exitBox e)) = true /\
  controls_enabled (play (samples ++ [c]) (exitBox e)) = true /\
  activeCamera (play (samples ++ [c]) (exitBox e)) = externalCamera /\
  timelines (play (samples ++ [c]) (exitBox e)) = [].
Proof.
  intros Ht Ho Hi Hcam Hce Hpre Hp Hs Hc. split.
  - assert (Hx : timelines (exitBox e) = [mkTimeline exitBoxAnim false]).
    { unfold exitBox. rewrite Hi. simpl. now rewrite Ht. }
    assert (Hce' : controls_enabled (exitBox e) = false).
    { unfold exitBox. now rewrite Hi. }
    assert (Hcam' : activeCamera (exitBox e) = internalCamera).
    { unfold exitBox. now rewrite Hi. }
    rewrite controlsTrace_app.
    destruct (controlsTrace_exit_early pre false _ Hx Hpre) as [Htr Hk].
    destruct (cameraTrace_early exitBoxAnim pre false _ Hx Hpre)
      as (_ & Hc1 & st' & Hst).
    rewrite Htr, Hce'. f_equal. simpl. f_equal.
    rewrite (tick_single _ _ _ Hst). unfold render.
    rewrite Hcam' in Hc1. rewrite Hce' in Hk.
    destruct (play pre (exitBox e)) as [o i ie ce cam il bm ba n tls d].
    simpl in *. subst cam ce. rewrite (Qgtb_true _ _ Hp).
    destruct st', (Qgeb p 1); reflexivity.
  - rewrite play_snoc. apply exiting_complete; [exact Hc|].
    apply exiting_play; [exact Hs|]. now apply exitBox_exiting.
Qed.

(** [exitBox_orbit_at_handover] on the run 0.25, 0.6, 1 of [exitBox]. *)
Lemma exitBox_orbit_at_handover_witness :
  timelines inside = [] /\
  stateOf inside = Some Inside /\
  controlsTrace ([1#4] ++ [3#5]) (exitBox inside) = [false; true] /\
  stateOf (play ([1#4; 3#5] ++ [1]) (exitBox inside)) = Some Open.
Proof.
  assert (Hpre : Forall (fun q => (q <= 1#2)%Q) [1#4]).
  { repeat constructor; apply Qle_bool_iff; reflexivity. }
  assert (Hs : Forall (fun q => (q < 1)%Q) [1#4; 3#5]).
  { repeat constructor. }
  assert (H1 : (1 <= 1)%Q) by apply Qle_refl.
  pose proof (exitBox_orbit_at_handover inside [1#4] [1#4; 3#5] (3#5) 1
                eq_refl eq_refl eq_refl eq_refl eq_refl Hpre eq_refl Hs H1)
    as H.
  split; [reflexivity|]. split; [reflexivity|]. split.
  - exact (proj1 H).
  - exact (proj1 (proj2 H)).
Defined.

End BoxExperienceTransitions.

(** ** The adaptive quality controllers *)

Section AdaptiveQuality.
Import ResponsiveHandler.

(** [autoOptimize] returns unless the stored level is ['auto'], and then
    compares that level with the concrete ones: it never changes
    anything. *)
Lemma autoOptimize_id (p : PerformanceOptimizer.t) :
  PerformanceOptimizer.autoOptimize p = p.
Proof.
  unfold PerformanceOptimizer.autoOptimize.
  destruct (PerformanceOptimizer.currentOptimizationLevel p); simpl;
    try reflexivity.
  destruct (Qltb _ 30); [reflexivity|]. destruct (Qgtb _ 55); reflexivity.
Qed.


Lemma evaluate_high_fps (h : t) (fps : Q) :
  (55 < fps)%Q ->
  evaluate h fps =
    let h1 := set_lowFpsCount 0 (set_avgFps fps h) in
    match qualityLevel h with
    | low => if isMobile h then Normal h1
             else applyQualitySettings (set_qualityLevel medium h1)
    | medium => if isMobile h || isTablet h then Normal h1
                else applyQualitySettings (set_qualityLevel high h1)
    | _ => Normal h1
    end.
Proof.
  intros H. unfold evaluate, adjustQualityBasedOnPerformance.
  destruct h as [mob tab l [fr lt av cnt ci] lg p]. simpl.
  assert (Hlt : Qltb fps 30 = false).
  { apply Qltb_false. apply Qlt_le_weak.
    apply Qlt_trans with 55%Q; [reflexivity|exact H]. }
  rewrite Hlt, (Qgtb_true _ _ H).
  destruct l, mob, tab; reflexivity.
Qed.




(** C6 (as stated, refuted): on a desktop at high, an evaluation at 60
    FPS leaves the level at high, not ultra; [autoOptimize] changes
    nothing either. *)
Lemma high_not_upgraded :
  isMobile (atLevel false false high) = false /\
  isTablet (atLevel false false high) = false /\
  qualityLevel (state (evaluate (atLevel false false high) 60)) = high /\
  specUpgrade high = ultra /\
  PerformanceOptimizer.currentOptimizationLevel
    (PerformanceOptimizer.autoOptimize
       (PerformanceOptimizer.mk high true [60] (Some high) false (Some 8%nat)))
    = high.
Proof. repeat split. Qed.

(** C6 (amended): for every evaluation of
    [adjustQualityBasedOnPerformance] with smoothed FPS above 55,
    [lowFpsCount] is reset to 0 and the level is upgraded by exactly one
    step immediately: low to medium unless the device is mobile, medium
    to high unless it is mobile or a tablet; it is a no-op at high, the
    top of this controller's ladder, and at ultra.  A mobile device is
    never upgraded and a tablet never past medium.  All of this holds of
    the state the evaluation leaves, whether it returns or throws. *)
Theorem high_fps_upgrade (h : t) (fps : Q) :
  (55 < fps)%Q ->
  lowFpsCount (fpsMonitor (state (evaluate h fps))) = 0%nat /\
  qualityLevel (state (evaluate h fps)) =
    match qualityLevel h with
    | low => if isMobile h then low else medium
    | medium => if isMobile h || isTablet h then medium else high
    | l => l
    end /\
  (qualityLevel (state (evaluate h fps)) = qualityLevel h \/
   qualityLevel (state (evaluate h fps)) = specUpgrade (qualityLevel h)) /\
  (isMobile h = true ->
     qualityLevel (state (evaluate h fps)) = qualityLevel h) /\
  (isMobile h || isTablet h = true ->
     qualityLevel h = low \/ qualityLevel h = medium ->
     qualityLevel (state (evaluate h fps)) = low \/
     qualityLevel (state (evaluate h fps)) = medium) /\
  isMobile (state (evaluate h fps)) = isMobile h /\
  isTablet (state (evaluate h fps)) = isTablet h.
Proof.
  intros H. rewrite (evaluate_high_fps h fps H).
  destruct h as [mob tab l [fr lt av cnt ci] lg p]. simpl.
  destruct l, mob, tab, p as [|[|] [|]]; simpl; repeat split; auto;
    intros; try discriminate;
    repeat match goal with H : _ \/ _ |- _ => destruct H end;
    try discriminate; auto.
Qed.

(** [high_fps_upgrade] on a desktop at low and on a tablet at medium. *)
Lemma high_fps_upgrade_witness :
  (55 < 60)%Q /\
  qualityLevel (state (evaluate (atLevel false false low) 60)) = medium /\
  qualityLevel (state (evaluate (atLevel false true medium) 60)) = medium.
Proof.
  split; [reflexivity|]. split.
  - exact (proj1 (proj2 (high_fps_upgrade (atLevel false false low) 60 eq_refl))).
  - exact (proj1 (proj2 (high_fps_upgrade (atLevel false true medium) 60 eq_refl))).
Defined.

End AdaptiveQuality.

(** ** Culling and level of detail *)

Section CullingFacts.
Import PerformanceOptimizer.

Variable View : Type.
Variable intersectsSphere : View -> Object3D -> bool.
Variable distanceTo : View -> Object3D -> Q.

Local Abbreviation cull := (cull View intersectsSphere distanceTo).
Local Abbreviation updateCulling := (updateCulling View intersectsSphere distanceTo).
Local Abbreviation frames := (frames View intersectsSphere distanceTo).
Local Abbreviation cullFrames := (cullFrames View intersectsSphere distanceTo).

Lemma assign_fields (g : option Geometry) (o : Object3D) :
  parent (assign g o) = parent o /\
  visible (assign g o) = visible o /\
  originalVisible (assign g o) = originalVisible o /\
  originalGeometry (assign g o) = originalGeometry o /\
  mediumGeometry (assign g o) = mediumGeometry o /\
  lowGeometry (assign g o) = lowGeometry o.
Proof. destruct g; repeat split. Qed.

(** What a frame leaves alone. *)
Lemma cull_fields (v : View) (o : Object3D) :
  parent (cull v o) = parent o /\
  originalVisible (cull v o) = originalVisible o /\
  originalGeometry (cull v o) = originalGeometry o /\
  mediumGeometry (cull v o) = mediumGeometry o /\
  lowGeometry (cull v o) = lowGeometry o.
Proof.
  unfold PerformanceOptimizer.cull.
  destruct (parent o) eqn:Hp; simpl; [|now rewrite Hp].
  repeat match goal with
         | |- context [if ?b then _ else _] => destruct b
         end;
    repeat split;
    try (etransitivity; [apply assign_fields|]); simpl; auto.
Qed.

Lemma cull_visible (v : View) (o : Object3D) :
  parent o = true ->
  visible (cull v o) = intersectsSphere v o && originalVisible o.
Proof.
  intros Hp. unfold PerformanceOptimizer.cull. rewrite Hp. simpl.
  repeat match goal with
         | |- context [if ?b then _ else _] => destruct b
         end;
    try (etransitivity; [apply assign_fields|]); reflexivity.
Qed.

Lemma cull_hidden (v : View) (o : Object3D) :
  originalVisible o = false -> visible o = false ->
  visible (cull v o) = false.
Proof.
  intros Ho Hv. destruct (parent o) eqn:Hp.
  - rewrite (cull_visible v o Hp), Ho. apply andb_false_r.
  - unfold PerformanceOptimizer.cull. now rewrite Hp.
Qed.

Lemma cullFrames_hidden (views : list View) :
  forall o : Object3D,
    originalVisible o = false -> visible o = false ->
    visible (cullFrames views o) = false.
Proof.
  unfold PerformanceOptimizer.cullFrames.
  induction views as [|v views IH]; intros o Ho Hv; [exact Hv|].
  simpl. apply IH.
  - now rewrite (proj1 (proj2 (cull_fields v o))).
  - now apply cull_hidden.
Qed.

Lemma frames_map (views : list View) :
  forall objects : list Object3D,
    frames views objects = map (cullFrames views) objects.
Proof.
  unfold PerformanceOptimizer.frames, PerformanceOptimizer.cullFrames.
  induction views as [|v views IH]; intros objects; simpl.
  - now rewrite map_id.
  - rewrite IH. unfold PerformanceOptimizer.updateCulling. now rewrite map_map.
Qed.

Lemma setupCulling_baseline (scene : list Object3D) (o : Object3D) :
  In o (setupCulling scene) -> originalVisible o = visible o.
Proof.
  unfold setupCulling. intros H. apply in_map_iff in H.
  destruct H as (o0 & <- & _). reflexivity.
Qed.

(** C8: on a frame, every tracked object still in the scene gets
    [visible = inFrustum && originalVisible], the frustum test of its
    world-space bounding sphere and the visibility stored for it by
    [setupCulling]; so an object that was hidden when [setupCulling]
    stored its visibility is hidden after every later frame, whatever the
    frustum test answers. *)
Theorem culled_visibility (v : View) (objects : list Object3D) :
  (forall (i : nat) (o : Object3D),
     nth_error objects i = Some o -> parent o = true ->
     exists o',
       nth_error (updateCulling v objects) i = Some o' /\
       visible o' = intersectsSphere v o && originalVisible o /\
       (originalVisible o = false -> visible o' = false)) /\
  (forall (scene : list Object3D) (views : list View) (i : nat) (o : Object3D),
     nth_error (setupCulling scene) i = Some o -> visible o = false ->
     exists o',
       nth_error (frames views (setupCulling scene)) i = Some o' /\
       visible o' = false).
Proof.
  split.
  - intros i o Hi Hp. exists (cull v o).
    unfold PerformanceOptimizer.updateCulling.
    rewrite nth_error_map, Hi. repeat split.
    + now apply cull_visible.
    + intros Ho. rewrite (cull_visible v o Hp), Ho. apply andb_false_r.
  - intros scene views i o Hi Hv. exists (cullFrames views o).
    rewrite frames_map, nth_error_map, Hi. split; [reflexivity|].
    apply cullFrames_hidden; [|exact Hv].
    rewrite (setupCulling_baseline scene o); [exact Hv|].
    eapply nth_error_In; eassumption.
Qed.

Lemma cull_geometry (v : View) (o : Object3D) (gf gm gl : Geometry) :
  parent o = true ->
  intersectsSphere v o = true ->
  originalVisible o = true ->
  originalGeometry o = Some gf ->
  mediumGeometry o = Some gm ->
  lowGeometry o = Some gl ->
  geometry (cull v o) =
    if Qgtb (distanceTo v o) 10 then gl
    else if Qgtb (distanceTo v o) 5 then gm else gf.
Proof.
  intros Hp Hin Hov Hf Hm Hl. unfold PerformanceOptimizer.cull.
  rewrite Hp, Hin, Hov. simpl. rewrite Hf, Hm, Hl. simpl.
  destruct (Qgtb (distanceTo v o) 10); simpl; [reflexivity|].
  destruct (Qgtb (distanceTo v o) 5); reflexivity.
Qed.

(** C9: for a tracked object that is visible on the frame and has its
    three variants, the variant applied is chosen from the camera distance
    [d] alone: low when [d > 10], medium when [5 < d <= 10], the original
    when [d <= 5]; so 11 gives low, 7 medium and 2 the original.  The
    choice does not depend on the variant applied before: on a later
    frame at a distance below a threshold the richer variant is back. *)
Theorem cull_variant (v : View) (o : Object3D) (gf gm gl : Geometry) :
  parent o = true ->
  intersectsSphere v o = true ->
  originalVisible o = true ->
  originalGeometry o = Some gf ->
  mediumGeometry o = Some gm ->
  lowGeometry o = Some gl ->
  visible (cull v o) = true /\
  ((10 < distanceTo v o)%Q -> geometry (cull v o) = gl) /\
  ((5 < distanceTo v o)%Q -> (distanceTo v o <= 10)%Q ->
     geometry (cull v o) = gm) /\
  ((distanceTo v o <= 5)%Q -> geometry (cull v o) = gf) /\
  ((distanceTo v o == 11)%Q -> geometry (cull v o) = gl) /\
  ((distanceTo v o == 7)%Q -> geometry (cull v o) = gm) /\
  ((distanceTo v o == 2)%Q -> geometry (cull v o) = gf) /\
  (forall v' : View,
     intersectsSphere v' (cull v o) = true ->
     ((distanceTo v' (cull v o) <= 5)%Q ->
        geometry (cull v' (cull v o)) = gf) /\
     ((5 < distanceTo v' (cull v o))%Q -> (distanceTo v' (cull v o) <= 10)%Q ->
        geometry (cull v' (cull v o)) = gm)).
Proof.
  intros Hp Hin Hov Hf Hm Hl.
  pose proof (cull_geometry v o gf gm gl Hp Hin Hov Hf Hm Hl) as Hg.
  split; [rewrite (cull_visible v o Hp), Hin, Hov; reflexivity|].
  split; [intros H; rewrite Hg, (Qgtb_true _ _ H); reflexivity|].
  split; [intros H1 H2; rewrite Hg, (Qgtb_false _ _ H2), (Qgtb_true _ _ H1);
          reflexivity|].
  split; [intros H; rewrite Hg, (Qgtb_false _ 5 H);
          rewrite Qgtb_false; [reflexivity|];
          apply Qle_trans with 5%Q; [exact H|apply Qle_bool_iff; reflexivity]|].
  split; [intros H; rewrite Hg, Qgtb_true; [reflexivity|];
          rewrite H; reflexivity|].
  split; [intros H; rewrite Hg, Qgtb_false, Qgtb_true; [reflexivity| |];
          rewrite H; [reflexivity|apply Qle_bool_iff; reflexivity]|].
  split; [intros H; rewrite Hg, Qgtb_false, Qgtb_false; [reflexivity| |];
          rewrite H; apply Qle_bool_iff; reflexivity|].
  intros v' Hin'.
  destruct (cull_fields v o) as (Hp' & Hov' & Hf' & Hm' & Hl').
  assert (Hg' : geometry (cull v' (cull v o)) =
                if Qgtb (distanceTo v' (cull v o)) 10 then gl
                else if Qgtb (distanceTo v' (cull v o)) 5 then gm else gf).
  { apply cull_geometry; congruence. }
  split.
  - intros H. rewrite Hg', (Qgtb_false _ 5 H).
    rewrite Qgtb_false; [reflexivity|].
    apply Qle_trans with 5%Q; [exact H|apply Qle_bool_iff; reflexivity].
  - intros H1 H2. rewrite Hg', (Qgtb_false _ _ H2), (Qgtb_true _ _ H1).
    reflexivity.
Qed.

End CullingFacts.

Section CullingWitnesses.
Import PerformanceOptimizer.

(** [culled_visibility] on a hidden mesh that the frustum test accepts. *)
Lemma culled_visibility_witness :
  nth_error (setupCulling [hiddenMesh]) 0%nat = Some hiddenMesh /\
  parent hiddenMesh = true /\
  visible hiddenMesh = false /\
  (exists o',
     nth_error (updateCulling bool (fun v _ => v) (fun _ _ => 0%Q) true
                              (setupCulling [hiddenMesh])) 0%nat = Some o' /\
     visible o' = true && originalVisible hiddenMesh /\
     (originalVisible hiddenMesh = false -> visible o' = false)) /\
  (exists o',
     nth_error (frames bool (fun v _ => v) (fun _ _ => 0%Q) [true; true]
                       (setupCulling [hiddenMesh])) 0%nat = Some o' /\
     visible o' = false).
Proof.
  split; [reflexivity|]. split; [reflexivity|]. split; [reflexivity|]. split.
  - exact (proj1 (culled_visibility bool (fun v _ => v) (fun _ _ => 0%Q) true
                    (setupCulling [hiddenMesh])) 0%nat hiddenMesh eq_refl eq_refl).
  - exact (proj2 (culled_visibility bool (fun v _ => v) (fun _ _ => 0%Q) true
                    (setupCulling [hiddenMesh]))
                 [hiddenMesh] [true; true] 0%nat hiddenMesh eq_refl eq_refl).
Defined.

(** [cull_variant] at distances 11, 7 and, after 11, 2. *)
Lemma cull_variant_witness :
  parent lodMesh = true /\
  originalVisible lodMesh = true /\
  (10 < 11)%Q /\
  geometry (cull Q (fun _ _ => true) (fun v _ => v) 11 lodMesh) = 2%nat /\
  geometry (cull Q (fun _ _ => true) (fun v _ => v) 7 lodMesh) = 1%nat /\
  geometry (cull Q (fun _ _ => true) (fun v _ => v) 2
              (cull Q (fun _ _ => true) (fun v _ => v) 11 lodMesh)) = 0%nat.
Proof.
  split; [reflexivity|]. split; [reflexivity|]. split; [reflexivity|].
  assert (H7 : (7 <= 10)%Q) by (apply Qle_bool_iff; reflexivity).
  assert (H2 : (2 <= 5)%Q) by (apply Qle_bool_iff; reflexivity).
  split; [|split].
  - exact (proj1 (proj2 (cull_variant Q (fun _ _ => true) (fun v _ => v)
                           11 lodMesh 0%nat 1%nat 2%nat
                           eq_refl eq_refl eq_refl eq_refl eq_refl eq_refl))
                 eq_refl).
  - exact (proj1 (proj2 (proj2 (cull_variant Q (fun _ _ => true) (fun v _ => v)
                                  7 lodMesh 0%nat 1%nat 2%nat
                                  eq_refl eq_refl eq_refl eq_refl eq_refl eq_refl)))
                 eq_refl H7).
  - exact (proj1 (proj2 (proj2 (proj2 (proj2 (proj2 (proj2 (proj2
             (cull_variant Q (fun _ _ => true) (fun v _ => v)
                11 lodMesh 0%nat 1%nat 2%nat
                eq_refl eq_refl eq_refl eq_refl eq_refl eq_refl)))))))
             2 eq_refl) H2).
Defined.

End CullingWitnesses.

(** ** The experience under arbitrary inputs *)

Section InputFacts.
Import BoxExperience Inputs.

Lemma t_ext (e e' : t) :
  isBoxOpen e = isBoxOpen e' -> isInsideBox e = isInsideBox e' ->
  interactionEnabled e = interactionEnabled e' ->
  controls_enabled e = controls_enabled e' ->
  activeCamera e = activeCamera e' ->
  interiorLight_visible e = interiorLight_visible e' ->
  boxModel e = boxModel e' -> boxAnimations e = boxAnimations e' ->
  openingParticles e = openingParticles e' ->
  timelines e = timelines e' -> dispatched e = dispatched e' ->
  e = e'.
Proof. destruct e, e'; simpl; intros; subst; reflexivity. Qed.

(** What no callback writes. *)
Lemma render_static (tl : Timeline) (p : Q) (e : t) :
  boxModel (fst (render tl p e)) = boxModel e /\
  boxAnimations (fst (render tl p e)) = boxAnimations e /\
  dispatched (fst (render tl p e)) = dispatched e /\
  timelines (fst (render tl p e)) = timelines e /\
  (isBoxOpen e = true -> isBoxOpen (fst (render tl p e)) = true).
Proof.
  unfold render. destruct tl as [a st], e as [o i ie ce c il bm ba n tls d].
  destruct a, st, c; simpl;
    destruct (Qgeb p 1); simpl; try destruct (Qgtb p (1#2)); simpl;
    repeat split; auto.
Qed.

Lemma renderAll_static (tls : list Timeline) :
  forall (samples : list Q) (e : t),
    boxModel (fst (renderAll tls samples e)) = boxModel e /\
    boxAnimations (fst (renderAll tls samples e)) = boxAnimations e /\
    dispatched (fst (renderAll tls samples e)) = dispatched e /\
    (isBoxOpen e = true -> isBoxOpen (fst (renderAll tls samples e)) = true).
Proof.
  induction tls as [|tl tls IH]; intros samples e; [simpl; auto|].
  destruct samples as [|p samples]; [simpl; auto|].
  simpl. pose proof (render_static tl p e) as Hr.
  destruct (render tl p e) as [e1 r]. simpl in Hr.
  pose proof (IH samples e1) as Hs.
  destruct (renderAll tls samples e1) as [e2 rest]. simpl in *.
  destruct Hr as (H1 & H2 & H3 & _ & H5), Hs as (K1 & K2 & K3 & K4).
  repeat split; try congruence. auto.
Qed.

Lemma tick_static (samples : list Q) (e : t) :
  boxModel (tick samples e) = boxModel e /\
  boxAnimations (tick samples e) = boxAnimations e /\
  dispatched (tick samples e) = dispatched e /\
  (isBoxOpen e = true -> isBoxOpen (tick samples e) = true).
Proof.
  unfold tick. pose proof (renderAll_static (timelines e) samples e) as H.
  destruct (renderAll (timelines e) samples e) as [e' tls]. exact H.
Qed.

Lemma run_app (xs ys : list Input) (e : t) :
  run (xs ++ ys) e = run ys (run xs e).
Proof. unfold run. apply fold_left_app. Qed.

(** Every listener either leaves the state alone, puts one timeline in
    flight, or dispatches the tap event, possibly after a new timeline. *)
Lemma listener_effect (i : Input) (e : t) :
  (exists samples, i = Ticker samples) \/ i = ModelLoaded \/
  after i e = e \/
  (exists a, after i e = newTimeline a e) \/
  after i e = dispatchEvent "experienceTap"%string e \/
  (exists a, after i e = dispatchEvent "experienceTap"%string (newTimeline a e)).
Proof.
  destruct i as [|samples|code|hit|hit|  | |a]; eauto;
    unfold after, deliver, keydown, click, ResponsiveHandler.handleTap,
           exitIfInside, actionButton, testButton, call, run;
    destruct e as [o i ie ce c il bm ba n tls d]; simpl.
  all: try destruct (String.eqb code "Space").
  all: try destruct hit.
  all: try destruct a.
  all: destruct o, i, ie, bm, ba; simpl.
  all: solve [ do 2 right; left; reflexivity
             | do 3 right; left; eexists; reflexivity
             | do 4 right; left; reflexivity
             | do 5 right; eexists; reflexivity ].
Qed.

Lemma after_isBoxOpen (i : Input) (e : t) :
  isBoxOpen e = true -> isBoxOpen (after i e) = true.
Proof.
  intros H.
  destruct (listener_effect i e)
    as [[s ->]|[->|[->|[[a ->]|[->|[a ->]]]]]]; auto.
  unfold after; simpl. now apply tick_static.
Qed.

Lemma after_bound (i : Input) (e : t) :
  boxModel e = true -> boxAnimations e = true ->
  boxModel (after i e) = true /\ boxAnimations (after i e) = true.
Proof.
  intros Hm Ha.
  destruct (listener_effect i e)
    as [[s ->]|[->|[->|[[a ->]|[->|[a ->]]]]]]; auto.
  unfold after; simpl. destruct (tick_static s e) as (-> & -> & _). auto.
Qed.

End InputFacts.

Section InputInvariants.
Import BoxExperience Inputs.

Lemma run_isBoxOpen (inputs : list Input) :
  forall e : t, isBoxOpen e = true -> isBoxOpen (run inputs e) = true.
Proof.
  induction inputs as [|i inputs IH]; intros e H; [exact H|].
  simpl. apply IH. now apply after_isBoxOpen.
Qed.

(** X1: the box never closes again.  Whatever inputs arrive, in whatever
    order, once [isBoxOpen] is set it stays set. *)
Theorem box_never_recloses (pre post : list Input) (e : t) :
  isBoxOpen (run pre e) = true ->
  isBoxOpen (run (pre ++ post) e) = true.
Proof.
  intros H. rewrite run_app. now apply run_isBoxOpen.
Qed.

(** [box_never_recloses] on a session that opens, enters and leaves. *)
Lemma box_never_recloses_witness :
  isBoxOpen (run [ModelLoaded; Keydown "Space"%string; Ticker [1]] constructed) = true /\
  isBoxOpen (run ([ModelLoaded; Keydown "Space"%string; Ticker [1]]
                  ++ [Click true; Ticker [1]; LeaveButton; Ticker [1#4]])
                 constructed) = true.
Proof.
  split; [reflexivity|].
  exact (box_never_recloses
           [ModelLoaded; Keydown "Space"%string; Ticker [1]]
           [Click true; Ticker [1]; LeaveButton; Ticker [1#4]]
           constructed eq_refl).
Defined.

Lemma run_bound (inputs : list Input) :
  forall e : t,
    boxModel e = true -> boxAnimations e = true ->
    boxModel (run inputs e) = true /\ boxAnimations (run inputs e) = true.
Proof.
  induction inputs as [|i inputs IH]; intros e Hm Ha; [auto|].
  simpl. destruct (after_bound i e Hm Ha). now apply IH.
Qed.

Lemma deliver_bound (i : Input) (e : t) :
  boxModel e = true -> boxAnimations e = true ->
  exists e', deliver i e = Returned e'.
Proof.
  intros Hm Ha.
  destruct i as [|samples|code|hit|hit|  | |a];
    unfold deliver, keydown, click, ResponsiveHandler.handleTap,
           exitIfInside, actionButton, testButton, call;
    rewrite ?Hm, ?Ha; simpl; eauto.
  - destruct (String.eqb code "Space"), (isBoxOpen e), (isInsideBox e);
      simpl; eauto.
  - destruct (interactionEnabled e), hit, (isBoxOpen e), (isInsideBox e);
      simpl; eauto.
  - destruct hit, (isBoxOpen e), (isInsideBox e); simpl; eauto.
  - destruct (isInsideBox e); eauto.
  - destruct (isBoxOpen e), (isInsideBox e); simpl; eauto.
Qed.

(** X2: once the model has loaded no listener throws, whatever came before
    and whatever comes after. *)
Theorem no_throw_after_load (before inputs : list Input) (i : Input) (e : t) :
  exists e',
    deliver i (run (before ++ ModelLoaded :: inputs) e) = Returned e'.
Proof.
  rewrite run_app. simpl.
  assert (Hb : boxModel (after ModelLoaded (run before e)) = true /\
               boxAnimations (after ModelLoaded (run before e)) = true).
  { split; reflexivity. }
  destruct Hb as [Hm Ha].
  destruct (run_bound inputs _ Hm Ha) as [Hm' Ha'].
  now apply deliver_bound.
Qed.

Lemma after_before_load (i : Input) (d : list string) :
  isModelLoaded i = false ->
  after i (set_dispatched d constructed) =
    set_dispatched (d ++ if isTap i then ["experienceTap"%string] else [])
                   constructed.
Proof.
  intros H.
  destruct i as [|samples|code|hit|hit|  | |a]; try discriminate;
    unfold after, deliver; simpl; rewrite ?app_nil_r; try reflexivity.
  all: try (unfold keydown; destruct (String.eqb code "Space"); reflexivity).
  all: try (destruct hit; reflexivity).
Qed.

Lemma run_before_load (inputs : list Input) :
  forall d : list string,
    forallb (fun i => negb (isModelLoaded i)) inputs = true ->
    run inputs (set_dispatched d constructed) =
      set_dispatched
        (d ++ repeat "experienceTap"%string (List.length (filter isTap inputs)))
        constructed.
Proof.
  induction inputs as [|i inputs IH]; intros d H; simpl.
  - now rewrite app_nil_r.
  - simpl in H. apply andb_true_iff in H. destruct H as [Hi Hrest].
    apply negb_true_iff in Hi. rewrite (after_before_load i d Hi).
    rewrite (IH _ Hrest). destruct (isTap i); simpl.
    + now rewrite <- app_assoc.
    + now rewrite app_nil_r.
Qed.

(** X3: until the model has loaded, no input changes the experience: the
    state is the constructed one plus one [experienceTap] event per tap.
    In that state the Space key, a click and the action button throw; a
    tap, the leave buttons and the test panel return. *)
Theorem before_load (inputs : list Input) :
  forallb (fun i => negb (isModelLoaded i)) inputs = true ->
  run inputs constructed =
    set_dispatched
      (repeat "experienceTap"%string (List.length (filter isTap inputs)))
      constructed /\
  deliver (Keydown "Space"%string) (run inputs constructed) = TypeError /\
  (forall hit, deliver (Click hit) (run inputs constructed) = TypeError) /\
  deliver ActionButton (run inputs constructed) = TypeError /\
  (forall hit, exists e', deliver (Tap hit) (run inputs constructed) = Returned e') /\
  deliver LeaveButton (run inputs constructed)
    = Returned (run inputs constructed) /\
  (forall a, deliver (TestButton a) (run inputs constructed)
             = Returned (run inputs constructed)).
Proof.
  intros H. pose proof (run_before_load inputs [] H) as Hr.
  simpl in Hr. change (set_dispatched [] constructed) with constructed in Hr.
  rewrite Hr. repeat split; try reflexivity.
  - intros hit. destruct hit; eexists; reflexivity.
Qed.

(** [before_load] on three inputs that arrive too early. *)
Lemma before_load_witness :
  forallb (fun i => negb (isModelLoaded i))
          [Tap true; Keydown "Space"%string; Click true] = true /\
  run [Tap true; Keydown "Space"%string; Click true] constructed =
    set_dispatched ["experienceTap"%string] constructed.
Proof.
  split; [reflexivity|].
  exact (proj1 (before_load [Tap true; Keydown "Space"%string; Click true]
                            eq_refl)).
Defined.

Lemma render_gate (tl : Timeline) (p : Q) (e : t) :
  match snd (render tl p e) with
  | Some tl' => started tl' = true
  | None => interactionEnabled (fst (render tl p e)) = true
  end.
Proof.
  unfold render. destruct (Qgeb p 1); simpl; [|reflexivity].
  destruct (anim tl); reflexivity.
Qed.

Lemma renderAll_gate (tls : list Timeline) :
  forall (samples : list Q) (e : t),
    unstarted (snd (renderAll tls samples e)) ->
    interactionEnabled (fst (renderAll tls samples e)) = true \/
    renderAll tls samples e = (e, tls).
Proof.
  induction tls as [|tl tls IH]; intros samples e; [right; reflexivity|].
  destruct samples as [|p samples]; [right; reflexivity|].
  simpl. pose proof (render_gate tl p e) as Hg.
  destruct (render tl p e) as [e1 r]. simpl in Hg.
  pose proof (IH samples e1) as Hs.
  destruct (renderAll tls samples e1) as [e2 rest]. simpl in *.
  destruct r as [tl'|]; intros Hu.
  - inversion Hu; subst. congruence.
  - left. destruct (Hs Hu) as [H|H]; [exact H|].
    inversion H; subst. exact Hg.
Qed.

Lemma tick_gate (samples : list Q) (e : t) :
  (unstarted (timelines e) -> interactionEnabled e = true) ->
  unstarted (timelines (tick samples e)) ->
  interactionEnabled (tick samples e) = true.
Proof.
  intros Inv. unfold tick.
  pose proof (renderAll_gate (timelines e) samples e) as H.
  destruct (renderAll (timelines e) samples e) as [e' tls]. simpl in *.
  intros Hu. destruct (H Hu) as [K|K]; [exact K|].
  inversion K; subst. now apply Inv.
Qed.

Lemma after_gate (i : Input) (e : t) :
  (unstarted (timelines e) -> interactionEnabled e = true) ->
  unstarted (timelines (after i e)) ->
  interactionEnabled (after i e) = true.
Proof.
  intros Inv.
  destruct (listener_effect i e)
    as [[s ->]|[->|[->|[[a ->]|[->|[a ->]]]]]]; simpl; auto.
  - unfold after; simpl. now apply tick_gate.
  - intros Hu. apply Inv. unfold unstarted in *.
    now apply Forall_app in Hu.
  - intros Hu. apply Inv. unfold unstarted in *.
    now apply Forall_app in Hu.
Qed.

Lemma run_gate (inputs : list Input) :
  forall e : t,
    (unstarted (timelines e) -> interactionEnabled e = true) ->
    unstarted (timelines (run inputs e)) ->
    interactionEnabled (run inputs e) = true.
Proof.
  induction inputs as [|i inputs IH]; intros e Inv; [exact Inv|].
  simpl. apply IH. now apply after_gate.
Qed.

(** X4: the click gate cannot stay shut.  After any inputs,
    [interactionEnabled] is false only while a timeline that has started is
    still in flight; in particular it is true whenever nothing is in
    flight. *)
Theorem interaction_gate_reopens (inputs : list Input) :
  (Forall (fun tl => started tl = false) (timelines (run inputs constructed)) ->
     interactionEnabled (run inputs constructed) = true) /\
  (timelines (run inputs constructed) = [] ->
     interactionEnabled (run inputs constructed) = true).
Proof.
  assert (H : unstarted (timelines (run inputs constructed)) ->
              interactionEnabled (run inputs constructed) = true).
  { apply run_gate. reflexivity. }
  split; [exact H|]. intros Hn. apply H. rewrite Hn. constructor.
Qed.

(** [interaction_gate_reopens] after two overlapping transitions. *)
Lemma interaction_gate_reopens_witness :
  timelines (run [ModelLoaded; Keydown "Space"%string; Keydown "Space"%string;
                  Ticker [1#2; 1]; Ticker [1]] constructed) = [] /\
  interactionEnabled
    (run [ModelLoaded; Keydown "Space"%string; Keydown "Space"%string;
          Ticker [1#2; 1]; Ticker [1]] constructed) = true.
Proof.
  split; [reflexivity|].
  exact (proj2 (interaction_gate_reopens
                  [ModelLoaded; Keydown "Space"%string; Keydown "Space"%string;
                   Ticker [1#2; 1]; Ticker [1]]) eq_refl).
Defined.

End InputInvariants.

(** ** Whole transitions *)

Section WholeTransitions.
Import BoxExperience Inputs.

Lemma inflight_start (a : Animation) (e : t) :
  timelines e = [] -> inflight a e (newTimeline a e).
Proof.
  intros Ht. unfold inflight, newTimeline. simpl. rewrite Ht.
  repeat split; auto. exists false. split; [reflexivity|discriminate].
Qed.

Lemma inflight_tick (a : Animation) (q : Q) (e0 e : t) :
  (q < 1)%Q -> inflight a e0 e -> inflight a e0 (tick [q] e).
Proof.
  intros Hq ((st & Ht & Hce) & Ho & Hi & Hl & Hm & Ha & Hn & Hd & Hc).
  rewrite (tick_single _ _ _ Ht), (render_running _ _ _ Hq).
  destruct e as [o i ie ce c il bm ba n tls d]. simpl in *.
  unfold inflight.
  destruct a, st; simpl; try destruct (Qgtb q (1#2)); try destruct c; simpl;
    repeat split; eauto; intros; try discriminate; auto;
    eexists; (split; [reflexivity|]); intros; try discriminate; auto.
Qed.

Lemma inflight_play (a : Animation) (running : list Q) (e0 : t) :
  forall e : t,
    Forall (fun q => (q < 1)%Q) running ->
    inflight a e0 e -> inflight a e0 (play running e).
Proof.
  induction running as [|q running IH]; intros e Hr He; [exact He|].
  inversion Hr; subst. unfold play in *. simpl.
  apply IH; [assumption|]. now apply inflight_tick.
Qed.

Lemma inflight_complete (a : Animation) (c : Q) (e0 e : t) :
  (1 <= c)%Q -> inflight a e0 e ->
  timelines (tick [c] e) = [] /\
  interactionEnabled (tick [c] e) = true /\
  interiorLight_visible (tick [c] e) =
    (match a with openAnim => true | _ => interiorLight_visible e0 end) /\
  isBoxOpen (tick [c] e) =
    (match a with openAnim => true | _ => isBoxOpen e0 end) /\
  isInsideBox (tick [c] e) =
    (match a with
     | openAnim => isInsideBox e0
     | enterBoxAnim => true
     | exitBoxAnim => false
     end) /\
  openingParticles (tick [c] e) =
    (match a with openAnim => S (openingParticles e0) | _ => openingParticles e0 end) /\
  activeCamera (tick [c] e) =
    (match handover a with Some cam => cam | None => activeCamera e0 end) /\
  (a <> exitBoxAnim -> controls_enabled (tick [c] e) = false) /\
  boxModel (tick [c] e) = boxModel e0 /\
  boxAnimations (tick [c] e) = boxAnimations e0 /\
  dispatched (tick [c] e) = dispatched e0.
Proof.
  intros Hc ((st & Ht & Hce) & Ho & Hi & Hl & Hm & Ha & Hn & Hd & Hcam).
  rewrite (tick_single _ _ _ Ht), (render_done _ _ _ Hc).
  destruct e as [o i ie ce cam il bm ba n tls d]. simpl in *.
  pose proof (Qgtb_true _ _ (late_of_done _ Hc)) as Hlate.
  destruct a, st; simpl; rewrite ?Hlate; try destruct cam; simpl;
    repeat split; auto; try congruence;
    try (symmetry; apply Hcam; reflexivity); try (apply Hcam; reflexivity);
    intros; apply Hce; reflexivity.
Qed.

Lemma complete_run (a : Animation) (samples : list Q) (e : t) :
  completes samples -> timelines e = [] ->
  exists running c,
    samples = running ++ [c] /\ (1 <= c)%Q /\
    play samples (newTimeline a e) = tick [c] (play running (newTimeline a e)) /\
    inflight a e (play running (newTimeline a e)).
Proof.
  intros (running & c & -> & Hr & Hc) Ht. exists running, c.
  split; [reflexivity|]. split; [exact Hc|]. split; [apply play_snoc|].
  apply inflight_play; [exact Hr|]. now apply inflight_start.
Qed.

(** X5: an [open()] that runs to completion, with nothing else in flight,
    ends in one determined state whatever the progress samples were: the
    box open, the interior light on, interaction enabled, one burst of
    particles more, and orbit controls off: [onComplete] does not switch
    them back on. *)
Theorem open_completed (e : t) (samples : list Q) :
  timelines e = [] -> isBoxOpen e = false -> completes samples ->
  play samples (open e) =
    mk true (isInsideBox e) true false (activeCamera e) true
       (boxModel e) (boxAnimations e) (S (openingParticles e)) []
       (dispatched e).
Proof.
  intros Ht Ho Hs. unfold open. rewrite Ho.
  destruct (complete_run openAnim samples e Hs Ht)
    as (running & c & _ & Hc & -> & Hin).
  destruct (inflight_complete openAnim c e _ Hc Hin)
    as (H1 & H2 & H3 & H4 & H5 & H6 & H7 & H8 & H9 & H10 & H11).
  apply t_ext; simpl; auto. apply H8. discriminate.
Qed.

(** [open_completed] on the loaded experience with samples 0.3, 0.9, 1. *)
Lemma open_completed_witness :
  timelines loaded = [] /\ isBoxOpen loaded = false /\
  completes [3#10; 9#10; 1] /\
  controls_enabled (play [3#10; 9#10; 1] (open loaded)) = false.
Proof.
  assert (Hs : completes [3#10; 9#10; 1]).
  { exists [3#10; 9#10], 1. repeat split.
    - repeat constructor.
    - apply Qle_refl. }
  split; [reflexivity|]. split; [reflexivity|]. split; [exact Hs|].
  exact (f_equal controls_enabled
           (open_completed loaded [3#10; 9#10; 1] eq_refl eq_refl Hs)).
Defined.

(** X6: an [enterBox()] that runs to completion, with nothing else in
    flight, ends with [isInsideBox] set, the internal camera active,
    interaction enabled and orbit controls off, whatever the progress
    samples were and whichever camera was active before. *)
Theorem enterBox_completed (e : t) (samples : list Q) :
  timelines e = [] -> isInsideBox e = false -> completes samples ->
  play samples (enterBox e) =
    mk (isBoxOpen e) true true false internalCamera (interiorLight_visible e)
       (boxModel e) (boxAnimations e) (openingParticles e) []
       (dispatched e).
Proof.
  intros Ht Hi Hs. unfold enterBox. rewrite Hi.
  destruct (complete_run enterBoxAnim samples e Hs Ht)
    as (running & c & _ & Hc & -> & Hin).
  destruct (inflight_complete enterBoxAnim c e _ Hc Hin)
    as (H1 & H2 & H3 & H4 & H5 & H6 & H7 & H8 & H9 & H10 & H11).
  apply t_ext; simpl; auto. apply H8. discriminate.
Qed.

(** [enterBox_completed] on the opened box with samples 0.5, 1. *)
Lemma enterBox_completed_witness :
  timelines opened = [] /\ isInsideBox opened = false /\
  completes [1#2; 1] /\
  activeCamera (play [1#2; 1] (enterBox opened)) = internalCamera.
Proof.
  assert (Hs : completes [1#2; 1]).
  { exists [1#2], 1. repeat split.
    - repeat constructor.
    - apply Qle_refl. }
  split; [reflexivity|]. split; [reflexivity|]. split; [exact Hs|].
  exact (f_equal activeCamera
           (enterBox_completed opened [1#2; 1] eq_refl eq_refl Hs)).
Defined.

(** X7: going in and coming back out.  From an open box seen through the
    external camera, with nothing in flight, a completed [enterBox()]
    followed by a completed [exitBox()] restores every field of the state
    except that interaction and orbit controls end up enabled. *)
Theorem enter_then_exit (e : t) (entering leaving : list Q) :
  timelines e = [] -> isBoxOpen e = true -> isInsideBox e = false ->
  activeCamera e = externalCamera ->
  completes entering -> completes leaving ->
  play leaving (exitBox (play entering (enterBox e))) =
    set_interactionEnabled true (set_controls_enabled true e).
Proof.
  intros Ht Ho Hi Hcam Hin Hout.
  set (e1 := mk (isBoxOpen e) true true false internalCamera
                (interiorLight_visible e) (boxModel e) (boxAnimations e)
                (openingParticles e) [] (dispatched e)).
  assert (Hentered : play entering (enterBox e) = e1).
  { unfold enterBox. rewrite Hi.
    destruct (complete_run enterBoxAnim entering e Hin Ht)
      as (running & c & _ & Hc & -> & Hfl).
    destruct (inflight_complete enterBoxAnim c e _ Hc Hfl)
      as (H1 & H2 & H3 & H4 & H5 & H6 & H7 & H8 & H9 & H10 & H11).
    apply t_ext; subst e1; simpl; auto. apply H8. discriminate. }
  rewrite Hentered.
  assert (Hx : exitBox e1 = newTimeline exitBoxAnim e1) by reflexivity.
  destruct (complete_run exitBoxAnim leaving e1 Hout eq_refl)
    as (running & c & Heq & Hc & Hplay & Hfl).
  rewrite Hx, Hplay.
  destruct (inflight_complete exitBoxAnim c e1 _ Hc Hfl)
    as (H1 & H2 & H3 & H4 & H5 & H6 & H7 & _ & H9 & H10 & H11).
  assert (Hex : exiting (play running (newTimeline exitBoxAnim e1))).
  { destruct Hout as (r' & c' & Hs' & Hr' & _).
    rewrite Hs' in Heq. apply app_inj_tail in Heq. destruct Heq as [-> _].
    apply exiting_play; [exact Hr'|].
    rewrite <- Hx. apply exitBox_exiting; subst e1; simpl; auto. }
  destruct (exiting_complete c _ Hc Hex) as (_ & _ & Hce & _).
  apply t_ext; simpl; subst e1; simpl in *; auto; congruence.
Qed.

(** [enter_then_exit] on the opened box. *)
Lemma enter_then_exit_witness :
  timelines opened = [] /\ stateOf opened = Some Open /\
  completes [1#4; 1] /\ completes [3#5; 1] /\
  play [3#5; 1] (exitBox (play [1#4; 1] (enterBox opened))) =
    set_interactionEnabled true (set_controls_enabled true opened).
Proof.
  assert (Hin : completes [1#4; 1]).
  { exists [1#4], 1. repeat split; [repeat constructor|apply Qle_refl]. }
  assert (Hout : completes [3#5; 1]).
  { exists [3#5], 1. repeat split; [repeat constructor|apply Qle_refl]. }
  split; [reflexivity|]. split; [reflexivity|].
  split; [exact Hin|]. split; [exact Hout|].
  exact (enter_then_exit opened [1#4; 1] [3#5; 1]
           eq_refl eq_refl eq_refl eq_refl Hin Hout).
Defined.

End WholeTransitions.

(** ** The adaptive controller over many windows *)

Section LadderFacts.
Import ResponsiveHandler Ladder.

Lemma evaluate_cases (h : t) (fps : Q) :
  evaluate h fps =
    if Qltb fps 30 then
      let h1 := set_lowFpsCount (S (lowFpsCount (fpsMonitor h)))
                                (set_avgFps fps h) in
      if Nat.leb 3 (S (lowFpsCount (fpsMonitor h))) then
        andThen
          (match qualityLevel h with
           | high => applyQualitySettings (set_qualityLevel medium h1)
           | medium => applyQualitySettings (set_qualityLevel low h1)
           | _ => Normal h1
           end)
          (fun h2 => Normal (set_lowFpsCount 0 h2))
      else Normal h1
    else
      let h1 := set_lowFpsCount 0 (set_avgFps fps h) in
      if Qgtb fps 55 then
        match qualityLevel h with
        | low => if isMobile h then Normal h1
                 else applyQualitySettings (set_qualityLevel medium h1)
        | medium => if isMobile h || isTablet h then Normal h1
                    else applyQualitySettings (set_qualityLevel high h1)
        | _ => Normal h1
        end
      else Normal h1.
Proof.
  unfold evaluate, adjustQualityBasedOnPerformance.
  destruct h as [mob tab l [fr lt av cnt ci] lg p]. simpl.
  destruct (Qltb fps 30).
  - destruct cnt as [|[|cnt]]; destruct l; reflexivity.
  - destruct (Qgtb fps 55), l, mob, tab; reflexivity.
Qed.

(** Case analysis on everything an evaluation reads. *)
Ltac evaluate_by_cases h fps :=
  rewrite ?(evaluate_cases h fps);
  destruct h as [mob tab l [fr lt av cnt ci] lg p]; simpl;
  destruct (Qltb fps 30);
  [ destruct cnt as [|[|cnt]]; destruct l; destruct p as [|[|] [|]]; simpl
  | destruct (Qgtb fps 55), l, mob, tab; destruct p as [|[|] [|]]; simpl ].

(** X8: after an evaluation that returns, [lowFpsCount] is at most 2,
    whatever the handler and the frame rate.  After one that throws it is
    0 (thrown while upgrading) or the incremented count of 3 or more
    (thrown while downgrading): the reset is skipped.  Three windows at
    20 from high, the third with particles that have no size attribute,
    leave it at 3. *)
Theorem lowFpsCount_below_three (h : t) (fps : Q) :
  (returned (evaluate h fps) = true ->
     lowFpsCount (fpsMonitor (state (evaluate h fps))) < 3)%nat /\
  (returned (evaluate h fps) = false ->
     lowFpsCount (fpsMonitor (state (evaluate h fps))) = 0 \/
     (lowFpsCount (fpsMonitor (state (evaluate h fps)))
        = S (lowFpsCount (fpsMonitor h)) /\
      3 <= S (lowFpsCount (fpsMonitor h))))%nat /\
  (forall mobile tablet : bool,
     lowFpsCount (fpsMonitor (state
       (evaluations [(NoParticles, 20); (NoParticles, 20);
                     (Points true false, 20)]
                    (atLevel mobile tablet high)))) = 3%nat).
Proof.
  split; [|split].
  - evaluate_by_cases h fps; intros K; try discriminate K; lia.
  - evaluate_by_cases h fps; intros K; try discriminate K; auto;
      right; split; [reflexivity|lia].
  - intros mobile tablet. destruct mobile, tablet; reflexivity.
Qed.

(** X9: one evaluation moves the level by at most one step, keeps a level
    of the ladder low, medium, high on the ladder, and leaves any other
    level as it is; the device flags are never touched.  This holds of
    the state the evaluation leaves, whether it returns or throws. *)
Theorem one_step_per_evaluation (h : t) (fps : Q) :
  (rank (qualityLevel (state (evaluate h fps))) <= S (rank (qualityLevel h)))%nat /\
  (rank (qualityLevel h) <= S (rank (qualityLevel (state (evaluate h fps)))))%nat /\
  onLadder (qualityLevel (state (evaluate h fps))) = onLadder (qualityLevel h) /\
  (onLadder (qualityLevel h) = false ->
     qualityLevel (state (evaluate h fps)) = qualityLevel h) /\
  isMobile (state (evaluate h fps)) = isMobile h /\
  isTablet (state (evaluate h fps)) = isTablet h.
Proof.
  evaluate_by_cases h fps; repeat split; auto; lia.
Qed.

(** X10: the line "Quality set to" is written exactly when an evaluation
    changes the level and [applyQualitySettings] returns: the log then
    grows by the new level, and is left alone otherwise.  An evaluation
    throws only on a change to medium while the particles have a position
    but no size attribute, and then the level has changed and nothing is
    logged. *)
Theorem settings_applied_on_change (h : t) (fps : Q) :
  qualityLog (state (evaluate h fps)) =
    qualityLog h ++
      (if negb (Level_eqb (qualityLevel (state (evaluate h fps)))
                          (qualityLevel h))
          && returned (evaluate h fps)
       then [qualityLevel (state (evaluate h fps))] else []) /\
  (returned (evaluate h fps) = false <->
     qualityLevel (state (evaluate h fps)) = medium /\
     qualityLevel h <> medium /\
     particles h = Points true false).
Proof.
  split.
  - evaluate_by_cases h fps; rewrite ?app_nil_r; reflexivity.
  - evaluate_by_cases h fps;
      (split;
       [ intros K; try discriminate K;
         (split; [reflexivity|split; [discriminate|reflexivity]])
       | intros (K1 & K2 & K3); try discriminate K1; try discriminate K3;
         try (exfalso; apply K2; reflexivity); reflexivity ]).
Qed.

Lemma evaluate_flags (h : t) (fps : Q) :
  isMobile (state (evaluate h fps)) = isMobile h /\
  isTablet (state (evaluate h fps)) = isTablet h.
Proof.
  evaluate_by_cases h fps; auto.
Qed.

(** What every window preserves, every sequence of windows preserves,
    also when it is cut short by a throw. *)
Lemma evaluations_preserve (P : t -> Prop) :
  (forall h w, P h -> P (state (window h w))) ->
  forall ws h, P h -> P (state (evaluations ws h)).
Proof.
  intros Hstep. induction ws as [|w ws IH]; intros h Hh; [exact Hh|].
  simpl. pose proof (Hstep h w Hh) as Hw.
  destruct (window h w) as [h'|h']; simpl in *.
  - now apply IH.
  - exact Hw.
Qed.

Lemma evaluations_flags (ws : list (Particles * Q)) (h : t) :
  isMobile (state (evaluations ws h)) = isMobile h /\
  isTablet (state (evaluations ws h)) = isTablet h.
Proof.
  apply (evaluations_preserve
           (fun h' => isMobile h' = isMobile h /\ isTablet h' = isTablet h));
    [|auto].
  intros h0 w [H1 H2]. unfold window.
  destruct (evaluate_flags (set_particles (fst w) h0) (snd w)) as [-> ->].
  auto.
Qed.

Lemma evaluate_ceiling (h : t) (fps : Q) :
  (isMobile h = true -> qualityLevel h = low ->
     qualityLevel (state (evaluate h fps)) = low) /\
  (isMobile h || isTablet h = true -> (rank (qualityLevel h) <= 1)%nat ->
     (rank (qualityLevel (state (evaluate h fps))) <= 1)%nat).
Proof.
  evaluate_by_cases h fps; split; intros;
    try discriminate; auto; simpl in *; try lia.
Qed.

(** [setupAdaptiveQuality] leaves the flags it was given and the level
    that goes with them, whatever its first frame computes. *)
Lemma setupAdaptiveQuality_level (F : Float64) (mobile tablet : bool)
      (p : Particles) (now now' : Q) :
  isMobile (state (setupAdaptiveQuality F mobile tablet p now now')) = mobile /\
  isTablet (state (setupAdaptiveQuality F mobile tablet p now now')) = tablet /\
  qualityLevel (state (setupAdaptiveQuality F mobile tablet p now now')) =
    (if mobile then low else if tablet then medium else high).
Proof.
  unfold setupAdaptiveQuality, applyQualitySettings.
  destruct mobile, tablet, p as [|[|] [|]]; simpl; auto;
    unfold monitorPerformance; simpl;
    destruct (Qgeb _ 2000); simpl; auto;
    unfold adjustQualityBasedOnPerformance; simpl;
    destruct (Qltb _ 30); simpl; auto;
    destruct (Qgtb _ 55); simpl; auto.
Qed.

(** X11: the device ceiling holds for good.  After [setupAdaptiveQuality]
    on a mobile device the level is low after any sequence of
    evaluations; on a tablet it is low or medium after any sequence;
    whatever the particles, the clock and the rounding. *)
Theorem device_ceiling (F : Float64) (ws : list (Particles * Q))
        (tablet : bool) (p : Particles) (now now' : Q) :
  qualityLevel
    (state (andThen (setupAdaptiveQuality F true tablet p now now')
                    (evaluations ws))) = low /\
  (rank (qualityLevel
     (state (andThen (setupAdaptiveQuality F false true p now now')
                     (evaluations ws)))) <= 1)%nat.
Proof.
  assert (Hm : forall ws h, isMobile h = true /\ qualityLevel h = low ->
                 isMobile (state (evaluations ws h)) = true /\
                 qualityLevel (state (evaluations ws h)) = low).
  { clear. intros ws h Hh.
    apply (evaluations_preserve
             (fun h' => isMobile h' = true /\ qualityLevel h' = low));
      [|exact Hh].
    intros h0 w [H1 H2]. unfold window. split.
    - now rewrite (proj1 (evaluate_flags (set_particles (fst w) h0) (snd w))).
    - now apply evaluate_ceiling. }
  assert (Ht : forall ws h,
                 isMobile h || isTablet h = true /\
                 (rank (qualityLevel h) <= 1)%nat ->
                 isMobile (state (evaluations ws h))
                   || isTablet (state (evaluations ws h)) = true /\
                 (rank (qualityLevel (state (evaluations ws h))) <= 1)%nat).
  { clear. intros ws h Hh.
    apply (evaluations_preserve
             (fun h' => isMobile h' || isTablet h' = true /\
                        (rank (qualityLevel h') <= 1)%nat));
      [|exact Hh].
    intros h0 w [H1 H2]. unfold window. split.
    - destruct (evaluate_flags (set_particles (fst w) h0) (snd w)) as [-> ->].
      exact H1.
    - now apply evaluate_ceiling. }
  split.
  - destruct (setupAdaptiveQuality_level F true tablet p now now')
      as (H1 & _ & H3).
    destruct (setupAdaptiveQuality F true tablet p now now') as [h|h];
      simpl in *.
    + now apply Hm.
    + exact H3.
  - destruct (setupAdaptiveQuality_level F false true p now now')
      as (H1 & H2 & H3).
    destruct (setupAdaptiveQuality F false true p now now') as [h|h];
      simpl in *.
    + apply Ht. rewrite H1, H2, H3. simpl. split; [reflexivity|lia].
    + rewrite H3. simpl. lia.
Qed.

Lemma evaluate_no_drop (h : t) (fps : Q) :
  (if Qltb fps 30 then Nat.leb 3 (S (lowFpsCount (fpsMonitor h))) else false)
    = false ->
  (rank (qualityLevel h) <= rank (qualityLevel (state (evaluate h fps))))%nat /\
  lowFpsCount (fpsMonitor (state (evaluate h fps))) =
    if Qltb fps 30 then S (lowFpsCount (fpsMonitor h)) else 0%nat.
Proof.
  rewrite evaluate_cases.
  destruct h as [mob tab l [fr lt av cnt ci] lg p]. simpl.
  destruct (Qltb fps 30).
  - intros H. destruct cnt as [|[|cnt]]; simpl in *; try discriminate; auto.
  - intros _. destruct (Qgtb fps 55), l, mob, tab; destruct p as [|[|] [|]];
      simpl; split; auto; lia.
Qed.

Lemma no_drop_unless_reached (ws : list (Particles * Q)) :
  forall h : t,
    reaches (lowFpsCount (fpsMonitor h)) (map snd ws) = false ->
    (rank (qualityLevel h) <= rank (qualityLevel (state (evaluations ws h))))%nat.
Proof.
  induction ws as [|[p fps] ws IH]; intros h H; [simpl; lia|].
  simpl in H.
  assert (Hstep : (if Qltb fps 30
                   then Nat.leb 3 (S (lowFpsCount (fpsMonitor h)))
                   else false) = false).
  { destruct (Qltb fps 30); [|reflexivity].
    apply orb_false_iff in H. destruct H as [H _]. exact H. }
  destruct (evaluate_no_drop (set_particles p h) fps Hstep) as [Hr Hc].
  change (evaluations ((p, fps) :: ws) h)
    with (andThen (evaluate (set_particles p h) fps) (evaluations ws)).
  simpl in Hr, Hc.
  destruct (evaluate (set_particles p h) fps) as [h'|h']; simpl in *.
  - apply Nat.le_trans with (rank (qualityLevel h')); [exact Hr|].
    apply IH. rewrite Hc.
    destruct (Qltb fps 30); [|exact H].
    apply orb_false_iff in H. now destruct H.
  - exact Hr.
Qed.

Lemma threeLows_prefix (fpss : list Q) :
  threeLows fpss = false -> lowPrefix 3 fpss = false.
Proof.
  destruct fpss as [|a rest]; [reflexivity|].
  intros H. change (lowPrefix 3 (a :: rest) || threeLows rest = false) in H.
  apply orb_false_iff in H. now destruct H.
Qed.

Lemma threeLows_tail (a : Q) (rest : list Q) :
  threeLows (a :: rest) = false -> threeLows rest = false.
Proof.
  intros H. change (lowPrefix 3 (a :: rest) || threeLows rest = false) in H.
  apply orb_false_iff in H. now destruct H.
Qed.

Lemma reaches_of_threeLows (fpss : list Q) :
  forall c : nat,
    (c <= 2)%nat ->
    threeLows fpss = false ->
    lowPrefix (3 - c)%nat fpss = false ->
    reaches c fpss = false.
Proof.
  induction fpss as [|a rest IH]; intros c Hc H3 Hp; [reflexivity|].
  pose proof (threeLows_tail a rest H3) as Ht.
  simpl. destruct (Qltb a 30) eqn:Ea.
  - destruct c as [|[|[|c]]]; try lia; simpl in Hp; rewrite Ea in Hp;
      simpl in Hp.
    + simpl. apply IH; [lia|exact Ht|exact Hp].
    + simpl. apply IH; [lia|exact Ht|exact Hp].
    + discriminate.
  - apply IH; [lia|exact Ht|]. now apply threeLows_prefix.
Qed.

(** X12: a downgrade takes three low windows in a row.  Starting with the
    counter at 0, over any sequence of evaluations in which no three
    consecutive windows are all below 30 FPS the level never ends lower
    than it began, whatever the particles at each window. *)
Theorem no_downgrade_without_three_lows (h : t) (ws : list (Particles * Q)) :
  lowFpsCount (fpsMonitor h) = 0%nat ->
  threeLows (map snd ws) = false ->
  (rank (qualityLevel h) <= rank (qualityLevel (state (evaluations ws h))))%nat.
Proof.
  intros Hc H3. apply no_drop_unless_reached. rewrite Hc.
  apply reaches_of_threeLows; [lia|exact H3|]. now apply threeLows_prefix.
Qed.

(** [no_downgrade_without_three_lows] on windows 20, 20, 40, 20, 20, 60,
    with size-less particles throughout. *)
Lemma no_downgrade_without_three_lows_witness :
  lowFpsCount (fpsMonitor (atLevel false false medium)) = 0%nat /\
  threeLows (map snd [(Points true false, 20); (Points true false, 20);
                      (Points true false, 40); (Points true false, 20);
                      (Points true false, 20); (Points true false, 60)])
    = false /\
  le (rank medium)
    (rank (qualityLevel (state
       (evaluations [(Points true false, 20); (Points true false, 20);
                     (Points true false, 40); (Points true false, 20);
                     (Points true false, 20); (Points true false, 60)]
                    (atLevel false false medium))))).
Proof.
  split; [reflexivity|]. split; [reflexivity|].
  exact (no_downgrade_without_three_lows (atLevel false false medium)
           [(Points true false, 20); (Points true false, 20);
            (Points true false, 40); (Points true false, 20);
            (Points true false, 20); (Points true false, 60)]
           eq_refl eq_refl).
Defined.

Lemma monitorPerformance_idle (F : Float64) (now : Q) (h : t) :
  (fsub F now (lastTime (fpsMonitor h)) < checkInterval (fpsMonitor h))%Q ->
  monitorPerformance F now h =
    Normal
      (set_fpsMonitor
         (mkFpsMonitor (S (frames (fpsMonitor h))) (lastTime (fpsMonitor h))
                       (avgFps (fpsMonitor h)) (lowFpsCount (fpsMonitor h))
                       (checkInterval (fpsMonitor h))) h).
Proof.
  intros H. unfold monitorPerformance. now rewrite (Qgeb_false _ _ H).
Qed.

Lemma monitorPerformance_due (F : Float64) (now : Q) (h : t) :
  (checkInterval (fpsMonitor h) <= fsub F now (lastTime (fpsMonitor h)))%Q ->
  frames (fpsMonitor (state (monitorPerformance F now h))) = 0%nat /\
  lastTime (fpsMonitor (state (monitorPerformance F now h))) = now.
Proof.
  intros H. unfold monitorPerformance. rewrite (Qgeb_true _ _ H).
  unfold adjustQualityBasedOnPerformance.
  destruct h as [mob tab l [fr lt av cnt ci] lg p]. simpl.
  destruct (Qltb _ 30).
  - destruct cnt as [|[|cnt]]; destruct l; destruct p as [|[|] [|]];
      simpl; auto.
  - destruct (Qgtb _ 55), l, mob, tab; destruct p as [|[|] [|]];
      simpl; auto.
Qed.

(** X13: between two checks the controller only counts frames.  Frames at
    which the difference [now - lastTime], as the doubles compute it, is
    below [checkInterval] all return and leave the level, the settings
    log, the counter of low windows, the smoothed rate and [lastTime] as
    they are, and add their number to [frames], whatever the particles
    at each frame.  A frame at which the difference is at least
    [checkInterval] sets [frames] to 0 and [lastTime] to [now]. *)
Theorem no_evaluation_within_interval (F : Float64)
        (fs : list (Particles * Q)) (h : t) :
  Forall (fun f =>
            (fsub F (snd f) (lastTime (fpsMonitor h))
             < checkInterval (fpsMonitor h))%Q)
         fs ->
  returned (monitorFrames F fs h) = true /\
  qualityLevel (state (monitorFrames F fs h)) = qualityLevel h /\
  qualityLog (state (monitorFrames F fs h)) = qualityLog h /\
  lowFpsCount (fpsMonitor (state (monitorFrames F fs h)))
    = lowFpsCount (fpsMonitor h) /\
  avgFps (fpsMonitor (state (monitorFrames F fs h))) = avgFps (fpsMonitor h) /\
  lastTime (fpsMonitor (state (monitorFrames F fs h)))
    = lastTime (fpsMonitor h) /\
  frames (fpsMonitor (state (monitorFrames F fs h))) =
    (frames (fpsMonitor h) + List.length fs)%nat /\
  (forall (p : Particles) (now : Q),
     (checkInterval (fpsMonitor h)
      <= fsub F now (lastTime (fpsMonitor h)))%Q ->
     frames (fpsMonitor (state
       (monitorPerformance F now (set_particles p h)))) = 0%nat /\
     lastTime (fpsMonitor (state
       (monitorPerformance F now (set_particles p h)))) = now).
Proof.
  intros H.
  assert (Hidle : forall fs h,
    Forall (fun f =>
              (fsub F (snd f) (lastTime (fpsMonitor h))
               < checkInterval (fpsMonitor h))%Q) fs ->
    returned (monitorFrames F fs h) = true /\
    qualityLevel (state (monitorFrames F fs h)) = qualityLevel h /\
    qualityLog (state (monitorFrames F fs h)) = qualityLog h /\
    lowFpsCount (fpsMonitor (state (monitorFrames F fs h)))
      = lowFpsCount (fpsMonitor h) /\
    avgFps (fpsMonitor (state (monitorFrames F fs h))) = avgFps (fpsMonitor h) /\
    lastTime (fpsMonitor (state (monitorFrames F fs h)))
      = lastTime (fpsMonitor h) /\
    frames (fpsMonitor (state (monitorFrames F fs h))) =
      (frames (fpsMonitor h) + List.length fs)%nat).
  { clear. induction fs as [|[p now] fs IH]; intros h H.
    - simpl. repeat split. lia.
    - inversion H as [|? ? Hnow Hrest]; subst. simpl in Hnow.
      change (monitorFrames F ((p, now) :: fs) h)
        with (andThen (monitorPerformance F now (set_particles p h))
                      (monitorFrames F fs)).
      rewrite (monitorPerformance_idle F now (set_particles p h) Hnow).
      simpl andThen.
      match goal with
      | |- context [monitorFrames F fs ?h1] =>
          destruct (IH h1 Hrest) as (H1 & H2 & H3 & H4 & H5 & H6 & H7)
      end.
      rewrite H1, H2, H3, H4, H5, H6, H7. simpl. repeat split. lia. }
  destruct (Hidle fs h H) as (H1 & H2 & H3 & H4 & H5 & H6 & H7).
  repeat (split; [assumption|]).
  intros p now Hn. apply (monitorPerformance_due F now (set_particles p h)).
  exact Hn.
Qed.

(** [no_evaluation_within_interval] on three frames of the first two
    seconds after [setupAdaptiveQuality], which has counted one frame
    itself; the times are whole numbers, on which the subtraction of
    doubles is exact. *)
Lemma no_evaluation_within_interval_witness :
  Forall (fun f =>
            (fsub exact (snd f)
               (lastTime (fpsMonitor (state
                  (setupAdaptiveQuality exact false false NoParticles 0 0))))
             < checkInterval (fpsMonitor (state
                  (setupAdaptiveQuality exact false false NoParticles 0 0))))%Q)
         [(NoParticles, 16); (Points true false, 33); (NoParticles, 1999)] /\
  frames (fpsMonitor (state
    (monitorFrames exact
       [(NoParticles, 16); (Points true false, 33); (NoParticles, 1999)]
       (state (setupAdaptiveQuality exact false false NoParticles 0 0)))))
    = 4%nat.
Proof.
  assert (H : Forall (fun f =>
            (fsub exact (snd f)
               (lastTime (fpsMonitor (state
                  (setupAdaptiveQuality exact false false NoParticles 0 0))))
             < checkInterval (fpsMonitor (state
                  (setupAdaptiveQuality exact false false NoParticles 0 0))))%Q)
         [(NoParticles, 16); (Points true false, 33); (NoParticles, 1999)]).
  { repeat constructor. }
  split; [exact H|].
  exact (proj1 (proj2 (proj2 (proj2 (proj2 (proj2 (proj2
           (no_evaluation_within_interval exact
              [(NoParticles, 16); (Points true false, 33); (NoParticles, 1999)]
              (state (setupAdaptiveQuality exact false false NoParticles 0 0))
              H)))))))).
Defined.

End LadderFacts.

(** ** PerformanceOptimizer: monitoring *)

Section MonitoringFacts.
Import Monitoring.

Lemma record_length (x : Q) (h : list Q) :
  (List.length h <= 60)%nat -> (List.length (record x h) <= 60)%nat.
Proof.
  intros H. unfold record.
  destruct (Nat.ltb 60 (List.length (h ++ [x]))) eqn:E.
  - destruct h as [|y h]; simpl in *; [lia|].
    rewrite length_app. simpl. lia.
  - apply Nat.ltb_ge in E. exact E.
Qed.

Lemma record_lastn (x : Q) (h : list Q) :
  (List.length h <= 60)%nat -> record x h = lastn 60 (h ++ [x]).
Proof.
  intros H. unfold record, lastn.
  destruct (Nat.ltb 60 (List.length (h ++ [x]))) eqn:E.
  - apply Nat.ltb_lt in E. rewrite length_app in *. simpl in *.
    replace (List.length h + 1 - 60)%nat with 1%nat by lia.
    destruct h; reflexivity.
  - apply Nat.ltb_ge in E.
    replace (List.length (h ++ [x]) - 60)%nat with 0%nat by lia. reflexivity.
Qed.

Lemma lastn_snoc {A : Type} (n : nat) (l : list A) (x : A) :
  lastn (S n) (l ++ [x]) = lastn n l ++ [x].
Proof.
  unfold lastn. rewrite length_app. simpl.
  replace (List.length l + 1 - S n)%nat with (List.length l - n)%nat by lia.
  rewrite skipn_app.
  replace (List.length l - n - List.length l)%nat with 0%nat by lia.
  reflexivity.
Qed.

Lemma lastn_all {A : Type} (n : nat) (l : list A) :
  (List.length l <= n)%nat -> lastn n l = l.
Proof.
  intros H. unfold lastn.
  replace (List.length l - n)%nat with 0%nat by lia. reflexivity.
Qed.

Lemma lastn_length {A : Type} (n : nat) (l : list A) :
  (List.length (lastn n l) <= n)%nat.
Proof. unfold lastn. rewrite length_skipn. lia. Qed.

(** X14: the histories are sliding windows.  Recording values one after
    the other into a history of at most 60 entries leaves exactly the last
    60 of everything recorded, oldest first; so a history never holds more
    than 60 entries. *)
Theorem history_window (xs h : list Q) :
  (List.length h <= 60)%nat ->
  recordAll xs h = lastn 60 (h ++ xs) /\
  (List.length (recordAll xs h) <= 60)%nat.
Proof.
  intros H.
  assert (E : recordAll xs h = lastn 60 (h ++ xs)).
  { unfold recordAll. revert h H.
    induction xs as [|x xs IH]; intros h H; simpl.
    - rewrite app_nil_r. symmetry. now apply lastn_all.
    - rewrite (IH (record x h) (record_length x h H)).
      rewrite (record_lastn x h H).
      replace (h ++ x :: xs) with ((h ++ [x]) ++ xs)
        by (rewrite <- app_assoc; reflexivity).
      generalize (h ++ [x]). clear. intros l.
      induction xs as [|y xs IH] using rev_ind.
      + rewrite !app_nil_r. apply lastn_all. apply lastn_length.
      + rewrite !app_assoc, !(lastn_snoc 59). f_equal.
        unfold lastn. rewrite !length_app, length_skipn.
        rewrite !skipn_app, skipn_skipn, length_skipn.
        f_equal; f_equal; lia. }
  split; [exact E|]. rewrite E. apply lastn_length.
Qed.

(** [history_window] on 61 values recorded into an empty history. *)
Lemma history_window_witness :
  (List.length (@nil Q) <= 60)%nat /\
  recordAll (map (fun n => inject_Z (Z.of_nat n)) (seq 0 61)) [] =
    map (fun n => inject_Z (Z.of_nat n)) (seq 1 60).
Proof.
  split; [simpl; lia|].
  exact (proj1 (history_window
                  (map (fun n => inject_Z (Z.of_nat n)) (seq 0 61)) []
                  (Nat.le_0_l 60))).
Defined.

Lemma monitorPerformance_optimizer (F : Float64) (now : Q) (heap : option Q) (m : t) :
  exists history,
    optimizer (monitorPerformance F now heap m) =
      set_fpsHistory history (optimizer m) /\
    (history = PerformanceOptimizer.fpsHistory (optimizer m) \/
     exists x, history = record x (PerformanceOptimizer.fpsHistory (optimizer m))).
Proof.
  unfold monitorPerformance.
  destruct heap as [used|];
    destruct (Qgtb (fsub F now (orElse (lastFrameTime m) now)) 0);
    match goal with
    | |- context [if ?b then _ else _] => destruct b
    end; simpl; rewrite ?autoOptimize_id;
    destruct (optimizer m) as [lv en hist rq mob hc]; simpl;
    eexists; (split; [reflexivity|]); eauto.
Qed.

(** X15: monitoring never adapts the quality.  Whatever the clock, the
    heap readings and the rounding of the arithmetic, any number of calls
    of [monitorPerformance] leaves the stored optimization level and the
    applied render quality as they were, and keeps [fpsHistory] within 60
    entries. *)
Theorem monitoring_never_adapts (F : Float64) (calls : list (Q * option Q)) (m : t) :
  (List.length (PerformanceOptimizer.fpsHistory (optimizer m)) <= 60)%nat ->
  PerformanceOptimizer.currentOptimizationLevel (optimizer (monitorAll F calls m))
    = PerformanceOptimizer.currentOptimizationLevel (optimizer m) /\
  PerformanceOptimizer.renderQuality (optimizer (monitorAll F calls m))
    = PerformanceOptimizer.renderQuality (optimizer m) /\
  (List.length (PerformanceOptimizer.fpsHistory (optimizer (monitorAll F calls m)))
     <= 60)%nat.
Proof.
  unfold monitorAll. revert m.
  induction calls as [|[now heap] calls IH]; intros m H; [auto|].
  simpl.
  destruct (monitorPerformance_optimizer F now heap m) as (hist & Ho & Hh).
  assert (Hlen : (List.length hist <= 60)%nat).
  { destruct Hh as [->|[x ->]]; [exact H|]. now apply record_length. }
  destruct (IH (monitorPerformance F now heap m)) as (H1 & H2 & H3).
  { rewrite Ho. destruct (optimizer m); exact Hlen. }
  rewrite H1, H2, Ho. destruct (optimizer m); simpl. auto.
Qed.

(** [monitoring_never_adapts] on three slow frames six seconds apart. *)
Lemma monitoring_never_adapts_witness :
  (List.length (PerformanceOptimizer.fpsHistory
                  (optimizer (constructed
                     (PerformanceOptimizer.mk auto true [] (Some high) false
                                              (Some 8%nat))))) <= 60)%nat /\
  PerformanceOptimizer.renderQuality
    (optimizer (monitorAll exact
                  [(1000, None); (7000, None); (13000, Some 1048576)]%Q
                  (constructed
                     (PerformanceOptimizer.mk auto true [] (Some high) false
                                              (Some 8%nat)))))
    = Some high.
Proof.
  split; [simpl; lia|].
  exact (proj1 (proj2
    (monitoring_never_adapts exact
       [(1000, None); (7000, None); (13000, Some 1048576)]%Q
       (constructed (PerformanceOptimizer.mk auto true [] (Some high) false
                                             (Some 8%nat)))
       (Nat.le_0_l 60)))).
Defined.

(** X16: [autoOptimize] never changes anything.  It returns at once unless
    the stored level is ['auto'], and with ['auto'] stored none of its
    comparisons against ['ultra'], ['high'], ['medium'] and ['low'] can
    hold, so no level is ever applied; this for every history of frame
    rates. *)
Theorem autoOptimize_never_applies (p : PerformanceOptimizer.t) :
  PerformanceOptimizer.autoOptimize p = p /\
  (forall history,
     PerformanceOptimizer.renderQuality
       (PerformanceOptimizer.autoOptimize (set_fpsHistory history p))
     = PerformanceOptimizer.renderQuality p).
Proof.
  split; [apply autoOptimize_id|].
  intros history. rewrite autoOptimize_id. reflexivity.
Qed.

End MonitoringFacts.

(** ** PerformanceOptimizer: simplifyGeometry *)

Section SimplifyFacts.
Import Simplify.

Lemma write_length (a : Float32Array) :
  forall i v, List.length (write a i v) = List.length a.
Proof.
  induction a as [|x a IH]; intros i v; [reflexivity|].
  destruct i; simpl; [reflexivity|]. now rewrite IH.
Qed.

Lemma write_same (a : Float32Array) :
  forall i v, (i < List.length a)%nat -> nth_error (write a i v) i = Some v.
Proof.
  induction a as [|x a IH]; intros i v H; simpl in H; [lia|].
  destruct i; simpl; [reflexivity|]. apply IH. lia.
Qed.

Lemma write_other (a : Float32Array) :
  forall i m v, i <> m -> nth_error (write a i v) m = nth_error a m.
Proof.
  induction a as [|x a IH]; intros i m v H; [reflexivity|].
  destruct i, m; simpl; try reflexivity; try congruence.
  apply IH. congruence.
Qed.

Lemma copyVertex_length (g d : BufferGeometry) (i n : nat) :
  List.length (position (copyVertex g i n d)) = List.length (position d).
Proof. unfold copyVertex. simpl. now rewrite !write_length. Qed.

Lemma copyVertex_slot (g d : BufferGeometry) (i n j k : nat) :
  (n * 3 + 2 < List.length (position d))%nat -> (k < 3)%nat ->
  nth_error (position (copyVertex g i n d)) (j * 3 + k) =
    if Nat.eqb j n then Some (read (position g) (i * 3 + k))
    else nth_error (position d) (j * 3 + k).
Proof.
  intros Hlen Hk. unfold copyVertex. simpl.
  destruct (Nat.eqb j n) eqn:E.
  - apply Nat.eqb_eq in E. subst j.
    destruct k as [|[|[|k]]]; try lia.
    + rewrite write_other by lia. rewrite write_other by lia.
      rewrite !Nat.add_0_r. apply write_same. lia.
    + rewrite write_other by lia. apply write_same.
      rewrite write_length. lia.
    + apply write_same. rewrite !write_length. lia.
  - apply Nat.eqb_neq in E.
    rewrite !write_other by lia. reflexivity.
Qed.

(** The loop, entered at vertex [n * skip] and slot [n]. *)
Lemma sample_slots (g : BufferGeometry) (originalCount target skip : nat) :
  forall (fuel n : nat) (d : BufferGeometry),
    (n < target)%nat -> (target - n <= fuel)%nat ->
    ((target - 1) * skip < originalCount)%nat ->
    List.length (position d) = (target * 3)%nat ->
    List.length (position (sample g originalCount target skip fuel (n * skip) n d))
      = (target * 3)%nat /\
    forall j k, (k < 3)%nat ->
      nth_error (position (sample g originalCount target skip fuel (n * skip) n d))
                (j * 3 + k) =
        if Nat.leb n j && Nat.ltb j target
        then Some (read (position g) (j * skip * 3 + k))
        else nth_error (position d) (j * 3 + k).
Proof.
  induction fuel as [|fuel IH]; intros n d Hn Hf Hs Hlen; [lia|].
  simpl.
  assert (Hi : Nat.ltb (n * skip) originalCount = true).
  { apply Nat.ltb_lt. apply Nat.le_lt_trans with ((target - 1) * skip)%nat;
      [|exact Hs]. apply Nat.mul_le_mono_r. lia. }
  rewrite Hi.
  assert (Hslot : (n * 3 + 2 < List.length (position d))%nat) by lia.
  destruct (Nat.leb target (S n)) eqn:Ht.
  - apply Nat.leb_le in Ht. assert (S n = target) by lia. subst target.
    split; [now rewrite copyVertex_length|].
    intros j k Hk. rewrite (copyVertex_slot g d _ n j k Hslot Hk).
    destruct (Nat.eqb j n) eqn:E.
    + apply Nat.eqb_eq in E. subst j.
      replace (Nat.leb n n && Nat.ltb n (S n)) with true; [reflexivity|].
      symmetry. apply andb_true_iff. split;
        [apply Nat.leb_le; lia|apply Nat.ltb_lt; lia].
    + apply Nat.eqb_neq in E.
      replace (Nat.leb n j && Nat.ltb j (S n)) with false; [reflexivity|].
      symmetry. apply andb_false_iff.
      destruct (Nat.leb n j) eqn:L; [right|left; reflexivity].
      apply Nat.leb_le in L. apply Nat.ltb_ge. lia.
  - apply Nat.leb_gt in Ht.
    replace (n * skip + skip)%nat with (S n * skip)%nat by (simpl; lia).
    destruct (IH (S n) (copyVertex g (n * skip) n d)) as [Hl Hv];
      [lia|lia|exact Hs|now rewrite copyVertex_length|].
    split; [exact Hl|].
    intros j k Hk. rewrite (Hv j k Hk).
    rewrite (copyVertex_slot g d _ n j k Hslot Hk).
    destruct (Nat.eqb j n) eqn:E.
    + apply Nat.eqb_eq in E. subst j.
      replace (Nat.leb (S n) n) with false
        by (symmetry; apply Nat.leb_gt; lia).
      replace (Nat.leb n n) with true by (symmetry; apply Nat.leb_le; lia).
      replace (Nat.ltb n target) with true by (symmetry; apply Nat.ltb_lt; lia).
      reflexivity.
    + apply Nat.eqb_neq in E.
      destruct (Nat.leb (S n) j) eqn:L1, (Nat.leb n j) eqn:L2; simpl;
        try reflexivity.
      * apply Nat.leb_le in L1. apply Nat.leb_gt in L2. lia.
      * apply Nat.leb_gt in L1. apply Nat.leb_le in L2. lia.
Qed.

(** X17: [simplifyGeometry] fills every slot it allocates and never reads
    past the end of the original.  For a geometry with at least one
    vertex, if the rounded quotient [originalCount / targetCount] floors to
    the integer quotient, the new position array has [targetCount] vertices
    (at least 24), vertex [j] of which is a copy of original vertex
    [j * skipFactor], an index below [originalCount]. *)
Theorem simplifyGeometry_samples (F : Float64) (g : BufferGeometry) (factor : Q) :
  (1 <= count g)%nat ->
  skipFactorOf F (count g) (targetCountOf F (count g) factor)
    = (count g / targetCountOf F (count g) factor)%nat ->
  (24 <= targetCountOf F (count g) factor)%nat /\
  List.length (position (simplifyGeometry F g factor))
    = (targetCountOf F (count g) factor * 3)%nat /\
  forall j k,
    (j < targetCountOf F (count g) factor)%nat -> (k < 3)%nat ->
    (j * skipFactorOf F (count g) (targetCountOf F (count g) factor)
       < count g)%nat /\
    nth_error (position (simplifyGeometry F g factor)) (j * 3 + k) =
      Some (read (position g)
              (j * skipFactorOf F (count g) (targetCountOf F (count g) factor) * 3
               + k)) /\
    nth_error (position g)
              (j * skipFactorOf F (count g) (targetCountOf F (count g) factor) * 3
               + k) <> None.
Proof.
  intros Hc Hq.
  set (target := targetCountOf F (count g) factor) in *.
  set (skip := skipFactorOf F (count g) target) in *.
  assert (H24 : (24 <= target)%nat) by (unfold target, targetCountOf; lia).
  assert (Hall : ((target - 1) * skip < count g)%nat).
  { rewrite Hq. destruct (count g / target)%nat eqn:E; [lia|].
    assert (target * (count g / target) <= count g)%nat
      by (apply Nat.Div0.mul_div_le).
    rewrite E in H. nia. }
  unfold simplifyGeometry. fold target. fold skip.
  destruct (sample_slots g (count g) target skip target 0
              (mkBufferGeometry (zeros (target * 3))
                 (match normal g with
                  | Some _ => Some (zeros (target * 3)) | None => None end)
                 (match uv g with
                  | Some _ => Some (zeros (target * 2)) | None => None end)))
    as [Hl Hv]; try lia.
  { simpl. unfold zeros. apply repeat_length. }
  split; [exact H24|]. split; [exact Hl|].
  intros j k Hj Hk.
  assert (Hjs : (j * skip < count g)%nat).
  { apply Nat.le_lt_trans with ((target - 1) * skip)%nat; [|exact Hall].
    apply Nat.mul_le_mono_r. lia. }
  split; [exact Hjs|]. split.
  - change (0 * skip)%nat with 0%nat in Hv. rewrite (Hv j k Hk).
    replace (Nat.leb 0 j && Nat.ltb j target) with true; [reflexivity|].
    symmetry. apply andb_true_iff. split;
      [apply Nat.leb_le; lia|apply Nat.ltb_lt; lia].
  - apply nth_error_Some. unfold count in Hjs.
    assert (3 * (List.length (position g) / 3) <= List.length (position g))%nat
      by (apply Nat.Div0.mul_div_le).
    lia.
Qed.

End SimplifyFacts.

Section SimplifyWitness.
Import Simplify.

(** A geometry of 50 vertices, vertex [i] at [(i, i, i)]. *)
Lemma simplifyGeometry_samples_witness :
  let g := mkBufferGeometry
             (flat_map (fun i => [Some (ofNat i); Some (ofNat i); Some (ofNat i)])
                       (seq 0 50))
             None None in
  (1 <= count g)%nat /\
  targetCountOf exact (count g) (1#2) = 25%nat /\
  skipFactorOf exact (count g) 25 = 2%nat /\
  nth_error (position (simplifyGeometry exact g (1#2))) (7 * 3 + 1)
    = Some (Some (ofNat 14)).
Proof.
  intros g.
  assert (Hc : (1 <= count g)%nat) by (vm_compute; lia).
  split; [exact Hc|]. split; [reflexivity|]. split; [reflexivity|].
  assert (Hq : skipFactorOf exact (count g) (targetCountOf exact (count g) (1#2))
               = (count g / targetCountOf exact (count g) (1#2))%nat)
    by reflexivity.
  assert (H7 : (7 < targetCountOf exact (count g) (1#2))%nat)
    by (vm_compute; lia).
  exact (proj1 (proj2 (proj2 (proj2 (simplifyGeometry_samples exact g (1#2) Hc Hq))
                         7%nat 1%nat H7 (Nat.lt_lt_succ_r _ _ (Nat.lt_succ_diag_r 1))))).
Defined.

End SimplifyWitness.

(** ** PerformanceOptimizer: particles, pools and the culling pass *)

Section ParticleFacts.
Import Simplify Particles.

Lemma fold_write_slots (f : nat -> option Q) (k : nat) :
  forall (a : nat) (s : Float32Array) (m : nat),
    (a + k <= List.length s)%nat ->
    nth_error (fold_left (fun s i => write s i (f i)) (seq a k) s) m =
      if Nat.leb a m && Nat.ltb m (a + k) then Some (f m) else nth_error s m.
Proof.
  induction k as [|k IH]; intros a s m H; simpl.
  - replace (Nat.leb a m && Nat.ltb m (a + 0)) with false; [reflexivity|].
    symmetry. apply andb_false_iff.
    destruct (Nat.leb a m) eqn:L; [right|left; reflexivity].
    apply Nat.leb_le in L. apply Nat.ltb_ge. lia.
  - rewrite IH by (rewrite write_length; lia).
    destruct (Nat.leb (S a) m) eqn:L1.
    + apply Nat.leb_le in L1.
      replace (Nat.leb a m) with true by (symmetry; apply Nat.leb_le; lia).
      replace (a + S k)%nat with (S a + k)%nat by lia. simpl.
      destruct (Nat.ltb m (S (a + k))); [reflexivity|].
      apply write_other. lia.
    + apply Nat.leb_gt in L1. simpl.
      destruct (Nat.leb a m) eqn:L2; simpl.
      * apply Nat.leb_le in L2. assert (m = a) by lia. subst m.
        replace (Nat.ltb a (a + S k)) with true
          by (symmetry; apply Nat.ltb_lt; lia).
        apply write_same. lia.
      * apply Nat.leb_gt in L2. apply write_other. lia.
Qed.

Lemma fold_write_length (f : nat -> option Q) (l : list nat) :
  forall s : Float32Array,
    List.length (fold_left (fun s i => write s i (f i)) l s) = List.length s.
Proof.
  induction l as [|i l IH]; intros s; simpl; [reflexivity|].
  rewrite IH. apply write_length.
Qed.

(** X18: full particle count restores the stored sizes.  When the size
    attribute and the stored original sizes both have one entry per
    particle, and the product [count * percentage] comes out above every
    index below [count] (as it does for percentage 1), [setParticleCount]
    writes the original sizes back, whatever sizes an earlier call left;
    without a size attribute it throws. *)
Theorem setParticleCount_restores
        (F : Float64) (percentage : Q) (p : t) (sizes original : Float32Array) :
  size p = Some sizes -> originalSizes p = Some original ->
  List.length sizes = positionCount p ->
  List.length original = positionCount p ->
  (forall i, (i < positionCount p)%nat ->
     (ofNat i < fmul F (ofNat (positionCount p)) percentage)%Q) ->
  setParticleCount F percentage p =
    Some (mk (positionCount p) (Some original) (Some original)) /\
  (forall earlier p',
     setParticleCount F earlier p = Some p' ->
     setParticleCount F percentage p' =
       Some (mk (positionCount p) (Some original) (Some original))) /\
  setParticleCount F percentage (mk (positionCount p) None (originalSizes p))
    = None.
Proof.
  intros Hs Ho Hls Hlo Hall.
  assert (Hgen : forall s, List.length s = positionCount p ->
            setParticleCount F percentage
              (mk (positionCount p) (Some s) (Some original)) =
            Some (mk (positionCount p) (Some original) (Some original))).
  { intros s Hl. unfold setParticleCount. simpl. do 2 f_equal. f_equal.
    apply nth_error_ext. intros m.
    rewrite fold_write_slots by (simpl; lia). simpl.
    destruct (Nat.ltb m (positionCount p)) eqn:L.
    - apply Nat.ltb_lt in L. unfold sizeAt. simpl.
      rewrite (Qltb_true _ _ (Hall m L)). unfold read.
      symmetry. apply nth_error_nth'. lia.
    - apply Nat.ltb_ge in L.
      transitivity (@None (option Q)); [|symmetry];
        apply nth_error_None; lia. }
  destruct p as [n sz os]. simpl in *. subst sz os.
  split; [now apply Hgen|]. split; [|reflexivity].
  intros earlier p' Hp'. unfold setParticleCount in Hp'. simpl in Hp'.
  inversion Hp'; subst p'. apply Hgen.
  rewrite fold_write_length. exact Hls.
Qed.

End ParticleFacts.

Section ParticleWitness.
Import Simplify Particles.

(** [setParticleCount_restores] on four particles, after a call at one
    quarter. *)
Lemma setParticleCount_restores_witness :
  let original := [Some (1#50); Some (3#100); Some (1#25); Some (1#100)]%Q in
  let p := mk 4 (Some original) (Some original) in
  List.length original = positionCount p /\
  (forall i, (i < positionCount p)%nat ->
     (ofNat i < fmul exact (ofNat (positionCount p)) 1)%Q) /\
  setParticleCount exact (1#4) p =
    Some (mk 4 (Some [Some (1#50); Some 0; Some 0; Some 0]%Q) (Some original)) /\
  setParticleCount exact 1
    (mk 4 (Some [Some (1#50); Some 0; Some 0; Some 0]%Q) (Some original)) =
    Some p.
Proof.
  intros original p.
  assert (Hall : forall i, (i < positionCount p)%nat ->
            (ofNat i < fmul exact (ofNat (positionCount p)) 1)%Q).
  { intros i Hi. simpl. unfold ofNat. rewrite Qmult_1_r.
    rewrite <- Zlt_Qlt. simpl in Hi. lia. }
  split; [reflexivity|]. split; [exact Hall|]. split; [reflexivity|].
  exact (proj1 (proj2 (setParticleCount_restores exact 1 p original original
                         eq_refl eq_refl eq_refl eq_refl Hall))
               (1#4) _ eq_refl).
Defined.

End ParticleWitness.

Section PoolFacts.
Import Pools.

Variable A : Type.
Variable reset : A -> A.

Lemma last_snoc (l : list A) (x d : A) : last (l ++ [x]) d = x.
Proof.
  induction l as [|y l IH]; [reflexivity|].
  simpl. destruct (l ++ [x]) eqn:E; [destruct l; discriminate|]. exact IH.
Qed.

Lemma get_ordinary (pools : Pools A) (type : string) :
  prototype type = None ->
  get A (ensure A pools type) type = Array A (contents A pools type) /\
  ensure A pools type =
    match pools type with
    | Some _ => pools
    | None => setPool A pools type []
    end.
Proof.
  intros Hp. unfold ensure, get, contents.
  destruct (pools type) eqn:E; rewrite ?Hp; simpl; rewrite ?E;
    unfold setPool; rewrite ?String.eqb_refl; auto.
Qed.

Lemma get_inherited (pools : Pools A) (type : string) (m : Member) :
  prototype type = Some m ->
  pools type = None ->
  get A (ensure A pools type) type = Inherited A m /\
  ensure A pools type = pools.
Proof.
  intros Hp Ho. unfold ensure, get.
  rewrite ?Ho, ?Hp; simpl; rewrite ?Ho, ?Hp; auto.
Qed.

(** X19: the pools are stacks, for every type name that [Object.prototype]
    does not define.  An object returned to such a pool is the next one
    [getFromPool] hands out for that type, after its reset, without
    [createFunc] being used; the pool of that type is then as it was
    (empty if it did not exist) and every other pool is untouched.  From
    an absent or empty pool [getFromPool] hands out what [createFunc]
    made.  Under a name that [objectPools] inherits, such as
    ['constructor'] or ['toString'], no pool is ever created:
    [returnToPool] throws, and [getFromPool] throws if the inherited
    function has parameters and hands out what [createFunc] made if
    not. *)
Theorem pool_round_trip (pools : Pools A) (type : string) (object created : A) :
  (prototype type = None ->
     (exists pools1,
        returnToPool A reset type object pools = Returned pools1 /\
        (exists pools2,
           getFromPool A type created pools1 = Returned (reset object, pools2) /\
           forall type',
             pools2 type' = if String.eqb type' type
                            then Some (contents A pools type)
                            else pools type')) /\
     (contents A pools type = [] ->
        exists pools2,
          getFromPool A type created pools = Returned (created, pools2) /\
          contents A pools2 type = [])) /\
  (forall m, prototype type = Some m -> pools type = None ->
     returnToPool A reset type object pools = TypeError /\
     getFromPool A type created pools =
       match m with
       | Method (S _) => TypeError
       | _ => Returned (created, pools)
       end).
Proof.
  split.
  - intros Hp. destruct (get_ordinary pools type Hp) as [Hg He]. split.
    + exists (setPool A (ensure A pools type) type
                      (contents A pools type ++ [reset object])).
      split; [unfold returnToPool; now rewrite Hg|].
      exists (setPool A
                (setPool A (ensure A pools type) type
                         (contents A pools type ++ [reset object]))
                type (contents A pools type)).
      split.
      * unfold getFromPool.
        assert (Hs : ensure A
                  (setPool A (ensure A pools type) type
                           (contents A pools type ++ [reset object])) type
                = setPool A (ensure A pools type) type
                          (contents A pools type ++ [reset object])).
        { unfold ensure at 1, get, setPool at 1. now rewrite String.eqb_refl. }
        rewrite Hs.
        assert (Hg2 : get A
                  (setPool A (ensure A pools type) type
                           (contents A pools type ++ [reset object])) type
                = Array A (contents A pools type ++ [reset object])).
        { unfold get, setPool at 1. now rewrite String.eqb_refl. }
        rewrite Hg2.
        destruct (contents A pools type ++ [reset object]) as [|x rest] eqn:Ep.
        { destruct (contents A pools type); discriminate. }
        rewrite <- Ep. now rewrite last_snoc, removelast_last.
      * intros type'. unfold setPool.
        destruct (String.eqb type' type) eqn:Et; [reflexivity|].
        rewrite He. destruct (pools type); unfold setPool; rewrite ?Et;
          reflexivity.
    + intros Hempty. exists (ensure A pools type). split.
      * unfold getFromPool. now rewrite Hg, Hempty.
      * rewrite He. unfold contents in *. destruct (pools type) eqn:E.
        { now rewrite E. }
        { unfold setPool. now rewrite String.eqb_refl. }
  - intros m Hp Ho. destruct (get_inherited pools type m Hp Ho) as [Hg He].
    split.
    + unfold returnToPool. now rewrite Hg.
    + unfold getFromPool. rewrite Hg, He.
      destruct m as [[|n]|]; reflexivity.
Qed.

End PoolFacts.

Section PoolWitness.
Import Pools.

(** [pool_round_trip] on a pool of numbers named particle, and under the
    inherited name constructor. *)
Lemma pool_round_trip_witness :
  prototype "particle" = None /\
  getFromPool nat "particle" 0%nat (fun _ => None)
    = Returned (0%nat, ensure nat (fun _ => None) "particle") /\
  prototype "constructor" = Some (Method 1) /\
  returnToPool nat (fun n => n) "constructor" 7%nat (fun _ => None)
    = TypeError.
Proof.
  split; [reflexivity|]. split; [reflexivity|]. split; [reflexivity|].
  exact (proj1 (proj2 (pool_round_trip nat (fun n => n) (fun _ => None)
                         "constructor" 7%nat 0%nat)
                      (Method 1) eq_refl eq_refl)).
Defined.

End PoolWitness.

Section CullingChoices.
Import PerformanceOptimizer.

Variable View : Type.
Variable intersectsSphere : View -> Object3D -> bool.
Variable distanceTo : View -> Object3D -> Q.

Local Abbreviation cull := (cull View intersectsSphere distanceTo).
Local Abbreviation updateCulling := (updateCulling View intersectsSphere distanceTo).

(** X20: what the culling pass never does.  It keeps the list of tracked
    objects as long as it was; the geometry it leaves on an object is the
    one the object had or one of its three stored variants; it leaves the
    geometry alone on an object it hides, on one without a stored original
    and on one removed from the scene; and when a cheaper variant is
    missing it falls back to the next richer one. *)
Theorem cull_never (v : View) (o : Object3D) (objects : list Object3D) :
  List.length (updateCulling v objects) = List.length objects /\
  (geometry (cull v o) = geometry o \/
   originalGeometry o = Some (geometry (cull v o)) \/
   mediumGeometry o = Some (geometry (cull v o)) \/
   lowGeometry o = Some (geometry (cull v o))) /\
  (visible (cull v o) = false -> geometry (cull v o) = geometry o) /\
  (originalGeometry o = None -> geometry (cull v o) = geometry o) /\
  (parent o = false -> cull v o = o) /\
  (forall g, visible (cull v o) = true -> parent o = true ->
     originalGeometry o = Some g -> mediumGeometry o = None ->
     lowGeometry o = None -> geometry (cull v o) = g) /\
  (forall g gm, visible (cull v o) = true -> parent o = true ->
     originalGeometry o = Some g -> mediumGeometry o = Some gm ->
     lowGeometry o = None -> (5 < distanceTo v o)%Q ->
     geometry (cull v o) = gm).
Proof.
  split; [unfold PerformanceOptimizer.updateCulling; apply length_map|].
  unfold PerformanceOptimizer.cull.
  destruct o as [im nc par vis ov g og mg lg]. simpl.
  destruct par; simpl; [|repeat split; auto; intros; discriminate].
  destruct (intersectsSphere v _), ov; simpl;
    try (repeat split; auto; intros; discriminate).
  destruct og as [g0|], mg as [g1|], lg as [g2|]; simpl;
    rewrite ?andb_true_r, ?andb_false_r; simpl;
    try destruct (Qgtb (distanceTo v _) 10) eqn:E10; simpl;
    try destruct (Qgtb (distanceTo v _) 5) eqn:E5; simpl;
    repeat split; auto; intros; try discriminate; try congruence.
  all: try (rewrite (Qgtb_true _ _ H4) in E5; discriminate).
Qed.

(** X21: the particle fraction only falls with distance.  It is one of
    0.25, 0.5 and 1, and a camera that is no nearer never gets a larger
    fraction. *)
Theorem particleFraction_antitone (d1 d2 : Q) :
  (d1 <= d2)%Q ->
  (particleFraction d2 <= particleFraction d1)%Q /\
  (particleFraction d1 = (1#4)%Q \/ particleFraction d1 = (1#2)%Q \/
   particleFraction d1 = 1%Q).
Proof.
  intros H. unfold particleFraction. split.
  - destruct (Qgtb d1 10) eqn:A1.
    + assert (Qgtb d2 10 = true) as ->.
      { apply Qgtb_true. unfold Qgtb in A1. apply negb_true_iff in A1.
        apply Qlt_le_trans with d1; [|exact H].
        apply Qnot_le_lt. intros K. apply Qle_bool_iff in K. congruence. }
      apply Qle_refl.
    + destruct (Qgtb d2 10); [destruct (Qgtb d1 5); discriminate|].
      destruct (Qgtb d1 5) eqn:A2.
      * assert (Qgtb d2 5 = true) as ->.
        { apply Qgtb_true. unfold Qgtb in A2. apply negb_true_iff in A2.
          apply Qlt_le_trans with d1; [|exact H].
          apply Qnot_le_lt. intros K. apply Qle_bool_iff in K. congruence. }
        apply Qle_refl.
      * destruct (Qgtb d2 5); discriminate.
  - destruct (Qgtb d1 10); [auto|]. destruct (Qgtb d1 5); auto.
Qed.

(** [particleFraction_antitone] between distances 4 and 12. *)
Lemma particleFraction_antitone_witness :
  (4 <= 12)%Q /\ (particleFraction 12 <= particleFraction 4)%Q.
Proof.
  assert (H : (4 <= 12)%Q) by discriminate.
  split; [exact H|]. exact (proj1 (particleFraction_antitone 4 12 H)).
Defined.

End CullingChoices.

(** ** Device detection *)

Section DeviceFacts.
Import Device.

Lemma androidNotMobile_contains (s : string) :
  androidNotMobile s = true -> contains "android" s = true.
Proof.
  induction s as [|c s IH]; simpl.
  - discriminate.
  - intros H. apply orb_true_iff in H. destruct H as [H|H].
    + apply andb_true_iff in H. destruct H as [H _].
      apply orb_true_iff. left. exact H.
    + apply orb_true_iff. right. now apply IH.
Qed.

Lemma tabletUA_mobileUA (ua : string) :
  tabletUA ua = true -> mobileUA ua = true.
Proof.
  unfold tabletUA, mobileUA. intros H. apply orb_true_iff in H.
  simpl. destruct H as [H|H].
  - rewrite H. now rewrite !orb_true_r.
  - now rewrite (androidNotMobile_contains _ H).
Qed.

(** X22: every user agent the tablet test accepts, the mobile test accepts
    too.  So a device that is a tablet by its user agent is typed mobile
    in a window narrower than 768 and tablet in any wider one, while a user
    agent the mobile test rejects is typed by the width alone, tablet
    from 768 to 1023 and desktop otherwise; and [setupAdaptiveQuality]
    starts at low, medium or high accordingly, whatever its first frame
    computes. *)
Theorem device_type (ua : string) (innerWidth : nat) :
  (tabletUA ua = true -> mobileUA ua = true) /\
  (tabletUA ua = true ->
     getDeviceType ua innerWidth =
       if Nat.ltb innerWidth 768 then mobile else tablet) /\
  (mobileUA ua = false ->
     getDeviceType ua innerWidth =
       if Nat.leb 768 innerWidth && Nat.ltb innerWidth 1024
       then tablet else desktop) /\
  (forall (F : Float64) (p : ResponsiveHandler.Particles) (now now' : Q),
     ResponsiveHandler.qualityLevel
       (ResponsiveHandler.state
          (ResponsiveHandler.setupAdaptiveQuality F
             (detectMobileDevice ua innerWidth)
             (detectTabletDevice ua innerWidth) p now now')) =
       match getDeviceType ua innerWidth with
       | mobile => low
       | tablet => medium
       | desktop => high
       end).
Proof.
  split; [apply tabletUA_mobileUA|]. split; [|split].
  - intros H. unfold getDeviceType, detectMobileDevice, detectTabletDevice.
    rewrite (tabletUA_mobileUA ua H), H. simpl.
    destruct (Nat.ltb innerWidth 768); reflexivity.
  - intros H. unfold getDeviceType, detectMobileDevice, detectTabletDevice.
    rewrite H. simpl.
    destruct (tabletUA ua) eqn:E;
      [rewrite (tabletUA_mobileUA ua E) in H; discriminate|].
    reflexivity.
  - intros F p now now'. unfold getDeviceType.
    rewrite (proj2 (proj2 (setupAdaptiveQuality_level F
               (detectMobileDevice ua innerWidth)
               (detectTabletDevice ua innerWidth) p now now'))).
    destruct (detectMobileDevice ua innerWidth),
             (detectTabletDevice ua innerWidth); reflexivity.
Qed.

End DeviceFacts.

Section DeviceWitness.
Import Device.

(** [device_type] on an iPad user agent in a window 700 wide. *)
Lemma device_type_witness :
  tabletUA "Mozilla/5.0 (iPad; CPU OS 15_0 like Mac OS X)" = true /\
  getDeviceType "Mozilla/5.0 (iPad; CPU OS 15_0 like Mac OS X)" 700 = mobile.
Proof.
  split; [reflexivity|].
  exact (proj1 (proj2 (device_type
                         "Mozilla/5.0 (iPad; CPU OS 15_0 like Mac OS X)" 700))
               eq_refl).
Defined.

End DeviceWitness.

(** ** Touch gestures *)

Section TouchFacts.
Import Touch.

Variable F : Float64.

Lemma last_default (A : Type) (l : list A) :
  forall a d d' : A, last (a :: l) d = last (a :: l) d'.
Proof.
  induction l as [|b l IH]; intros a d d'; [reflexivity|].
  change (last (b :: l) d = last (b :: l) d'). apply IH.
Qed.

Lemma moved_fields (inside orbit : bool) (moves : list (Q * Q)) :
  forall s : t,
    isTouching s = true ->
    touchStartX (moved F inside orbit moves s) = touchStartX s /\
    touchStartY (moved F inside orbit moves s) = touchStartY s /\
    touchMoveX (moved F inside orbit moves s)
      = fst (last moves (touchMoveX s, touchMoveY s)) /\
    touchMoveY (moved F inside orbit moves s)
      = snd (last moves (touchMoveX s, touchMoveY s)) /\
    isTouching (moved F inside orbit moves s) = true.
Proof.
  induction moves as [|[qx qy] moves IH]; intros s Ht; [simpl; auto|].
  assert (Hstep : fst (onTouchMove F inside orbit [(qx, qy)] s)
                  = mk (touchStartX s) (touchStartY s) qx qy true).
  { unfold onTouchMove. rewrite Ht. reflexivity. }
  change (moved F inside orbit ((qx, qy) :: moves) s)
    with (moved F inside orbit moves (fst (onTouchMove F inside orbit [(qx, qy)] s))).
  rewrite Hstep.
  destruct (IH (mk (touchStartX s) (touchStartY s) qx qy true) eq_refl)
    as (H1 & H2 & H3 & H4 & H5).
  rewrite H1, H2, H3, H4, H5. simpl touchStartX. simpl touchStartY.
  simpl touchMoveX. simpl touchMoveY.
  destruct moves as [|q moves]; [simpl; auto|].
  change (last ((qx, qy) :: q :: moves) (touchMoveX s, touchMoveY s))
    with (last (q :: moves) (touchMoveX s, touchMoveY s)).
  rewrite (last_default _ moves q (qx, qy) (touchMoveX s, touchMoveY s)).
  auto.
Qed.

(** X23: whether a one-finger gesture is a tap depends only on where it
    began and where it ended.  However far the finger travelled in between,
    and whatever the state before, the release calls [handleTap] exactly
    once, at the last position, when that position is less than 10 away
    from the first in both axes, and not at all otherwise; a touchstart
    with more than one finger changes nothing. *)
Theorem tap_by_endpoints (inside orbit : bool)
        (p : Q * Q) (moves : list (Q * Q)) (s : t) :
  filter isHandleTap (snd (gesture F inside orbit p moves s)) =
    (if Qltb (Qabs (fsub F (fst (last moves p)) (fst p))) 10
        && Qltb (Qabs (fsub F (snd (last moves p)) (snd p))) 10
     then [HandleTap (fst (last moves p)) (snd (last moves p))]
     else []) /\
  isTouching (fst (gesture F inside orbit p moves s)) = false /\
  (forall p1 p2 more, onTouchStart (p1 :: p2 :: more) s = (s, [])) /\
  onTouchStart [] s = (s, []).
Proof.
  split; [|split; [reflexivity|split; [|reflexivity]]].
  - unfold gesture, onTouchEnd. destruct p as [px py]. simpl onTouchStart.
    simpl fst at 1.
    destruct (moved_fields inside orbit moves (mk px py px py true) eq_refl)
      as (H1 & H2 & H3 & H4 & _).
    simpl snd. rewrite H1, H2, H3, H4. simpl.
    destruct (Qltb _ 10 && Qltb _ 10); reflexivity.
  - intros [x1 y1] p2 more. reflexivity.
Qed.

End TouchFacts.

(** ** Look controls *)

Section LookFacts.
Import Look.

Variable F : Float64.
Variable maxVerticalAngle : Q.

Lemma Math_max_spec (a b : Q) :
  (a <= Math_max a b)%Q /\ (b <= Math_max a b)%Q /\
  (Math_max a b = a \/ Math_max a b = b).
Proof.
  unfold Math_max. destruct (Qle_bool a b) eqn:E.
  - apply Qle_bool_iff in E. repeat split; auto. apply Qle_refl.
  - repeat split; auto; [apply Qle_refl|].
    apply Qlt_le_weak. apply Qnot_le_lt. intros K.
    apply Qle_bool_iff in K. congruence.
Qed.

Lemma Math_min_spec (a b : Q) :
  (Math_min a b <= a)%Q /\ (Math_min a b <= b)%Q /\
  (Math_min a b = a \/ Math_min a b = b).
Proof.
  unfold Math_min. destruct (Qle_bool a b) eqn:E.
  - apply Qle_bool_iff in E. repeat split; auto. apply Qle_refl.
  - repeat split; auto; [|apply Qle_refl].
    apply Qlt_le_weak. apply Qnot_le_lt. intros K.
    apply Qle_bool_iff in K. congruence.
Qed.

Lemma clamp_range (v : Q) :
  (0 <= maxVerticalAngle)%Q ->
  (- maxVerticalAngle <= clamp maxVerticalAngle v)%Q /\
  (clamp maxVerticalAngle v <= maxVerticalAngle)%Q.
Proof.
  intros Hm. unfold clamp.
  destruct (Math_max_spec (- maxVerticalAngle) (Math_min maxVerticalAngle v))
    as (H1 & _ & [H3|H3]).
  - split; [exact H1|]. rewrite H3.
    apply Qle_trans with 0%Q; [|exact Hm].
    apply (Qopp_le_compat 0 maxVerticalAngle Hm).
  - split; [exact H1|]. rewrite H3.
    apply Math_min_spec.
Qed.

(** X24: the pitch stays within the vertical limit.  With a non-negative
    limit and arithmetic in which subtracting 0.05 does not increase a
    number and adding 0.05 does not decrease it, a pitch that is within
    plus and minus [maxVerticalAngle] stays there under any sequence of
    mouse moves, touch moves and look keys; after a mouse or touch move it
    is within the limit whatever it was before. *)
Theorem pitch_within_limit (inputs : list Input) (e : Euler) :
  (0 <= maxVerticalAngle)%Q ->
  (forall v, (fsub F v (5#100) <= v)%Q) ->
  (forall v, (v <= fadd F v (5#100))%Q) ->
  (- maxVerticalAngle <= x e)%Q -> (x e <= maxVerticalAngle)%Q ->
  (- maxVerticalAngle <= x (looks F maxVerticalAngle inputs e))%Q /\
  (x (looks F maxVerticalAngle inputs e) <= maxVerticalAngle)%Q /\
  (forall readBack vx vy any,
     (- maxVerticalAngle
        <= x (look F maxVerticalAngle (MouseMove readBack vx vy) any))%Q /\
     (x (look F maxVerticalAngle (MouseMove readBack vx vy) any)
        <= maxVerticalAngle)%Q) /\
  (forall dx dy any,
     (- maxVerticalAngle <= x (look F maxVerticalAngle (TouchMove dx dy) any))%Q /\
     (x (look F maxVerticalAngle (TouchMove dx dy) any) <= maxVerticalAngle)%Q).
Proof.
  intros Hm Hsub Hadd Hlo Hhi.
  assert (Hstep : forall i e0,
            (- maxVerticalAngle <= x e0)%Q -> (x e0 <= maxVerticalAngle)%Q ->
            (- maxVerticalAngle <= x (look F maxVerticalAngle i e0))%Q /\
            (x (look F maxVerticalAngle i e0) <= maxVerticalAngle)%Q).
  { intros i e0 H1 H2. destruct i; simpl; auto using clamp_range.
    - destruct (Math_max_spec (- maxVerticalAngle) (fsub F (x e0) (5#100)))
        as (K1 & _ & [K3|K3]); split; auto; rewrite K3.
      + apply Qle_trans with 0%Q; [|exact Hm].
        apply (Qopp_le_compat 0 maxVerticalAngle Hm).
      + apply Qle_trans with (x e0); auto.
    - destruct (Math_min_spec maxVerticalAngle (fadd F (x e0) (5#100)))
        as (K1 & _ & [K3|K3]); split; auto; rewrite K3.
      + apply Qle_trans with 0%Q; [|exact Hm].
        apply (Qopp_le_compat 0 maxVerticalAngle Hm).
      + apply Qle_trans with (x e0); auto. }
  assert (Hall : forall inputs e0,
            (- maxVerticalAngle <= x e0)%Q -> (x e0 <= maxVerticalAngle)%Q ->
            (- maxVerticalAngle <= x (looks F maxVerticalAngle inputs e0))%Q /\
            (x (looks F maxVerticalAngle inputs e0) <= maxVerticalAngle)%Q).
  { unfold looks. clear inputs e Hlo Hhi.
    induction inputs as [|i inputs IH]; intros e0 H1 H2; [auto|].
    simpl. destruct (Hstep i e0 H1 H2). now apply IH. }
  destruct (Hall inputs e Hlo Hhi) as [A B].
  repeat split; auto; simpl; apply clamp_range; exact Hm.
Qed.

End LookFacts.

Section LookWitness.
Import Look.

(** [pitch_within_limit] with exact arithmetic, the limit 1.047 and a
    start at the origin. *)
Lemma pitch_within_limit_witness :
  (0 <= 1047#1000)%Q /\
  (forall v, (fsub exact v (5#100) <= v)%Q) /\
  (forall v, (v <= fadd exact v (5#100))%Q) /\
  (x (looks exact (1047#1000)
        [KeyDown; TouchMove 0 (-900); KeyDown; KeyUp] initial) <= 1047#1000)%Q.
Proof.
  assert (Hm : (0 <= 1047#1000)%Q) by discriminate.
  assert (Hsub : forall v, (fsub exact v (5#100) <= v)%Q).
  { intros v. simpl. rewrite <- (Qplus_0_r v) at 2. unfold Qminus.
    apply Qplus_le_r. discriminate. }
  assert (Hadd : forall v, (v <= fadd exact v (5#100))%Q).
  { intros v. simpl. rewrite <- (Qplus_0_r v) at 1.
    apply Qplus_le_r. discriminate. }
  split; [exact Hm|]. split; [exact Hsub|]. split; [exact Hadd|].
  assert (Hlo : (- (1047#1000) <= x initial)%Q) by discriminate.
  assert (Hhi : (x initial <= 1047#1000)%Q) by discriminate.
  exact (proj1 (proj2 (pitch_within_limit exact (1047#1000)
                         [KeyDown; TouchMove 0 (-900); KeyDown; KeyUp] initial
                         Hm Hsub Hadd Hlo Hhi))).
Defined.

End LookWitness.

(** ** Loading and initialisation *)

Section LoadingFacts.
Import Loading.

Lemma run_loads (n : nat) :
  forall s : t,
    run (loads n) s =
      mk (assetsLoaded s + n)
         (initialised s
          + (Nat.min (assetsLoaded s + n) (assetsLoaded s + n + 1 - assetsToLoad)
             - (assetsLoaded s + 1 - assetsToLoad))).
Proof.
  induction n as [|n IH]; intros [a k].
  - unfold run, loads, assetsToLoad. simpl. f_equal; lia.
  - assert (Hone : onAssetLoaded (mk a k) =
                   mk (S a) (if Nat.leb 10 (S a) then S k else k)).
    { unfold onAssetLoaded, initializeExperience, assetsToLoad.
      cbn [assetsLoaded initialised].
      destruct (Nat.leb 10 (S a)); reflexivity. }
    change (run (loads (S n)) (mk a k))
      with (run (loads n) (onAssetLoaded (mk a k))).
    rewrite Hone, IH. unfold assetsToLoad. cbn [assetsLoaded initialised].
    destruct (Nat.leb 10 (S a)) eqn:E;
      [apply Nat.leb_le in E|apply Nat.leb_gt in E]; f_equal; lia.
Qed.

(** X25: the experience can be initialised twice.  With the ten load
    callbacks that [preloadAssets] asks for, [before] of them arriving
    before the timeout and [after] of them after it, the experience is
    initialised once if all ten arrived before the timeout or if fewer than
    ten ever arrive, and twice if the timeout comes first and the tenth
    callback follows; without the timeout it is initialised only once all
    ten have arrived. *)
Theorem initialised_once_or_twice (before after : nat) :
  (before + after <= assetsToLoad)%nat ->
  initialised (run (loads before ++ Timeout :: loads after) start) =
    ((if Nat.ltb before assetsToLoad then 1 else 0)
     + (if Nat.eqb (before + after) assetsToLoad then 1 else 0))%nat /\
  initialised (run (loads before) start) =
    (if Nat.eqb before assetsToLoad then 1 else 0)%nat.
Proof.
  intros H. unfold assetsToLoad in *. split.
  - unfold run. rewrite fold_left_app. fold (run (loads before) start).
    rewrite run_loads. cbn [fold_left step]. fold (run (loads after)).
    unfold onTimeout, initializeExperience, start, assetsToLoad.
    cbn [assetsLoaded initialised]. rewrite !Nat.add_0_l.
    destruct (Nat.ltb before 10) eqn:E;
      [apply Nat.ltb_lt in E|apply Nat.ltb_ge in E];
      fold (run (loads after)); rewrite run_loads; unfold assetsToLoad;
      cbn [assetsLoaded initialised];
      (destruct (Nat.eqb (before + after) 10) eqn:E2;
       [apply Nat.eqb_eq in E2|apply Nat.eqb_neq in E2]); lia.
  - rewrite run_loads. unfold start, assetsToLoad.
    cbn [assetsLoaded initialised].
    destruct (Nat.eqb before 10) eqn:E;
      [apply Nat.eqb_eq in E|apply Nat.eqb_neq in E]; lia.
Qed.

(** [initialised_once_or_twice] with seven assets in time and three
    late. *)
Lemma initialised_once_or_twice_witness :
  (7 + 3 <= assetsToLoad)%nat /\
  initialised (run (loads 7 ++ Timeout :: loads 3) start) = 2%nat.
Proof.
  assert (H : (7 + 3 <= assetsToLoad)%nat) by (unfold assetsToLoad; lia).
  split; [exact H|].
  exact (proj1 (initialised_once_or_twice 7 3 H)).
Defined.

End LoadingFacts.

(** ** What a quality level configures *)

Section RenderSettingsFacts.
Import RenderSettings.

(** The handler-level account of [applyQualitySettings] and the detailed
    one throw on the same calls. *)
Lemma applyQualitySettings_accounts_agree (h : ResponsiveHandler.t) (devicePixelRatio : Q)
      (r : Renderer) (particles : option Points) :
  ResponsiveHandler.particles h = seen particles ->
  threw (applyQualitySettings (ResponsiveHandler.qualityLevel h)
                              devicePixelRatio r particles)
    = negb (ResponsiveHandler.returned
              (ResponsiveHandler.applyQualitySettings h)).
Proof.
  intros H. unfold ResponsiveHandler.applyQualitySettings. rewrite H.
  destruct (ResponsiveHandler.qualityLevel h); simpl;
    destruct particles as [[v [n [sz|] o]]|]; reflexivity.
Qed.

Lemma Math_min_le (a b c : Q) : (a <= b)%Q -> (Math_min c a <= Math_min c b)%Q.
Proof.
  intros H. unfold Math_min.
  destruct (Qle_bool c a) eqn:E1, (Qle_bool c b) eqn:E2.
  - apply Qle_refl.
  - apply Qle_bool_iff in E1. apply Qle_trans with a; assumption.
  - apply Qlt_le_weak. apply Qnot_le_lt. intros K.
    apply Qle_bool_iff in K. congruence.
  - exact H.
Qed.

(** X26: the pixel ratio per level.  [setRenderQuality] never sets a pixel
    ratio above 2.5 for a named level, nor above the device pixel ratio at
    medium, high and ultra.  On a device whose pixel ratio is at least 1
    the ratio grows with the level; below 1 it does not: low sets 1, which
    is more than medium then sets. *)
Theorem pixelRatio_by_level (devicePixelRatio original : Q) :
  (forall q, q <> auto ->
     (pixelRatioFor q devicePixelRatio original <= 5#2)%Q) /\
  (forall q, q = medium \/ q = high \/ q = ultra ->
     (pixelRatioFor q devicePixelRatio original <= devicePixelRatio)%Q) /\
  ((1 <= devicePixelRatio)%Q ->
     (pixelRatioFor low devicePixelRatio original
        <= pixelRatioFor medium devicePixelRatio original)%Q /\
     (pixelRatioFor medium devicePixelRatio original
        <= pixelRatioFor high devicePixelRatio original)%Q /\
     (pixelRatioFor high devicePixelRatio original
        <= pixelRatioFor ultra devicePixelRatio original)%Q) /\
  ((devicePixelRatio < 1)%Q ->
     (pixelRatioFor medium devicePixelRatio original
        < pixelRatioFor low devicePixelRatio original)%Q).
Proof.
  assert (Hmin : forall c, (Math_min devicePixelRatio c <= c)%Q /\
                           (Math_min devicePixelRatio c <= devicePixelRatio)%Q).
  { intros c. destruct (Math_min_spec devicePixelRatio c) as (A & B & _). auto. }
  repeat split.
  - intros q Hq. destruct q; simpl; try congruence.
    + discriminate.
    + apply Qle_trans with (3#2)%Q; [apply Hmin|discriminate].
    + apply Qle_trans with 2%Q; [apply Hmin|discriminate].
    + apply Hmin.
  - intros q [->|[->| ->]]; simpl; apply Hmin.
  - simpl. unfold Math_min. destruct (Qle_bool devicePixelRatio (3#2));
      [assumption|discriminate].
  - simpl. apply Math_min_le. discriminate.
  - simpl. apply Math_min_le. discriminate.
  - intros H. simpl.
    apply Qle_lt_trans with devicePixelRatio; [apply Hmin|exact H].
Qed.

(** [pixelRatio_by_level] on device pixel ratios 3 and 0.8. *)
Lemma pixelRatio_by_level_witness :
  (1 <= 3)%Q /\ (8#10 < 1)%Q /\
  (pixelRatioFor high 3 1 <= pixelRatioFor ultra 3 1)%Q /\
  (pixelRatioFor medium (8#10) 1 < pixelRatioFor low (8#10) 1)%Q.
Proof.
  assert (H1 : (1 <= 3)%Q) by discriminate.
  assert (H2 : (8#10 < 1)%Q) by reflexivity.
  split; [exact H1|]. split; [exact H2|]. split.
  - exact (proj2 (proj2 (proj1 (proj2 (proj2 (pixelRatio_by_level 3 1))) H1))).
  - exact (proj2 (proj2 (proj2 (pixelRatio_by_level (8#10) 1))) H2).
Defined.

Lemma adjustPass_name (q : Level) (p : Pass) : name (adjustPass q p) = name p.
Proof.
  unfold adjustPass.
  destruct (isBloom p), (isSSAO p), (isBokeh p); reflexivity.
Qed.

Lemma adjustPass_idem (q : Level) (p : Pass) :
  adjustPass q (adjustPass q p) = adjustPass q p.
Proof.
  unfold adjustPass at 1. unfold isBloom, isSSAO, isBokeh.
  rewrite adjustPass_name.
  fold (isBloom p). fold (isSSAO p). fold (isBokeh p).
  unfold adjustPass.
  destruct (isBloom p), (isSSAO p), (isBokeh p), q; reflexivity.
Qed.

(** X27: applying a level twice is applying it once, and passes the
    function does not know are left alone.  [setRenderQuality] gives the
    same renderer when repeated with the same level; it keeps the number,
    order and names of the passes; and a pass that is not the bloom, SSAO
    or bokeh pass (the render pass, for one) keeps its [enabled] flag at
    every level. *)
Theorem setRenderQuality_idempotent
        (q : Level) (devicePixelRatio original : Q) (r : Renderer) :
  setRenderQuality q devicePixelRatio original
    (setRenderQuality q devicePixelRatio original r)
    = setRenderQuality q devicePixelRatio original r /\
  map name (passes (setRenderQuality q devicePixelRatio original r))
    = map name (passes r) /\
  (forall p, In p (passes r) ->
     isBloom p = false -> isSSAO p = false -> isBokeh p = false ->
     In p (passes (setRenderQuality q devicePixelRatio original r))).
Proof.
  unfold setRenderQuality. simpl. repeat split.
  - f_equal. rewrite map_map. apply map_ext. apply adjustPass_idem.
  - rewrite map_map. apply map_ext. apply adjustPass_name.
  - intros p Hin Hb Hs Hk. apply in_map_iff. exists p. split; [|exact Hin].
    unfold adjustPass. now rewrite Hb, Hs, Hk.
Qed.

(** X28: the two controllers agree below high.  At low and at medium,
    [ResponsiveHandler.applyQualitySettings] leaves the renderer exactly as
    [PerformanceOptimizer.setRenderQuality] does, for every list of passes
    and every device pixel ratio; at every level of the ladder they set the
    same pixel ratio and the same shadow map type. *)
Theorem controllers_agree
        (devicePixelRatio original : Q) (r : Renderer) (pts : option Points) :
  renderer (applyQualitySettings low devicePixelRatio r pts)
    = setRenderQuality low devicePixelRatio original r /\
  renderer (applyQualitySettings medium devicePixelRatio r pts)
    = setRenderQuality medium devicePixelRatio original r /\
  (forall q, Ladder.onLadder q = true ->
     pixelRatio (renderer (applyQualitySettings q devicePixelRatio r pts))
       = pixelRatio (setRenderQuality q devicePixelRatio original r) /\
     shadowMapType (renderer (applyQualitySettings q devicePixelRatio r pts))
       = shadowMapType (setRenderQuality q devicePixelRatio original r)).
Proof.
  split; [|split].
  - unfold applyQualitySettings, setRenderQuality. simpl. f_equal.
    apply map_ext. intros p. unfold adjustPass.
    destruct (isBloom p), (isSSAO p), (isBokeh p); reflexivity.
  - assert (E : forall x, renderer
               (match pts with
                | None => mkApplied x None false
                | Some p =>
                    match Particles.size (geometry p) with
                    | None => mkApplied x pts true
                    | Some sizes =>
                        mkApplied x
                          (Some (mkPoints true
                             (Particles.mk
                                (Particles.positionCount (geometry p))
                                (Some (zeroEven
                                         (Particles.positionCount (geometry p))
                                         sizes))
                                (Particles.originalSizes (geometry p)))))
                          false
                    end
                end) = x).
    { intros x. destruct pts as [p|]; [|reflexivity].
      destruct (Particles.size (geometry p)); reflexivity. }
    unfold applyQualitySettings. rewrite E.
    unfold setRenderQuality. simpl. f_equal.
    apply map_ext. intros p. unfold adjustPass.
    destruct (isBloom p), (isSSAO p), (isBokeh p); reflexivity.
  - intros q Hq. destruct q; try discriminate; simpl; auto.
    destruct pts as [p|]; [|auto].
    destruct (Particles.size (geometry p)); auto.
Qed.

(** X29: [applyQualitySettings] at medium throws on particles without a
    size attribute, such as those of [createOpeningParticles], after it has
    already reconfigured the renderer; at medium with sized particles or
    none, and at every other level, it does not throw. *)
Theorem applyQualitySettings_throws
        (q : Level) (devicePixelRatio : Q) (r : Renderer) (pts : option Points) :
  threw (applyQualitySettings q devicePixelRatio r pts) =
    match q, pts with
    | medium, Some p =>
        match Particles.size (geometry p) with None => true | Some _ => false end
    | _, _ => false
    end /\
  threw (applyQualitySettings medium devicePixelRatio r (Some openingParticles))
    = true /\
  shadowMapType
    (renderer (applyQualitySettings medium devicePixelRatio r
                                    (Some openingParticles)))
    = PCFShadowMap.
Proof.
  repeat split.
  destruct q; simpl; try reflexivity.
  destruct pts as [p|]; [|reflexivity].
  destruct (Particles.size (geometry p)); reflexivity.
Qed.

End RenderSettingsFacts.
